(** * The map and battle scene of the Pokemon remake, and its scene manager

    A shallow embedding of [scenes/pokemon_map.py] (class [PokemonMapScene])
    and of [scene_manager.py] (class [SceneManager]).

    Conventions of the embedding:
    - Python [int] values are [Z]; [//] on them is [Z.div] (floor).
    - Python [float] values are exact rationals [Q]: the speeds, the
      animation clocks and the coordinates that a speed is added to.
      [int(x)] is truncation toward zero, [py_int]. The clock of the
      cutscene is the exception: ten steps of 0.1 stay below 1.0 in
      binary64, which costs the code an eleventh tick for a frame, so
      this clock is a binary64 [float] of the kernel. For the other
      clocks (steps of 0.15 and 0.4) the rationals and binary64 agree on
      the tick that reaches 1.0, see [clock_steps_binary64]. Elsewhere
      binary64 can differ from the rationals by a rounding: an alpha
      [int(255 * (1.0 - p))] can come out one less (the black background
      of the end scene at 800 ms, see [black_fade_alphas_in_binary64]; the
      fall of Bugia and the slide-out of the trainer likewise), and a
      slide whose speed is not a binary fraction can arrive one tick
      later (see [grass_160_wide_arrives_a_tick_later_in_binary64]).
    - An image the loader could not read is [None]; only the pixel size of
      a loaded image matters to the scene.
    - [pygame.time.get_ticks()] and [game.clock.get_time()] are inputs of a
      tick; calls to the mixer are recorded in a trace. *)

From stdpp Require Import gmap strings.
From Stdlib Require Import ZArith QArith Qminmax Qabs Qround Lia Lqa List Bool.
From Stdlib Require Import Floats.PrimFloat.
From Stdlib Require Floats.FloatOps Numbers.Cyclic.Int63.Uint63.
Import ListNotations.

Set Warnings "-inexact-float".

Local Open Scope Z_scope.

(** ** Numbers *)

(** [int(x)] of a Python float: truncation toward zero. *)
Definition py_int (x : Q) : Z := Z.quot (Qnum x) (Zpos (Qden x)).

Definition Qltb (x y : Q) : bool := negb (Qle_bool y x).

(** The same on binary64 floats, for the places where the rounding of the
    code is looked at: [float(n)] of an [int] below 2^63 in absolute
    value, [int(x)] of a finite float, and [min(1.0, x)]. *)
Definition float_of_int (n : Z) : float :=
  if 0 <=? n then of_uint63 (Uint63.of_Z n)
  else (- of_uint63 (Uint63.of_Z (- n)))%float.

Definition int_of_float (x : float) : Z :=
  match FloatOps.Prim2SF x with
  | SpecFloat.S754_finite negative m e =>
      let magnitude :=
        if 0 <=? e then Zpos m * 2 ^ e else Zpos m / 2 ^ (- e) in
      if negative then - magnitude else magnitude
  | _ => 0
  end.

Definition min_1 (x : float) : float := if (x <? 1)%float then x else 1%float.

(** ** config.py *)

Module Config.
Definition SCREEN_WIDTH : Z := 480.
Definition SCREEN_HEIGHT : Z := 320.
Definition PLAYER_SPEED : Z := 3.
End Config.

(** ** Walkable areas

    [walkable_rectangles] holds [(min_x, min_y, max_x, max_y)], bounds
    included; [walkable_cells] holds single cells. *)

Definition Rect : Type := (Z * Z * Z * Z)%type.
Definition Cell : Type := (Z * Z)%type.

Definition walkable_rectangles : list Rect :=
  [ (15, 4, 16, 7); (14, 8, 16, 12) ].

Definition walkable_cells : list Cell :=
  [ (17, 8); (17, 9) ].

Definition in_rect (r : Rect) (cell_x cell_y : Z) : bool :=
  let '(min_x, min_y, max_x, max_y) := r in
  (min_x <=? cell_x) && (cell_x <=? max_x) &&
  (min_y <=? cell_y) && (cell_y <=? max_y).

Definition is_cell (c : Cell) (cell_x cell_y : Z) : bool :=
  let '(cell_x_check, cell_y_check) := c in
  (cell_x =? cell_x_check) && (cell_y =? cell_y_check).

(** The two loops of [is_cell_walkable_check]: the first rectangle that
    holds the cell returns [True], then the first equal single cell. *)
Fixpoint check_rectangles (rs : list Rect) (cell_x cell_y : Z) : bool :=
  match rs with
  | [] => false
  | r :: rs' => if in_rect r cell_x cell_y then true
                else check_rectangles rs' cell_x cell_y
  end.

Fixpoint check_cells (cs : list Cell) (cell_x cell_y : Z) : bool :=
  match cs with
  | [] => false
  | c :: cs' => if is_cell c cell_x cell_y then true
                else check_cells cs' cell_x cell_y
  end.

Definition is_cell_walkable_check
    (rects : list Rect) (cells : list Cell) (cell_x cell_y : Z) : bool :=
  if check_rectangles rects cell_x cell_y then true
  else check_cells cells cell_x cell_y.

(** Walkability under the scene's own configuration. *)
Definition walkable (cell_x cell_y : Z) : bool :=
  is_cell_walkable_check walkable_rectangles walkable_cells cell_x cell_y.

(** The specification's reading of a rectangle: all four bounds included. *)
Definition inside (r : Rect) (cell_x cell_y : Z) : Prop :=
  let '(min_x, min_y, max_x, max_y) := r in
  min_x <= cell_x <= max_x /\ min_y <= cell_y <= max_y.

Lemma in_rect_inside r cell_x cell_y :
  in_rect r cell_x cell_y = true <-> inside r cell_x cell_y.
Proof.
  destruct r as [[[min_x min_y] max_x] max_y]. unfold in_rect, inside.
  rewrite !andb_true_iff, !Z.leb_le. lia.
Qed.

Lemma is_cell_eq c cell_x cell_y :
  is_cell c cell_x cell_y = true <-> c = (cell_x, cell_y).
Proof.
  destruct c as [a b]. unfold is_cell.
  rewrite andb_true_iff, !Z.eqb_eq. split.
  - intros [-> ->]. reflexivity.
  - intros H. injection H as -> ->. split; reflexivity.
Qed.

Lemma check_rectangles_spec rs cell_x cell_y :
  check_rectangles rs cell_x cell_y = true <->
  exists r, In r rs /\ inside r cell_x cell_y.
Proof.
  induction rs as [|r rs IH]; cbn [check_rectangles].
  - split; [discriminate | intros (r & [] & _)].
  - destruct (in_rect r cell_x cell_y) eqn:E.
    + split; [intros _ | reflexivity].
      exists r. split; [left; reflexivity | now apply in_rect_inside].
    + rewrite IH. split.
      * intros (r' & Hin & Hr'). exists r'. split; [right; exact Hin | exact Hr'].
      * intros (r' & [-> | Hin] & Hr').
        -- apply in_rect_inside in Hr'. congruence.
        -- exists r'. split; assumption.
Qed.

Lemma check_cells_spec cs cell_x cell_y :
  check_cells cs cell_x cell_y = true <-> In (cell_x, cell_y) cs.
Proof.
  induction cs as [|c cs IH]; cbn [check_cells].
  - split; [discriminate | intros []].
  - destruct (is_cell c cell_x cell_y) eqn:E.
    + split; [intros _ | reflexivity]. left. now apply is_cell_eq.
    + rewrite IH. split; [intros H; right; exact H |].
      intros [-> | H]; [| exact H].
      assert (is_cell (cell_x, cell_y) cell_x cell_y = true) by now apply is_cell_eq.
      congruence.
Qed.

(** C5. The walkability test holds exactly of the cells that lie inside
    some configured rectangle, bounds included on all four sides, or that
    equal one of the single cells. With the rectangle (15,4,16,7) alone the
    cells (15,4) and (16,7) are walkable and (14,4) is not; (14,4) is not
    walkable under the scene's own ranges either. *)
Theorem walkable_iff_rectangle_or_cell :
  (forall rects cells cell_x cell_y,
      is_cell_walkable_check rects cells cell_x cell_y = true <->
      (exists r, In r rects /\ inside r cell_x cell_y) \/
      In (cell_x, cell_y) cells) /\
  is_cell_walkable_check [(15, 4, 16, 7)] [] 15 4 = true /\
  is_cell_walkable_check [(15, 4, 16, 7)] [] 16 7 = true /\
  is_cell_walkable_check [(15, 4, 16, 7)] [] 14 4 = false /\
  walkable 15 4 = true /\ walkable 16 7 = true /\ walkable 14 4 = false.
Proof.
  split; [| repeat split; reflexivity].
  intros rects cells cell_x cell_y. unfold is_cell_walkable_check.
  destruct (check_rectangles rects cell_x cell_y) eqn:E.
  - split; [intros _ | reflexivity]. left. now apply check_rectangles_spec.
  - rewrite check_cells_spec. split; [intros H; right; exact H |].
    intros [H | H]; [| exact H].
    apply check_rectangles_spec in H. congruence.
Qed.

(** ** What the loaders hand to the scene

    [pygame.image.load] gives a surface or fails; the scene keeps [None]
    for a failed image and reads only sizes of a loaded one. An animated
    GIF is its first frame and the number of further frames (all frames of
    a GIF have the size of its canvas). A sound or a music file is loaded
    or not. *)

Record Image := { get_width : Z; get_height : Z }.

Record Gif := { first_frame : Image; more_frames : nat }.

Record Assets := {
  map_image : option Image;
  character_sprite : bool;
  lugia_sprites : nat;
  exclamation_image : option Image;
  dialog_image : option Image;
  fighting_background : bool;
  map_music : bool;
  battle_music : bool;
  sfx_collision : bool;
  sfx_press_ab : bool;
  sfx_ball_toss : bool;
  sfx_ball_poof : bool;
  sfx_cry_17 : bool;
  battle_dialog : option Image;
  fight_ui : option Image;
  battle_grass : option Image;
  battle_pokemonstat : option Image;
  battle_water : option Image;
  battle_trainer_sprites : nat;
  battle_lugia : option Gif;
  battle_venu : option Gif;
  battle_venu_stat : option Image
}.

Definition loaded {A} (o : option A) : bool :=
  match o with Some _ => true | None => false end.

(** [len(frames)] of a loaded GIF and of one that failed to load. *)
Definition frame_count (g : option Gif) : Z :=
  match g with Some g => Z.of_nat (S (more_frames g)) | None => 0 end.

(** ** Values fixed at construction

    [__init__] computes these once and no later code assigns them. *)

Section Layout.
Variable a : Assets.

Definition grid_size : Z := 32.
Definition player_width : Z := 32.
Definition player_height : Z := 42.

(** A placeholder map of 768x512 stands in for a map that did not load. *)
Definition map_width : Z :=
  match map_image a with Some m => get_width m | None => 768 end.
Definition map_height : Z :=
  match map_image a with Some m => get_height m | None => 512 end.

Definition cell_to_pixel (cell_x cell_y : Z) : Z * Z :=
  (cell_x * grid_size, cell_y * grid_size).

Definition lugia_target_x : Z :=
  let lugia_target_cell_x := (map_width / 32) / 2 - 3 in
  let lugia_target_cell_y := (map_height / 32) / 4 - 5 in
  fst (cell_to_pixel lugia_target_cell_x lugia_target_cell_y) + 16 + 32 - 16.
Definition lugia_target_y : Z :=
  let lugia_target_cell_x := (map_width / 32) / 2 - 3 in
  let lugia_target_cell_y := (map_height / 32) / 4 - 5 in
  snd (cell_to_pixel lugia_target_cell_x lugia_target_cell_y).
Definition lugia_start_x : Z := lugia_target_x + 50.

(** Speeds of the SPEED ADJUSTMENTS block. *)
Definition lugia_animation_speed : float := 0.1%float.
Definition lugia_fly_speed : Q := 5 # 2.
Definition dialog_slide_speed : Z := 5.
Definition fade_speed : Z := 10.
Definition battle_slide_speed_base : Q := 8.
Definition battle_trainer_animation_speed : Q := 15 # 100.
Definition battle_lugia_animation_speed : Q := 4 # 10.
Definition battle_venu_animation_speed : Q := 4 # 10.

Definition exclamation_show_duration : Z := 300.
Definition exclamation_slide_speed : Z := 8.
Definition exclamation_fade_speed : Z := 12.
Definition dialog_pause_duration : Z := 1800.

(** Start and target of each battle element. *)
Definition battle_grass_start_x : Z :=
  match battle_grass a with Some g => - get_width g | None => 0 end.
Definition battle_grass_left_target_x : Z := 0.

Definition battle_trainer_start_x : Z :=
  if (0 <? battle_trainer_sprites a)%nat then Config.SCREEN_WIDTH else 0.
Definition battle_trainer_target_x : Z := 0.

Definition battle_pokemonstat_start_x : Z :=
  match battle_pokemonstat a with Some p => - get_width p | None => 0 end.
Definition battle_pokemonstat_target_x : Z := 0.

Definition battle_water_start_x : Z :=
  match battle_water a with Some _ => Config.SCREEN_WIDTH | None => 0 end.
Definition battle_water_target_x : Z :=
  match battle_water a with
  | Some w => Config.SCREEN_WIDTH - get_width w
  | None => 0
  end.
Definition battle_water_y : Z :=
  match battle_water a, battle_pokemonstat a with
  | Some _, Some p => get_height p
  | _, _ => 0
  end.

Definition battle_lugia_start_x : Z :=
  match battle_lugia a, battle_water a with
  | Some _, Some _ => Config.SCREEN_WIDTH
  | _, _ => 0
  end.
Definition battle_lugia_target_x : Z :=
  match battle_lugia a, battle_water a with
  | Some l, Some w =>
      let water_center_x := battle_water_target_x + get_width w / 2 in
      let scaled_lugia_width :=
        py_int (inject_Z (get_width (first_frame l)) * (3 # 2)) in
      water_center_x - scaled_lugia_width / 2
  | _, _ => 0
  end.
Definition battle_lugia_start_y : Z :=
  match battle_lugia a, battle_water a with
  | Some l, Some w =>
      let scaled_lugia_height :=
        py_int (inject_Z (get_height (first_frame l)) * (3 # 2)) in
      battle_water_y + get_height w - scaled_lugia_height
  | _, _ => 0
  end.

Definition battle_venu_start_y : Z :=
  match battle_venu a with Some _ => Config.SCREEN_HEIGHT | None => 0 end.
Definition battle_venu_target_y : Z :=
  match battle_venu a, battle_dialog a with
  | Some v, Some d =>
      let scaled_height := py_int (inject_Z (get_height (first_frame v)) * 2) in
      Config.SCREEN_HEIGHT - get_height d - scaled_height + 30
  | Some _, None => Config.SCREEN_HEIGHT - 200
  | None, _ => 0
  end.
End Layout.

(** ** Slide speeds (end of [__init__])

    [distances] is the dictionary of the travel distances: an element whose
    image did not load has no entry. *)

Record SlideSpeeds := {
  battle_grass_speed : Q;
  battle_pokemonstat_speed : Q;
  battle_water_speed : Q;
  battle_trainer_speed : Q
}.

Section Distances.
Variable a : Assets.

Definition grass_distance : option Z :=
  if loaded (battle_grass a)
  then Some (Z.abs (battle_grass_left_target_x - battle_grass_start_x a))
  else None.
Definition pokemonstat_distance : option Z :=
  if loaded (battle_pokemonstat a)
  then Some (Z.abs (battle_pokemonstat_target_x - battle_pokemonstat_start_x a))
  else None.
Definition water_distance : option Z :=
  if loaded (battle_water a)
  then Some (Z.abs (battle_water_target_x a - battle_water_start_x a))
  else None.
Definition trainer_distance : option Z :=
  if (0 <? battle_trainer_sprites a)%nat
  then Some (Z.abs (battle_trainer_target_x - battle_trainer_start_x a))
  else None.

Definition max_with (max_distance : Z) (d : option Z) : Z :=
  match d with Some d => Z.max max_distance d | None => max_distance end.

Definition max_distance : Z :=
  max_with (max_with (max_with (max_with 0 grass_distance)
                               pokemonstat_distance)
                     water_distance)
           trainer_distance.
End Distances.

(** One of the four branches "if 'grass' in distances and
    distances['grass'] > 0: ... else: ..." under "if max_distance > 0",
    with the fallback of the outer "else". *)
Definition slide_speed (base : Q) (max_distance : Z) (d : option Z) : Q :=
  if 0 <? max_distance then
    match d with
    | Some d =>
        if 0 <? d then (inject_Z d / inject_Z max_distance) * base else base
    | None => base
    end
  else base.

Definition slide_speeds (base : Q) (a : Assets) : SlideSpeeds :=
  {| battle_grass_speed := slide_speed base (max_distance a) (grass_distance a);
     battle_pokemonstat_speed :=
       slide_speed base (max_distance a) (pokemonstat_distance a);
     battle_water_speed := slide_speed base (max_distance a) (water_distance a);
     battle_trainer_speed :=
       slide_speed base (max_distance a) (trainer_distance a) |}.

(** ** The state of the scene

    The attributes that the map walk, the cutscene, the dialog, the fade and
    the battle entrance read and write. The menus, the attack sequence and
    the end sequence are started by mouse clicks only; their attributes keep
    their construction values as long as no click arrives and are left out,
    except [move_used_state], which the battle entrance tests. *)

Inductive Sfx := SFX_COLLISION | SFX_PRESS_AB | SFX_BALL_TOSS | SFX_BALL_POOF | SFX_CRY_17.

Record Player := {
  player_world_x : Z;
  player_world_y : Z;
  camera_x : Z;
  camera_y : Z;
  moving_up : bool;
  moving_down : bool;
  moving_left : bool;
  moving_right : bool;
  current_direction : Z;
  collision_sound_playing : bool;
  (** [None]: the attribute does not exist yet ([hasattr] is false). *)
  collision_sound_timer : option Z
}.

(** [utils.AnimatedSprite]. *)
Record AnimatedSprite := {
  current_frame : Z;
  sprite_direction : Z;
  animation_time : Q;
  is_moving : bool
}.

Inductive LugiaState := Lugia_hidden | Lugia_flying_in | Lugia_animating | Lugia_stopped.

Record Lugia := {
  lugia_state : LugiaState;
  lugia_x : Q;
  lugia_y : Q;
  lugia_current_frame : Z;
  lugia_animation_time : float;
  lugia_animation_complete : bool;
  lugia_cry_played : bool
}.

Inductive ExclamationState :=
  Excl_hidden | Excl_sliding_up | Excl_showing | Excl_sliding_down.

Record Exclamation := {
  exclamation_visible : bool;
  exclamation_x : Z;
  exclamation_y : Z;
  exclamation_target_y : Z;
  exclamation_alpha : Z;
  exclamation_state : ExclamationState;
  exclamation_show_time : Z;
  exclamation_sound_played : bool
}.

Record Dialog := {
  dialog_visible : bool;
  dialog_slide_y : Z;
  dialog_fully_visible : bool;
  dialog_text : string;
  dialog_pause_start_time : option Z
}.

Inductive FadeState := Fade_none | Fade_fading | Fade_faded.

Record Fade := {
  fade_state : FadeState;
  fade_alpha : Z;
  fade_complete : bool;
  battle_music_started : bool;
  battle_animations_started : bool
}.

(** The coordinates and flags of the five elements that slide in. *)
Record Slides := {
  battle_grass_left_x : Q;
  battle_grass_visible : bool;
  battle_pokemonstat_x : Q;
  battle_pokemonstat_visible : bool;
  battle_water_x : Q;
  battle_water_visible : bool;
  battle_lugia_x : Q;
  battle_lugia_visible : bool;
  lugia_slide_in_complete : bool;
  battle_trainer_x : Q;
  battle_trainer_visible : bool
}.

Record Trainer := {
  battle_trainer_current_frame : Z;
  battle_trainer_animation_time : Q;
  battle_trainer_can_animate : bool;
  battle_trainer_slide_out : bool;
  battle_trainer_alpha : Z;
  trainer_animation_sound_played : bool
}.

Inductive TextState := Text_lugia | Text_venusaur.

Record Venusaur := {
  (** [None]: the attribute was deleted by [delattr]. *)
  battle_venu_x : option Q;
  battle_venu_y : option Q;
  battle_venu_visible : bool;
  battle_venu_current_frame : Z;
  battle_venu_animation_time : Q;
  venusaur_slide_sound_played : bool;
  battle_text_state : TextState;
  battle_text_lugia_alpha : Z;
  battle_text_venusaur_alpha : Z;
  battle_text_fading : bool;
  fight_ui_alpha : Z
}.

Inductive MoveUsedState :=
  Move_none | Move_sliding_down | Move_dialog_showing | Move_fading_black.

Record Battle := {
  battle_dialog_alpha : Z;
  battle_dialog_visible : bool;
  battle_lugia_y : Z;
  battle_lugia_current_frame : Z;
  battle_lugia_animation_time : Q;
  battle_lugia_alpha : Z;
  battle_venu_stat_visible : bool;
  move_used_state : MoveUsedState;
  move_used_dialog_text : string;
  run_text_visible : bool;
  run_text_alpha : Z;
  full_hp_text_visible : bool;
  full_hp_text_alpha : Z;
  audio_muted : bool
}.

Record Scene := {
  player : Player;
  character : AnimatedSprite;
  lugia : Lugia;
  exclamation : Exclamation;
  dialog : Dialog;
  fade : Fade;
  slides : Slides;
  trainer : Trainer;
  venusaur : Venusaur;
  battle : Battle;
  (** The calls [sfx.play()] so far, the latest first. *)
  played : list Sfx
}.

(** ** [__init__] *)

Definition init (a : Assets) : Scene :=
  {| player :=
       {| player_world_x := 15 * grid_size + grid_size / 2;
          player_world_y := 11 * grid_size + grid_size / 2;
          camera_x := 0;
          camera_y := 0;
          moving_up := false;
          moving_down := false;
          moving_left := false;
          moving_right := false;
          current_direction := 1;
          collision_sound_playing := false;
          collision_sound_timer := None |};
     character :=
       {| current_frame := 0; sprite_direction := 0;
          animation_time := 0; is_moving := false |};
     lugia :=
       {| lugia_state := Lugia_hidden;
          lugia_x := inject_Z (lugia_start_x a);
          lugia_y := inject_Z (-200);
          lugia_current_frame := 0;
          lugia_animation_time := 0%float;
          lugia_animation_complete := false;
          lugia_cry_played := false |};
     exclamation :=
       {| exclamation_visible := false;
          exclamation_x := 0;
          exclamation_y := 0;
          exclamation_target_y := 0;
          exclamation_alpha := 255;
          exclamation_state := Excl_hidden;
          exclamation_show_time := 0;
          exclamation_sound_played := false |};
     dialog :=
       {| dialog_visible := false;
          dialog_slide_y := Config.SCREEN_HEIGHT;
          dialog_fully_visible := false;
          dialog_text := "";
          dialog_pause_start_time := None |};
     fade :=
       {| fade_state := Fade_none;
          fade_alpha := 0;
          fade_complete := false;
          battle_music_started := false;
          battle_animations_started := false |};
     slides :=
       {| battle_grass_left_x := inject_Z (battle_grass_start_x a);
          battle_grass_visible := false;
          battle_pokemonstat_x := inject_Z (battle_pokemonstat_start_x a);
          battle_pokemonstat_visible := false;
          battle_water_x := inject_Z (battle_water_start_x a);
          battle_water_visible := false;
          battle_lugia_x := inject_Z (battle_lugia_start_x a);
          battle_lugia_visible := false;
          lugia_slide_in_complete := false;
          battle_trainer_x := inject_Z (battle_trainer_start_x a);
          battle_trainer_visible := false |};
     trainer :=
       {| battle_trainer_current_frame := 0;
          battle_trainer_animation_time := 0;
          battle_trainer_can_animate := false;
          battle_trainer_slide_out := false;
          battle_trainer_alpha := 255;
          trainer_animation_sound_played := false |};
     venusaur :=
       {| battle_venu_x := Some 0%Q;
          battle_venu_y := Some (inject_Z (battle_venu_start_y a));
          battle_venu_visible := false;
          battle_venu_current_frame := 0;
          battle_venu_animation_time := 0;
          venusaur_slide_sound_played := false;
          battle_text_state := Text_lugia;
          battle_text_lugia_alpha := 255;
          battle_text_venusaur_alpha := 0;
          battle_text_fading := false;
          fight_ui_alpha := 0 |};
     battle :=
       {| battle_dialog_alpha := 0;
          battle_dialog_visible := false;
          battle_lugia_y := battle_lugia_start_y a;
          battle_lugia_current_frame := 0;
          battle_lugia_animation_time := 0;
          battle_lugia_alpha := 255;
          battle_venu_stat_visible := loaded (battle_venu_stat a);
          move_used_state := Move_none;
          move_used_dialog_text := "";
          run_text_visible := false;
          run_text_alpha := 0;
          full_hp_text_visible := false;
          full_hp_text_alpha := 0;
          audio_muted := false |};
     played := [] |}.

(** ** [update_camera] *)

Definition update_camera (a : Assets) (p : Player) : Player :=
  let target_camera_x := player_world_x p - Config.SCREEN_WIDTH / 2 in
  let target_camera_y := player_world_y p - Config.SCREEN_HEIGHT / 2 in
  let min_camera_x := 0 in
  let max_camera_x := Z.max 0 (map_width a - Config.SCREEN_WIDTH) in
  let min_camera_y := 0 in
  let max_camera_y := Z.max 0 (map_height a - Config.SCREEN_HEIGHT) in
  {| player_world_x := player_world_x p;
     player_world_y := player_world_y p;
     camera_x := Z.max min_camera_x (Z.min target_camera_x max_camera_x);
     camera_y := Z.max min_camera_y (Z.min target_camera_y max_camera_y);
     moving_up := moving_up p;
     moving_down := moving_down p;
     moving_left := moving_left p;
     moving_right := moving_right p;
     current_direction := current_direction p;
     collision_sound_playing := collision_sound_playing p;
     collision_sound_timer := collision_sound_timer p |}.

(** ** Field updates *)

Definition set_position (x y : Z) (p : Player) : Player :=
  {| player_world_x := x;
     player_world_y := y;
     camera_x := camera_x p;
     camera_y := camera_y p;
     moving_up := moving_up p;
     moving_down := moving_down p;
     moving_left := moving_left p;
     moving_right := moving_right p;
     current_direction := current_direction p;
     collision_sound_playing := collision_sound_playing p;
     collision_sound_timer := collision_sound_timer p |}.

Definition set_moving (up down left right : bool) (direction : Z) (p : Player) : Player :=
  {| player_world_x := player_world_x p;
     player_world_y := player_world_y p;
     camera_x := camera_x p;
     camera_y := camera_y p;
     moving_up := up;
     moving_down := down;
     moving_left := left;
     moving_right := right;
     current_direction := direction;
     collision_sound_playing := collision_sound_playing p;
     collision_sound_timer := collision_sound_timer p |}.

Definition set_collision (playing : bool) (timer : option Z) (p : Player) : Player :=
  {| player_world_x := player_world_x p;
     player_world_y := player_world_y p;
     camera_x := camera_x p;
     camera_y := camera_y p;
     moving_up := moving_up p;
     moving_down := moving_down p;
     moving_left := moving_left p;
     moving_right := moving_right p;
     current_direction := current_direction p;
     collision_sound_playing := playing;
     collision_sound_timer := timer |}.

(** ** The movement block of [update]

    [locked]: a visible dialog or a running cutscene sets [dx = dy = 0]. *)

Definition movement_delta (locked : bool) (p : Player) : Z * Z * Z :=
  if locked then (0, 0, current_direction p)
  else
    let dx := 0 in
    let dy := 0 in
    let direction := current_direction p in
    let '(dx, direction) :=
      if moving_left p then (dx - Config.PLAYER_SPEED, 3) else (dx, direction) in
    let '(dx, direction) :=
      if moving_right p then (dx + Config.PLAYER_SPEED, 2) else (dx, direction) in
    let '(dy, direction) :=
      if moving_up p then (dy - Config.PLAYER_SPEED, 1) else (dy, direction) in
    let '(dy, direction) :=
      if moving_down p then (dy + Config.PLAYER_SPEED, 0) else (dy, direction) in
    (dx, dy, direction).

(** The proposed position: the old one moved by [(dx, dy)] and kept inside
    the map with a margin of 10. *)
Definition proposed_position (a : Assets) (p : Player) (dx dy : Z) : Z * Z :=
  let new_x := player_world_x p + dx in
  let new_y := player_world_y p + dy in
  let margin := 10 in
  let new_x := Z.max margin (Z.min new_x (map_width a - player_width - margin)) in
  let new_y := Z.max margin (Z.min new_y (map_height a - player_height - margin)) in
  (new_x, new_y).

(** The grid cell under the centre of a player placed at [(x, y)]. *)
Definition center_cell (x y : Z) : Z * Z :=
  let player_center_x := x + player_width / 2 in
  let player_center_y := y + player_height / 2 in
  (player_center_x / grid_size, player_center_y / grid_size).

(** The frames of the character sheet are cut 32 wide and 42 high
    ([SpriteSheet(character_path, 32, 42, 128, 168)]); the placeholder
    frames have the same size. *)
Definition sprite_width : Z := 32.
Definition sprite_height : Z := 42.

Definition move_player (a : Assets) (dx dy : Z) (p : Player) : Player * list Sfx :=
  let '(current_cell_x, current_cell_y) :=
    center_cell (player_world_x p) (player_world_y p) in
  let '(new_x, new_y) := proposed_position a p dx dy in
  let '(player_cell_x, player_cell_y) := center_cell new_x new_y in
  let current_is_walkable := walkable current_cell_x current_cell_y in
  let new_is_walkable := walkable player_cell_x player_cell_y in
  let bump :=
    if current_is_walkable && negb new_is_walkable && sfx_collision a
    then [SFX_COLLISION] else [] in
  let is_walkable := new_is_walkable in
  if is_walkable then
    let neighbors :=
      [ (player_cell_x, player_cell_y - 1); (player_cell_x, player_cell_y + 1);
        (player_cell_x - 1, player_cell_y); (player_cell_x + 1, player_cell_y) ] in
    let is_edge := existsb (fun n => negb (walkable (fst n) (snd n))) neighbors in
    let is_edge :=
      if check_cells walkable_cells player_cell_x player_cell_y then true
      else is_edge in
    let '(edge, playing) :=
      if is_edge && sfx_collision a && negb (collision_sound_playing p) then
        let direction_cell_x :=
          if 0 <? dx then player_cell_x + 1
          else if dx <? 0 then player_cell_x - 1 else player_cell_x in
        let direction_cell_y :=
          if 0 <? dy then player_cell_y + 1
          else if dy <? 0 then player_cell_y - 1 else player_cell_y in
        let direction_is_walkable := walkable direction_cell_x direction_cell_y in
        if negb direction_is_walkable then ([SFX_COLLISION], true)
        else ([], collision_sound_playing p)
      else ([], collision_sound_playing p) in
    let p := set_collision playing (collision_sound_timer p) p in
    let cell_left := player_cell_x * grid_size in
    let cell_right := (player_cell_x + 1) * grid_size in
    let cell_top := player_cell_y * grid_size in
    let cell_bottom := (player_cell_y + 1) * grid_size in
    if character_sprite a then
      let sprite_left := new_x - (sprite_width - player_width) / 2 in
      let sprite_right := sprite_left + sprite_width in
      let sprite_top := new_y in
      let sprite_bottom := new_y + sprite_height in
      let new_x :=
        if (sprite_left <? cell_left) && negb (walkable (player_cell_x - 1) player_cell_y)
        then new_x + (cell_left - sprite_left) else new_x in
      let new_x :=
        if (cell_right <? sprite_right) && negb (walkable (player_cell_x + 1) player_cell_y)
        then new_x - (sprite_right - cell_right) else new_x in
      let new_y :=
        if (sprite_top <? cell_top) && negb (walkable player_cell_x (player_cell_y - 1))
        then new_y + (cell_top - sprite_top) else new_y in
      let new_y :=
        if (cell_bottom <? sprite_bottom) && negb (walkable player_cell_x (player_cell_y + 1))
        then new_y - (sprite_bottom - cell_bottom) else new_y in
      let '(constrained_cell_x, constrained_cell_y) := center_cell new_x new_y in
      if walkable constrained_cell_x constrained_cell_y
      then (set_position new_x new_y p, edge ++ bump)
      else (p, edge ++ bump)
    else
      let new_x :=
        if (new_x <? cell_left) && negb (walkable (player_cell_x - 1) player_cell_y)
        then Z.max cell_left new_x else new_x in
      let new_x :=
        if (cell_right <? new_x + player_width)
           && negb (walkable (player_cell_x + 1) player_cell_y)
        then Z.min (cell_right - player_width) new_x else new_x in
      let new_y :=
        if (new_y <? cell_top) && negb (walkable player_cell_x (player_cell_y - 1))
        then Z.max cell_top new_y else new_y in
      let new_y :=
        if (cell_bottom <? new_y + player_height)
           && negb (walkable player_cell_x (player_cell_y + 1))
        then Z.min (cell_bottom - player_height) new_y else new_y in
      (set_position new_x new_y p, edge ++ bump)
  else (p, bump).

(** Directions, movement and collision sound of one tick. The sounds are
    returned latest first. *)
Definition update_movement (a : Assets) (locked : bool) (p : Player) : Player * list Sfx :=
  let '(dx, dy, direction) := movement_delta locked p in
  let p := set_moving (moving_up p) (moving_down p) (moving_left p)
                      (moving_right p) direction p in
  if negb (dx =? 0) || negb (dy =? 0) then move_player a dx dy p
  else (p, []).

(** The block at the end of [update] that re-arms the collision sound 750
    milliseconds of frame time after it played. *)
Definition collision_timer_tick (a : Assets) (get_time : Z) (p : Player) : Player :=
  if collision_sound_playing p && sfx_collision a then
    let timer := match collision_sound_timer p with Some t => t | None => 0 end in
    let timer := timer + get_time in
    if 750 <=? timer then set_collision false (Some 0) p
    else set_collision true (Some timer) p
  else p.

(** ** [AnimatedSprite.update] and the animation block of [update] *)

Definition sprite_update (direction : Z) (moving : bool) (c : AnimatedSprite)
  : AnimatedSprite :=
  if moving then
    let t := (animation_time c + (15 # 100))%Q in
    if Qle_bool 1 t then
      {| current_frame := (current_frame c + 1) mod 4;
         sprite_direction := direction;
         animation_time := 0;
         is_moving := moving |}
    else
      {| current_frame := current_frame c;
         sprite_direction := direction;
         animation_time := t;
         is_moving := moving |}
  else
    {| current_frame := 0;
       sprite_direction := direction;
       animation_time := 0;
       is_moving := moving |}.

Definition lugia_is_hidden (l : Lugia) : bool :=
  match lugia_state l with Lugia_hidden => true | _ => false end.

Definition update_character (p : Player) (l : Lugia) (d : Dialog)
    (c : AnimatedSprite) : AnimatedSprite :=
  if dialog_visible d then sprite_update (current_direction p) false c
  else
    let can_move := lugia_is_hidden l || lugia_animation_complete l in
    let is_moving :=
      (moving_up p || moving_down p || moving_left p || moving_right p)
      && can_move in
    if negb can_move then sprite_update (current_direction p) false c
    else sprite_update (current_direction p) is_moving c.

(** ** The cutscene: trigger, exclamation mark, Lugia *)

(** The player stands in a cell of the row just below the Lugia sprite
    (132 pixels square), within its columns. *)
Definition under_lugia (a : Assets) (p : Player) : bool :=
  let lugia_bottom_y := lugia_target_y a + 132 in
  let lugia_bottom_cell_y := lugia_bottom_y / grid_size in
  let lugia_left_cell_x := lugia_target_x a / grid_size in
  let lugia_right_cell_x := (lugia_target_x a + 132) / grid_size in
  let '(player_cell_x, player_cell_y) :=
    center_cell (player_world_x p) (player_world_y p) in
  (lugia_left_cell_x <=? player_cell_x) && (player_cell_x <=? lugia_right_cell_x)
  && (player_cell_y =? lugia_bottom_cell_y).

Definition update_exclamation (a : Assets) (current_time : Z) (e : Exclamation)
  : Exclamation :=
  if exclamation_visible e && loaded (exclamation_image a) then
    match exclamation_state e with
    | Excl_sliding_up =>
        if exclamation_target_y e <? exclamation_y e then
          let y := exclamation_y e - exclamation_slide_speed in
          if y <=? exclamation_target_y e then
            {| exclamation_visible := exclamation_visible e;
               exclamation_x := exclamation_x e;
               exclamation_y := exclamation_target_y e;
               exclamation_target_y := exclamation_target_y e;
               exclamation_alpha := exclamation_alpha e;
               exclamation_state := Excl_showing;
               exclamation_show_time := current_time;
               exclamation_sound_played := exclamation_sound_played e |}
          else
            {| exclamation_visible := exclamation_visible e;
               exclamation_x := exclamation_x e;
               exclamation_y := y;
               exclamation_target_y := exclamation_target_y e;
               exclamation_alpha := exclamation_alpha e;
               exclamation_state := exclamation_state e;
               exclamation_show_time := exclamation_show_time e;
               exclamation_sound_played := exclamation_sound_played e |}
        else
          {| exclamation_visible := exclamation_visible e;
             exclamation_x := exclamation_x e;
             exclamation_y := exclamation_y e;
             exclamation_target_y := exclamation_target_y e;
             exclamation_alpha := exclamation_alpha e;
             exclamation_state := Excl_showing;
             exclamation_show_time := current_time;
             exclamation_sound_played := exclamation_sound_played e |}
    | Excl_showing =>
        if exclamation_show_duration <=? current_time - exclamation_show_time e then
          {| exclamation_visible := exclamation_visible e;
             exclamation_x := exclamation_x e;
             exclamation_y := exclamation_y e;
             exclamation_target_y := exclamation_target_y e;
             exclamation_alpha := exclamation_alpha e;
             exclamation_state := Excl_sliding_down;
             exclamation_show_time := exclamation_show_time e;
             exclamation_sound_played := exclamation_sound_played e |}
        else e
    | Excl_sliding_down =>
        let y := exclamation_y e + exclamation_slide_speed in
        let alpha := Z.max 0 (exclamation_alpha e - exclamation_fade_speed) in
        if alpha <=? 0 then
          {| exclamation_visible := false;
             exclamation_x := exclamation_x e;
             exclamation_y := y;
             exclamation_target_y := exclamation_target_y e;
             exclamation_alpha := alpha;
             exclamation_state := Excl_hidden;
             exclamation_show_time := exclamation_show_time e;
             exclamation_sound_played := exclamation_sound_played e |}
        else
          {| exclamation_visible := exclamation_visible e;
             exclamation_x := exclamation_x e;
             exclamation_y := y;
             exclamation_target_y := exclamation_target_y e;
             exclamation_alpha := alpha;
             exclamation_state := exclamation_state e;
             exclamation_show_time := exclamation_show_time e;
             exclamation_sound_played := exclamation_sound_played e |}
    | Excl_hidden => e
    end
  else e.

(** The branch "lugia_state == hidden and under_lugia": the exclamation
    mark starts one cell below the top of the player and the press sound
    plays once. *)
Definition start_exclamation (a : Assets) (p : Player) (e : Exclamation)
  : Exclamation * list Sfx :=
  match exclamation_image a with
  | Some img =>
      let player_center_x := player_world_x p + player_width / 2 in
      let player_top_y := player_world_y p in
      let sound := sfx_press_ab a && negb (exclamation_sound_played e) in
      ({| exclamation_visible := true;
          exclamation_x := player_center_x - get_width img / 2;
          exclamation_y := player_top_y + grid_size;
          exclamation_target_y := player_top_y - grid_size;
          exclamation_alpha := 255;
          exclamation_state := Excl_sliding_up;
          exclamation_show_time := 0;
          exclamation_sound_played :=
            if sound then true else exclamation_sound_played e |},
       if sound then [SFX_PRESS_AB] else [])
  | None => (e, [])
  end.

Definition set_lugia_state (st : LugiaState) (l : Lugia) : Lugia :=
  {| lugia_state := st;
     lugia_x := lugia_x l;
     lugia_y := lugia_y l;
     lugia_current_frame := lugia_current_frame l;
     lugia_animation_time := lugia_animation_time l;
     lugia_animation_complete := lugia_animation_complete l;
     lugia_cry_played := lugia_cry_played l |}.

Definition set_lugia_position (st : LugiaState) (x y : Q) (frame : Z) (l : Lugia) : Lugia :=
  {| lugia_state := st;
     lugia_x := x;
     lugia_y := y;
     lugia_current_frame := frame;
     lugia_animation_time := lugia_animation_time l;
     lugia_animation_complete := lugia_animation_complete l;
     lugia_cry_played := lugia_cry_played l |}.

(** The branch "flying_in". *)
Definition lugia_fly_in (a : Assets) (l : Lugia) : Lugia :=
  let target_x := inject_Z (lugia_target_x a) in
  let target_y := inject_Z (lugia_target_y a) in
  if Qltb (lugia_y l) target_y then
    let y := (lugia_y l + lugia_fly_speed)%Q in
    let x :=
      if Qltb target_x (lugia_x l) then
        let vertical_progress :=
          ((target_y - y) / (target_y - inject_Z (-200)))%Q in
        let horizontal_distance := (inject_Z (lugia_start_x a) - target_x)%Q in
        (inject_Z (lugia_start_x a)
         - horizontal_distance * (1 - vertical_progress))%Q
      else target_x in
    set_lugia_position Lugia_flying_in x y (lugia_current_frame l) l
  else
    set_lugia_position Lugia_animating target_x target_y 0 l.

(** The dialog that opens when the cutscene animation ends. *)
Definition open_dialog (d : Dialog) : Dialog :=
  {| dialog_visible := true;
     dialog_slide_y := Config.SCREEN_HEIGHT;
     dialog_fully_visible := false;
     dialog_text := "Bugia wants to battle!";
     dialog_pause_start_time := dialog_pause_start_time d |}.

(** The branch "animating": one pass through the frames, the frame before
    the last held longer, the cry on the last frame. *)
Definition lugia_animate (a : Assets) (l : Lugia) (d : Dialog)
  : Lugia * Dialog * list Sfx :=
  let len := Z.of_nat (lugia_sprites a) in
  if 0 <? len then
    let second_to_last_frame := len - 2 in
    let t :=
      if lugia_current_frame l =? second_to_last_frame
      then (lugia_animation_time l + lugia_animation_speed * 0.3)%float
      else (lugia_animation_time l + lugia_animation_speed)%float in
    let advance := (1 <=? t)%float in
    let t := if advance then 0%float else t in
    let frame :=
      if advance then lugia_current_frame l + 1 else lugia_current_frame l in
    let finished := advance && (len <=? frame) in
    let frame := if finished then len - 1 else frame in
    let cry := (frame =? len - 1) && negb (lugia_cry_played l) && sfx_cry_17 a in
    ({| lugia_state := if finished then Lugia_stopped else lugia_state l;
        lugia_x := lugia_x l;
        lugia_y := lugia_y l;
        lugia_current_frame := frame;
        lugia_animation_time := t;
        lugia_animation_complete :=
          if finished then true else lugia_animation_complete l;
        lugia_cry_played := if cry then true else lugia_cry_played l |},
     if finished then open_dialog d else d,
     if cry then [SFX_CRY_17] else [])
  else (l, d, []).

(** The branch "stopped". *)
Definition lugia_stay (a : Assets) (l : Lugia) : Lugia * list Sfx :=
  let len := Z.of_nat (lugia_sprites a) in
  if 0 <? len then
    let cry := negb (lugia_cry_played l) && sfx_cry_17 a in
    ({| lugia_state := lugia_state l;
        lugia_x := lugia_x l;
        lugia_y := lugia_y l;
        lugia_current_frame := len - 1;
        lugia_animation_time := lugia_animation_time l;
        lugia_animation_complete := lugia_animation_complete l;
        lugia_cry_played := if cry then true else lugia_cry_played l |},
     if cry then [SFX_CRY_17] else [])
  else (l, []).

(** The Lugia state machine of [update]. *)
Definition update_lugia (a : Assets) (p : Player)
    (l : Lugia) (e : Exclamation) (d : Dialog)
  : Lugia * Exclamation * Dialog * list Sfx :=
  match lugia_state l with
  | Lugia_hidden =>
      if under_lugia a p then
        let '(e, sounds) := start_exclamation a p e in
        (set_lugia_state Lugia_flying_in l, e, d, sounds)
      else (l, e, d, [])
  | Lugia_flying_in => (lugia_fly_in a l, e, d, [])
  | Lugia_animating =>
      let '(l, d, sounds) := lugia_animate a l d in (l, e, d, sounds)
  | Lugia_stopped =>
      let '(l, sounds) := lugia_stay a l in (l, e, d, sounds)
  end.

(** ** The dialog box and the fade to the battle *)

Definition fade_is_none (f : Fade) : bool :=
  match fade_state f with Fade_none => true | _ => false end.

Definition start_fading (f : Fade) : Fade :=
  {| fade_state := Fade_fading;
     fade_alpha := 0;
     fade_complete := fade_complete f;
     battle_music_started := battle_music_started f;
     battle_animations_started := battle_animations_started f |}.

(** The dialog slides up by [dialog_slide_speed] a tick, is snapped to its
    target, then waits [dialog_pause_duration] milliseconds of
    [pygame.time.get_ticks()] before the fade starts. *)
Definition update_dialog (a : Assets) (now : Z) (l : Lugia) (d : Dialog) (f : Fade)
  : Dialog * Fade :=
  if dialog_visible d then
    let dialog_height :=
      match dialog_image a with Some img => get_height img | None => 56 end in
    let dialog_target_y := Config.SCREEN_HEIGHT - dialog_height in
    let start_pause :=
      if lugia_animation_complete l && fade_is_none f
         && negb (loaded (dialog_pause_start_time d))
      then Some now else dialog_pause_start_time d in
    let '(y, fully, pause) :=
      if dialog_target_y <? dialog_slide_y d then
        let y := dialog_slide_y d - dialog_slide_speed in
        if y <=? dialog_target_y then (dialog_target_y, true, start_pause)
        else (y, dialog_fully_visible d, dialog_pause_start_time d)
      else (dialog_slide_y d, true, start_pause) in
    let expired :=
      match pause with
      | Some start => (dialog_pause_duration <=? now - start)
                      && fighting_background a && fade_is_none f
      | None => false
      end in
    ({| dialog_visible := dialog_visible d;
        dialog_slide_y := y;
        dialog_fully_visible := fully;
        dialog_text := dialog_text d;
        dialog_pause_start_time := if expired then None else pause |},
     if expired then start_fading f else f)
  else (d, f).

Definition show_all (sl : Slides) : Slides :=
  {| battle_grass_left_x := battle_grass_left_x sl;
     battle_grass_visible := true;
     battle_pokemonstat_x := battle_pokemonstat_x sl;
     battle_pokemonstat_visible := true;
     battle_water_x := battle_water_x sl;
     battle_water_visible := true;
     battle_lugia_x := battle_lugia_x sl;
     battle_lugia_visible := true;
     lugia_slide_in_complete := lugia_slide_in_complete sl;
     battle_trainer_x := battle_trainer_x sl;
     battle_trainer_visible := true |}.

Definition set_battle_start (dialog_shown : bool) (stat_shown : bool)
    (frame : Z) (time : Q) (b : Battle) : Battle :=
  {| battle_dialog_alpha := battle_dialog_alpha b;
     battle_dialog_visible := dialog_shown;
     battle_lugia_y := battle_lugia_y b;
     battle_lugia_current_frame := frame;
     battle_lugia_animation_time := time;
     battle_lugia_alpha := battle_lugia_alpha b;
     battle_venu_stat_visible := stat_shown;
     move_used_state := move_used_state b;
     move_used_dialog_text := move_used_dialog_text b;
     run_text_visible := run_text_visible b;
     run_text_alpha := run_text_alpha b;
     full_hp_text_visible := full_hp_text_visible b;
     full_hp_text_alpha := full_hp_text_alpha b;
     audio_muted := audio_muted b |}.

(** The fade: the battle music starts with it, [fade_alpha] grows by
    [fade_speed] and is snapped to 255, and at 255 every battle element
    becomes visible in the same tick. *)
Definition update_fade (a : Assets) (f : Fade) (sl : Slides) (b : Battle)
  : Fade * Slides * Battle :=
  match fade_state f with
  | Fade_fading =>
      let started := if battle_music_started f then true else battle_music a in
      let alpha := fade_alpha f + fade_speed in
      if 255 <=? alpha then
        let '(frame, time) :=
          if 0 <? frame_count (battle_lugia a) then (0, 0%Q)
          else (battle_lugia_current_frame b, battle_lugia_animation_time b) in
        let first := negb (battle_animations_started f) in
        ({| fade_state := Fade_faded;
            fade_alpha := 255;
            fade_complete := true;
            battle_music_started := started;
            battle_animations_started := true |},
         if first then show_all sl else sl,
         set_battle_start
           (if first then true else battle_dialog_visible b)
           (if first && loaded (battle_venu_stat a) then true
            else battle_venu_stat_visible b)
           frame time b)
      else
        ({| fade_state := Fade_fading;
            fade_alpha := alpha;
            fade_complete := fade_complete f;
            battle_music_started := started;
            battle_animations_started := battle_animations_started f |},
         sl, b)
  | _ => (f, sl, b)
  end.

Definition set_battle_dialog_alpha (alpha : Z) (b : Battle) : Battle :=
  {| battle_dialog_alpha := alpha;
     battle_dialog_visible := battle_dialog_visible b;
     battle_lugia_y := battle_lugia_y b;
     battle_lugia_current_frame := battle_lugia_current_frame b;
     battle_lugia_animation_time := battle_lugia_animation_time b;
     battle_lugia_alpha := battle_lugia_alpha b;
     battle_venu_stat_visible := battle_venu_stat_visible b;
     move_used_state := move_used_state b;
     move_used_dialog_text := move_used_dialog_text b;
     run_text_visible := run_text_visible b;
     run_text_alpha := run_text_alpha b;
     full_hp_text_visible := full_hp_text_visible b;
     full_hp_text_alpha := full_hp_text_alpha b;
     audio_muted := audio_muted b |}.

Definition update_battle_dialog_alpha (a : Assets) (f : Fade) (b : Battle) : Battle :=
  match fade_state f with
  | Fade_fading =>
      if battle_dialog_visible b && loaded (battle_dialog a)
      then set_battle_dialog_alpha (Z.min 255 (fade_alpha f)) b else b
  | Fade_faded =>
      if battle_dialog_visible b && loaded (battle_dialog a)
      then set_battle_dialog_alpha 255 b else b
  | Fade_none => b
  end.

(** ** The slide-in of the battle elements

    Each element is moved by its speed toward its target and set to the
    target when it reaches or passes it. The source writes this out five
    times; the two directions are [slide_right] (from the left edge) and
    [slide_left] (from the right edge). *)

Definition slide_right (x target speed : Q) : Q :=
  if Qltb x target then
    let x := (x + speed)%Q in
    if Qle_bool target x then target else x
  else x.

Definition slide_left (x target speed : Q) : Q :=
  if Qltb target x then
    let x := (x - speed)%Q in
    if Qle_bool x target then target else x
  else x.

Definition move_is_none (m : MoveUsedState) : bool :=
  match m with Move_none => true | _ => false end.

Definition move_is_fading_black (m : MoveUsedState) : bool :=
  match m with Move_fading_black => true | _ => false end.

Definition battle_slide_tick (a : Assets) (sp : SlideSpeeds)
    (m : MoveUsedState) (sl : Slides) : Slides :=
  let grass_target := inject_Z battle_grass_left_target_x in
  let pokemonstat_target := inject_Z battle_pokemonstat_target_x in
  let water_target := inject_Z (battle_water_target_x a) in
  let lugia_target := inject_Z (battle_lugia_target_x a) in
  let trainer_target := inject_Z battle_trainer_target_x in
  if move_is_none m then
    let lugia_x :=
      if battle_lugia_visible sl && loaded (battle_lugia a)
      then slide_left (battle_lugia_x sl) lugia_target (battle_water_speed sp)
      else battle_lugia_x sl in
    {| battle_grass_left_x :=
         if battle_grass_visible sl && loaded (battle_grass a)
         then slide_right (battle_grass_left_x sl) grass_target
                          (battle_grass_speed sp)
         else battle_grass_left_x sl;
       battle_grass_visible := battle_grass_visible sl;
       battle_pokemonstat_x :=
         if battle_pokemonstat_visible sl && loaded (battle_pokemonstat a)
         then slide_right (battle_pokemonstat_x sl) pokemonstat_target
                          (battle_pokemonstat_speed sp)
         else battle_pokemonstat_x sl;
       battle_pokemonstat_visible := battle_pokemonstat_visible sl;
       battle_water_x :=
         if battle_water_visible sl && loaded (battle_water a)
         then slide_left (battle_water_x sl) water_target (battle_water_speed sp)
         else battle_water_x sl;
       battle_water_visible := battle_water_visible sl;
       battle_lugia_x := lugia_x;
       battle_lugia_visible := battle_lugia_visible sl;
       lugia_slide_in_complete :=
         if battle_lugia_visible sl && loaded (battle_lugia a)
            && Qltb lugia_target (battle_lugia_x sl)
            && Qle_bool (battle_lugia_x sl - battle_water_speed sp) lugia_target
         then true else lugia_slide_in_complete sl;
       battle_trainer_x :=
         if battle_trainer_visible sl && (0 <? battle_trainer_sprites a)%nat
         then slide_left (battle_trainer_x sl) trainer_target
                         (battle_trainer_speed sp)
         else battle_trainer_x sl;
       battle_trainer_visible := battle_trainer_visible sl |}
  else
    {| battle_grass_left_x :=
         if battle_grass_visible sl && loaded (battle_grass a)
         then grass_target else battle_grass_left_x sl;
       battle_grass_visible := battle_grass_visible sl;
       battle_pokemonstat_x :=
         if battle_pokemonstat_visible sl && loaded (battle_pokemonstat a)
         then pokemonstat_target else battle_pokemonstat_x sl;
       battle_pokemonstat_visible := battle_pokemonstat_visible sl;
       battle_water_x :=
         if battle_water_visible sl && loaded (battle_water a)
         then water_target else battle_water_x sl;
       battle_water_visible := battle_water_visible sl;
       battle_lugia_x :=
         if battle_lugia_visible sl && loaded (battle_lugia a)
            && negb (move_is_fading_black m)
         then lugia_target else battle_lugia_x sl;
       battle_lugia_visible := battle_lugia_visible sl;
       lugia_slide_in_complete := lugia_slide_in_complete sl;
       battle_trainer_x :=
         if battle_trainer_visible sl && (0 <? battle_trainer_sprites a)%nat
         then trainer_target else battle_trainer_x sl;
       battle_trainer_visible := battle_trainer_visible sl |}.

(** The GIF of the opponent loops while it is visible. *)
Definition animate_battle_lugia (a : Assets) (sl : Slides) (b : Battle) : Battle :=
  if battle_lugia_visible sl && loaded (battle_lugia a)
     && (1 <? frame_count (battle_lugia a)) then
    let t := (battle_lugia_animation_time b + battle_lugia_animation_speed)%Q in
    if Qle_bool 1 t then
      set_battle_start (battle_dialog_visible b) (battle_venu_stat_visible b)
        ((battle_lugia_current_frame b + 1) mod frame_count (battle_lugia a)) 0 b
    else
      set_battle_start (battle_dialog_visible b) (battle_venu_stat_visible b)
        (battle_lugia_current_frame b) t b
  else b.

(** ** The trainer: waiting condition, throw frames, slide-out *)

(** The flag [all_animations_complete] of the trainer block. *)
Definition all_animations_complete (a : Assets) (m : MoveUsedState) (sl : Slides) : bool :=
  if move_is_none m then
    let complete := true in
    let complete :=
      if battle_grass_visible sl && loaded (battle_grass a)
         && negb (Qeq_bool (battle_grass_left_x sl)
                           (inject_Z battle_grass_left_target_x))
      then false else complete in
    let complete :=
      if battle_pokemonstat_visible sl && loaded (battle_pokemonstat a)
         && negb (Qeq_bool (battle_pokemonstat_x sl)
                           (inject_Z battle_pokemonstat_target_x))
      then false else complete in
    let complete :=
      if battle_water_visible sl && loaded (battle_water a)
         && negb (Qeq_bool (battle_water_x sl)
                           (inject_Z (battle_water_target_x a)))
      then false else complete in
    let complete :=
      if negb (Qeq_bool (battle_trainer_x sl) (inject_Z battle_trainer_target_x))
      then false else complete in
    complete
  else false.

Definition is_empty (s : string) : bool :=
  match s with EmptyString => true | _ => false end.

(** What the last throw frame starts: the Venusaur sprite becomes visible
    and the dialog text is reset. *)
Definition reveal_venusaur (a : Assets) (v : Venusaur) : Venusaur :=
  {| battle_venu_x := battle_venu_x v;
     battle_venu_y := battle_venu_y v;
     battle_venu_visible := true;
     battle_venu_current_frame := battle_venu_current_frame v;
     battle_venu_animation_time := battle_venu_animation_time v;
     venusaur_slide_sound_played := venusaur_slide_sound_played v;
     battle_text_state := battle_text_state v;
     battle_text_lugia_alpha := 255;
     battle_text_venusaur_alpha := 0;
     battle_text_fading := battle_text_fading v;
     fight_ui_alpha := if loaded (fight_ui a) then 0 else fight_ui_alpha v |}.

Definition set_trainer_x (x : Q) (visible : bool) (sl : Slides) : Slides :=
  {| battle_grass_left_x := battle_grass_left_x sl;
     battle_grass_visible := battle_grass_visible sl;
     battle_pokemonstat_x := battle_pokemonstat_x sl;
     battle_pokemonstat_visible := battle_pokemonstat_visible sl;
     battle_water_x := battle_water_x sl;
     battle_water_visible := battle_water_visible sl;
     battle_lugia_x := battle_lugia_x sl;
     battle_lugia_visible := battle_lugia_visible sl;
     lugia_slide_in_complete := lugia_slide_in_complete sl;
     battle_trainer_x := x;
     battle_trainer_visible := visible |}.

(** The slide-out of the trainer: to the left at the speed it came in
    with, fading with the distance covered, hidden at -180 or at alpha 0.
    The alpha is the exact [255 * (1 - fade_progress)] truncated; in
    binary64 [1.0 - fade_progress] can round below the exact value and
    the alpha is then one less (at x = -144: 50, here 51). *)
Definition trainer_slide_out_target : Z := -180.

Definition trainer_slide_out (sp : SlideSpeeds) (x : Q) (alpha : Z) : Q * Z * bool :=
  let target := inject_Z trainer_slide_out_target in
  let '(x, alpha) :=
    if Qltb target x then
      let x := (x - battle_trainer_speed sp)%Q in
      let total_slide_distance :=
        inject_Z (Z.abs (battle_trainer_target_x - trainer_slide_out_target)) in
      let current_slide_distance := Qabs (x - inject_Z battle_trainer_target_x) in
      let fade_progress :=
        Qmin 1 (current_slide_distance / total_slide_distance) in
      (x, py_int (255 * (1 - fade_progress)))
    else (x, alpha) in
  if Qle_bool x target || (alpha <=? 0) then (x, 0, false) else (x, alpha, true).

Definition update_trainer (a : Assets) (sp : SlideSpeeds) (m : MoveUsedState)
    (sl : Slides) (t : Trainer) (v : Venusaur)
  : Slides * Trainer * Venusaur * list Sfx :=
  if battle_trainer_visible sl && (0 <? battle_trainer_sprites a)%nat then
    let len := Z.of_nat (battle_trainer_sprites a) in
    let can_animate :=
      if all_animations_complete a m sl && negb (battle_trainer_can_animate t)
      then true else battle_trainer_can_animate t in
    let animate :=
      can_animate
      && Qeq_bool (battle_trainer_x sl) (inject_Z battle_trainer_target_x)
      && negb (battle_trainer_slide_out t) in
    let time :=
      if animate
      then (battle_trainer_animation_time t + battle_trainer_animation_speed)%Q
      else battle_trainer_animation_time t in
    let step := animate && Qle_bool 1 time in
    let time := if step then 0%Q else time in
    let advance := step && (battle_trainer_current_frame t <? len - 1) in
    let last := step && negb (battle_trainer_current_frame t <? len - 1) in
    let frame :=
      if advance then battle_trainer_current_frame t + 1
      else battle_trainer_current_frame t in
    let toss :=
      advance && (frame =? 1) && sfx_ball_toss a
      && negb (trainer_animation_sound_played t) in
    let v := if last then reveal_venusaur a v else v in
    let slide_out := if last then true else battle_trainer_slide_out t in
    let alpha := if last then 255 else battle_trainer_alpha t in
    let '(x, alpha, visible) :=
      if slide_out then trainer_slide_out sp (battle_trainer_x sl) alpha
      else (battle_trainer_x sl, alpha, battle_trainer_visible sl) in
    (set_trainer_x x visible sl,
     {| battle_trainer_current_frame := frame;
        battle_trainer_animation_time := time;
        battle_trainer_can_animate := can_animate;
        battle_trainer_slide_out := slide_out;
        battle_trainer_alpha := alpha;
        trainer_animation_sound_played :=
          if toss then true else trainer_animation_sound_played t |},
     v,
     if toss then [SFX_BALL_TOSS] else [])
  else (sl, t, v, []).

(** ** The Venusaur sprite slides up from under the dialog

    The two move-back branches of this block are guarded by flags of the
    attack sequence and are not part of this model. *)

Definition set_venusaur_text (y : option Q) (poof : bool) (st : TextState)
    (lugia_alpha venusaur_alpha ui_alpha : Z) (v : Venusaur) : Venusaur :=
  {| battle_venu_x := battle_venu_x v;
     battle_venu_y := y;
     battle_venu_visible := battle_venu_visible v;
     battle_venu_current_frame := battle_venu_current_frame v;
     battle_venu_animation_time := battle_venu_animation_time v;
     venusaur_slide_sound_played := poof;
     battle_text_state := st;
     battle_text_lugia_alpha := lugia_alpha;
     battle_text_venusaur_alpha := venusaur_alpha;
     battle_text_fading := battle_text_fading v;
     fight_ui_alpha := ui_alpha |}.

Definition venusaur_slide (a : Assets) (sp : SlideSpeeds) (b : Battle)
    (y : Q) (v : Venusaur) : Venusaur * list Sfx :=
  let target := inject_Z (battle_venu_target_y a) in
  let no_text := is_empty (move_used_dialog_text b) in
  let ui := loaded (fight_ui a) && no_text in
  if Qltb target y then
    let y := (y - battle_trainer_speed sp)%Q in
    let y := if Qle_bool y target then target else y in
    let venusaur_start_y := Config.SCREEN_HEIGHT in
    let venusaur_total_distance := venusaur_start_y - battle_venu_target_y a in
    let venusaur_current_distance := (inject_Z venusaur_start_y - y)%Q in
    if 0 <? venusaur_total_distance then
      let venusaur_slide_progress :=
        Qmin 1 (venusaur_current_distance / inject_Z venusaur_total_distance) in
      let poof :=
        sfx_ball_poof a && negb (venusaur_slide_sound_played v)
        && Qle_bool (1 # 2) venusaur_slide_progress in
      (set_venusaur_text (Some y)
         (if poof then true else venusaur_slide_sound_played v)
         (battle_text_state v) 255 0
         (if ui then 0 else fight_ui_alpha v) v,
       if poof then [SFX_BALL_POOF] else [])
    else
      (set_venusaur_text (Some y) (venusaur_slide_sound_played v)
         (battle_text_state v)
         (if no_text then 0 else battle_text_lugia_alpha v)
         (if no_text then 255 else battle_text_venusaur_alpha v)
         (if ui then 255 else fight_ui_alpha v) v,
       [])
  else
    (set_venusaur_text (Some y) (venusaur_slide_sound_played v)
       (if no_text then Text_venusaur else battle_text_state v)
       (if no_text then 0 else battle_text_lugia_alpha v)
       (if no_text then 255 else battle_text_venusaur_alpha v)
       (if ui then 255 else fight_ui_alpha v) v,
     []).

Definition animate_venusaur (a : Assets) (v : Venusaur) : Venusaur :=
  if 1 <? frame_count (battle_venu a) then
    let t := (battle_venu_animation_time v + battle_venu_animation_speed)%Q in
    let step := Qle_bool 1 t in
    {| battle_venu_x := battle_venu_x v;
       battle_venu_y := battle_venu_y v;
       battle_venu_visible := battle_venu_visible v;
       battle_venu_current_frame :=
         if step
         then (battle_venu_current_frame v + 1) mod frame_count (battle_venu a)
         else battle_venu_current_frame v;
       battle_venu_animation_time := if step then 0%Q else t;
       venusaur_slide_sound_played := venusaur_slide_sound_played v;
       battle_text_state := battle_text_state v;
       battle_text_lugia_alpha := battle_text_lugia_alpha v;
       battle_text_venusaur_alpha := battle_text_venusaur_alpha v;
       battle_text_fading := battle_text_fading v;
       fight_ui_alpha := fight_ui_alpha v |}
  else v.

(** [None]: the block reads [battle_venu_y] after [delattr] removed it. *)
Definition update_venusaur (a : Assets) (sp : SlideSpeeds) (b : Battle) (v : Venusaur)
  : option (Venusaur * list Sfx) :=
  if battle_venu_visible v && loaded (battle_venu a) then
    if move_is_none (move_used_state b) then
      match battle_venu_y v with
      | Some y =>
          let '(v, sounds) := venusaur_slide a sp b y v in
          Some (animate_venusaur a v, sounds)
      | None => None
      end
    else Some (animate_venusaur a v, [])
  else Some (v, []).

(** The immediate switch of the dialog text. *)
Definition update_text (b : Battle) (v : Venusaur) : Venusaur :=
  if battle_text_fading v && negb (battle_venu_visible v)
     && move_is_none (move_used_state b) then
    {| battle_venu_x := battle_venu_x v;
       battle_venu_y := battle_venu_y v;
       battle_venu_visible := battle_venu_visible v;
       battle_venu_current_frame := battle_venu_current_frame v;
       battle_venu_animation_time := battle_venu_animation_time v;
       venusaur_slide_sound_played := venusaur_slide_sound_played v;
       battle_text_state := Text_venusaur;
       battle_text_lugia_alpha := 0;
       battle_text_venusaur_alpha := 255;
       battle_text_fading := false;
       fight_ui_alpha := fight_ui_alpha v |}
  else v.

(** The two message texts are shown or hidden at once. *)
Definition update_messages (b : Battle) : Battle :=
  {| battle_dialog_alpha := battle_dialog_alpha b;
     battle_dialog_visible := battle_dialog_visible b;
     battle_lugia_y := battle_lugia_y b;
     battle_lugia_current_frame := battle_lugia_current_frame b;
     battle_lugia_animation_time := battle_lugia_animation_time b;
     battle_lugia_alpha := battle_lugia_alpha b;
     battle_venu_stat_visible := battle_venu_stat_visible b;
     move_used_state := move_used_state b;
     move_used_dialog_text := move_used_dialog_text b;
     run_text_visible := run_text_visible b;
     run_text_alpha := if run_text_visible b then 255 else 0;
     full_hp_text_visible := full_hp_text_visible b;
     full_hp_text_alpha := if full_hp_text_visible b then 255 else 0;
     audio_muted := audio_muted b |}.

(** ** [update]

    A tick reads the clock twice: [pygame.time.get_ticks()], milliseconds
    since the start of the program, and [game.clock.get_time()],
    milliseconds the last frame took. *)

Record TickInput := { get_ticks : Z; get_time : Z }.

Definition movement_locked (s : Scene) : bool :=
  dialog_visible (dialog s)
  || (negb (lugia_is_hidden (lugia s)) && negb (lugia_animation_complete (lugia s))).

(** The safety check at the top of [update]: back on the map with the
    battle music still on, the map music is loaded again. *)
Definition restore_map_music (a : Assets) (f : Fade) : Fade :=
  if fade_is_none f && battle_music_started f && map_music a then
    {| fade_state := fade_state f;
       fade_alpha := fade_alpha f;
       fade_complete := fade_complete f;
       battle_music_started := false;
       battle_animations_started := battle_animations_started f |}
  else f.

(** What one tick does to the player: directions and movement, the camera,
    and at the end of the tick the timer of the collision sound. *)
Definition tick_player (a : Assets) (get_time : Z) (locked : bool) (p : Player)
  : Player * list Sfx :=
  let '(p, sounds) := update_movement a locked p in
  let p := update_camera a p in
  (collision_timer_tick a get_time p, sounds).

(** The part of [update] under "if self.fade_state == 'faded'". *)
Definition update_battle (a : Assets) (sp : SlideSpeeds)
    (sl : Slides) (t : Trainer) (v : Venusaur) (b : Battle)
  : option (Slides * Trainer * Venusaur * Battle * list Sfx) :=
  let sl := battle_slide_tick a sp (move_used_state b) sl in
  let b := animate_battle_lugia a sl b in
  let '(sl, t, v, toss) := update_trainer a sp (move_used_state b) sl t v in
  match update_venusaur a sp b v with
  | Some (v, poof) => Some (sl, t, update_text b v, b, poof ++ toss)
  | None => None
  end.

(** One tick. [None]: the tick does not complete (the character sheet is
    missing and [self.character_sprite.update] raises, or a deleted
    attribute is read), or the scene is in the attack sequence, which this
    model does not cover. *)
Definition update (a : Assets) (i : TickInput) (s : Scene) : option Scene :=
  let sp := slide_speeds battle_slide_speed_base a in
  let f := restore_map_music a (fade s) in
  let '(p, bumps) := tick_player a (get_time i) (movement_locked s) (player s) in
  if negb (character_sprite a) then None
  else if negb (move_is_none (move_used_state (battle s))) then None
  else
    let c := update_character p (lugia s) (dialog s) (character s) in
    let e := update_exclamation a (get_ticks i) (exclamation s) in
    let '(l, e, d, cries) := update_lugia a p (lugia s) e (dialog s) in
    let '(d, f) := update_dialog a (get_ticks i) l d f in
    let '(f, sl, b) := update_fade a f (slides s) (battle s) in
    let b := update_battle_dialog_alpha a f b in
    let after_battle :=
      match fade_state f with
      | Fade_faded => update_battle a sp sl (trainer s) (venusaur s) b
      | _ => Some (sl, trainer s, venusaur s, b, [])
      end in
    match after_battle with
    | Some (sl, t, v, b, throws) =>
        Some {| player := p;
                character := c;
                lugia := l;
                exclamation := e;
                dialog := d;
                fade := f;
                slides := sl;
                trainer := t;
                venusaur := v;
                battle := update_messages b;
                played := throws ++ cries ++ bumps ++ played s |}
    | None => None
    end.

(** ** [on_enter] and [handle_event]

    Keyboard events only: the mouse drives the menus of the battle, which
    are outside this model. *)

Inductive Key :=
  K_m | K_r | K_UP | K_w | K_DOWN | K_s | K_LEFT | K_a | K_RIGHT | K_d | K_other.

Inductive Event := KEYDOWN (key : Key) | KEYUP (key : Key).

Definition set_sound_flags (s : Scene) : Scene :=
  let e := exclamation s in
  let t := trainer s in
  let v := venusaur s in
  {| player := player s;
     character := character s;
     lugia := lugia s;
     exclamation :=
       {| exclamation_visible := exclamation_visible e;
          exclamation_x := exclamation_x e;
          exclamation_y := exclamation_y e;
          exclamation_target_y := exclamation_target_y e;
          exclamation_alpha := exclamation_alpha e;
          exclamation_state := exclamation_state e;
          exclamation_show_time := exclamation_show_time e;
          exclamation_sound_played := false |};
     dialog := dialog s;
     fade := fade s;
     slides := slides s;
     trainer :=
       {| battle_trainer_current_frame := battle_trainer_current_frame t;
          battle_trainer_animation_time := battle_trainer_animation_time t;
          battle_trainer_can_animate := battle_trainer_can_animate t;
          battle_trainer_slide_out := battle_trainer_slide_out t;
          battle_trainer_alpha := battle_trainer_alpha t;
          trainer_animation_sound_played := false |};
     venusaur :=
       {| battle_venu_x := battle_venu_x v;
          battle_venu_y := battle_venu_y v;
          battle_venu_visible := battle_venu_visible v;
          battle_venu_current_frame := battle_venu_current_frame v;
          battle_venu_animation_time := battle_venu_animation_time v;
          venusaur_slide_sound_played := false;
          battle_text_state := battle_text_state v;
          battle_text_lugia_alpha := battle_text_lugia_alpha v;
          battle_text_venusaur_alpha := battle_text_venusaur_alpha v;
          battle_text_fading := battle_text_fading v;
          fight_ui_alpha := fight_ui_alpha v |};
     battle := battle s;
     played := played s |}.

Definition set_player (p : Player) (s : Scene) : Scene :=
  {| player := p;
     character := character s;
     lugia := lugia s;
     exclamation := exclamation s;
     dialog := dialog s;
     fade := fade s;
     slides := slides s;
     trainer := trainer s;
     venusaur := venusaur s;
     battle := battle s;
     played := played s |}.

Definition set_fade (f : Fade) (s : Scene) : Scene :=
  {| player := player s;
     character := character s;
     lugia := lugia s;
     exclamation := exclamation s;
     dialog := dialog s;
     fade := f;
     slides := slides s;
     trainer := trainer s;
     venusaur := venusaur s;
     battle := battle s;
     played := played s |}.

(** [on_enter]; [debug_start_at_attack_sequence] is [False]. *)
Definition on_enter (a : Assets) (s : Scene) : Scene :=
  let p :=
    set_position (15 * grid_size + grid_size / 2) (11 * grid_size + grid_size / 2)
                 (player s) in
  let p := update_camera a p in
  let p := set_moving false false false false 1 p in
  let f := fade s in
  let f :=
    if map_music a then
      {| fade_state := fade_state f;
         fade_alpha := fade_alpha f;
         fade_complete := fade_complete f;
         battle_music_started := false;
         battle_animations_started := battle_animations_started f |}
    else f in
  set_sound_flags (set_fade f (set_player p s)).

(** The branch of [handle_event] for the R key. The attributes written
    here are all of those this model holds that the branch assigns; it
    assigns neither [lugia_x], [lugia_animation_time], the exclamation
    mark, [dialog_text], [fade_complete], [battle_trainer_animation_time],
    the collision flag and timer, nor the full-HP message. *)
Definition restart (a : Assets) (s0 : Scene) : Scene :=
  let s := on_enter a s0 in
  let l := lugia s in
  let d := dialog s in
  let f := fade s in
  let sl := slides s in
  let t := trainer s in
  let v := venusaur s in
  let b := battle s in
  let has_trainer := (0 <? battle_trainer_sprites a)%nat in
  {| player := player s;
     character := character s;
     lugia :=
       {| lugia_state := Lugia_hidden;
          lugia_x := lugia_x l;
          lugia_y := inject_Z (-200);
          lugia_current_frame := 0;
          lugia_animation_time := lugia_animation_time l;
          lugia_animation_complete := false;
          lugia_cry_played := false |};
     exclamation := exclamation s;
     dialog :=
       {| dialog_visible := false;
          dialog_slide_y := Config.SCREEN_HEIGHT;
          dialog_fully_visible := false;
          dialog_text := dialog_text d;
          dialog_pause_start_time := None |};
     fade :=
       {| fade_state := Fade_none;
          fade_alpha := 0;
          fade_complete := fade_complete f;
          battle_music_started :=
            if battle_music_started f && map_music a then false
            else battle_music_started f;
          battle_animations_started := false |};
     slides :=
       {| battle_grass_left_x :=
            match battle_grass a with
            | Some g => inject_Z (- get_width g)
            | None => battle_grass_left_x sl
            end;
          battle_grass_visible :=
            if loaded (battle_grass a) then false else battle_grass_visible sl;
          battle_pokemonstat_x :=
            match battle_pokemonstat a with
            | Some p => inject_Z (- get_width p)
            | None => battle_pokemonstat_x sl
            end;
          battle_pokemonstat_visible :=
            if loaded (battle_pokemonstat a) then false
            else battle_pokemonstat_visible sl;
          battle_water_x :=
            if loaded (battle_water a) then inject_Z Config.SCREEN_WIDTH
            else battle_water_x sl;
          battle_water_visible :=
            if loaded (battle_water a) then false else battle_water_visible sl;
          battle_lugia_x :=
            if battle_lugia_visible sl || loaded (battle_lugia a)
            then inject_Z Config.SCREEN_WIDTH else battle_lugia_x sl;
          battle_lugia_visible :=
            if battle_lugia_visible sl || loaded (battle_lugia a) then false
            else battle_lugia_visible sl;
          lugia_slide_in_complete := false;
          battle_trainer_x :=
            if has_trainer then inject_Z Config.SCREEN_WIDTH
            else battle_trainer_x sl;
          battle_trainer_visible :=
            if has_trainer then false else battle_trainer_visible sl |};
     trainer :=
       {| battle_trainer_current_frame :=
            if has_trainer then 0 else battle_trainer_current_frame t;
          battle_trainer_animation_time := battle_trainer_animation_time t;
          battle_trainer_can_animate :=
            if has_trainer then false else battle_trainer_can_animate t;
          battle_trainer_slide_out :=
            if has_trainer then false else battle_trainer_slide_out t;
          battle_trainer_alpha :=
            if has_trainer then 255 else battle_trainer_alpha t;
          trainer_animation_sound_played := false |};
     venusaur :=
       {| battle_venu_x := None;
          battle_venu_y :=
            if loaded (battle_venu a) then Some (inject_Z Config.SCREEN_HEIGHT)
            else None;
          battle_venu_visible :=
            if loaded (battle_venu a) then false else battle_venu_visible v;
          battle_venu_current_frame :=
            if loaded (battle_venu a) then 0 else battle_venu_current_frame v;
          battle_venu_animation_time :=
            if loaded (battle_venu a) then 0%Q else battle_venu_animation_time v;
          venusaur_slide_sound_played := false;
          battle_text_state := Text_lugia;
          battle_text_lugia_alpha := 255;
          battle_text_venusaur_alpha := 0;
          battle_text_fading := false;
          fight_ui_alpha := if loaded (fight_ui a) then 0 else fight_ui_alpha v |};
     battle :=
       {| battle_dialog_alpha :=
            if loaded (battle_dialog a) then 0 else battle_dialog_alpha b;
          battle_dialog_visible :=
            if loaded (battle_dialog a) then false else battle_dialog_visible b;
          battle_lugia_y :=
            if battle_lugia_visible sl && loaded (battle_water a)
               && loaded (battle_lugia a)
            then battle_lugia_start_y a else battle_lugia_y b;
          battle_lugia_current_frame :=
            if loaded (battle_lugia a) then 0 else battle_lugia_current_frame b;
          battle_lugia_animation_time :=
            if loaded (battle_lugia a) then 0%Q else battle_lugia_animation_time b;
          battle_lugia_alpha := 255;
          battle_venu_stat_visible := battle_venu_stat_visible b;
          move_used_state := Move_none;
          move_used_dialog_text := "";
          run_text_visible := false;
          run_text_alpha := 0;
          full_hp_text_visible := full_hp_text_visible b;
          full_hp_text_alpha := full_hp_text_alpha b;
          audio_muted := audio_muted b |};
     played := (if sfx_press_ab a then [SFX_PRESS_AB] else []) ++ played s |}.

Definition toggle_mute (s : Scene) : Scene :=
  let b := battle s in
  {| player := player s;
     character := character s;
     lugia := lugia s;
     exclamation := exclamation s;
     dialog := dialog s;
     fade := fade s;
     slides := slides s;
     trainer := trainer s;
     venusaur := venusaur s;
     battle :=
       {| battle_dialog_alpha := battle_dialog_alpha b;
          battle_dialog_visible := battle_dialog_visible b;
          battle_lugia_y := battle_lugia_y b;
          battle_lugia_current_frame := battle_lugia_current_frame b;
          battle_lugia_animation_time := battle_lugia_animation_time b;
          battle_lugia_alpha := battle_lugia_alpha b;
          battle_venu_stat_visible := battle_venu_stat_visible b;
          move_used_state := move_used_state b;
          move_used_dialog_text := move_used_dialog_text b;
          run_text_visible := run_text_visible b;
          run_text_alpha := run_text_alpha b;
          full_hp_text_visible := full_hp_text_visible b;
          full_hp_text_alpha := full_hp_text_alpha b;
          audio_muted := negb (audio_muted b) |};
     played := played s |}.

(** The movement keys: arrows and WASD. *)
Definition press (key : Key) (p : Player) : Player :=
  match key with
  | K_UP | K_w =>
      set_moving true (moving_down p) (moving_left p) (moving_right p) 1 p
  | K_DOWN | K_s =>
      set_moving (moving_up p) true (moving_left p) (moving_right p) 0 p
  | K_LEFT | K_a =>
      set_moving (moving_up p) (moving_down p) true (moving_right p) 3 p
  | K_RIGHT | K_d =>
      set_moving (moving_up p) (moving_down p) (moving_left p) true 2 p
  | _ => p
  end.

Definition release (key : Key) (p : Player) : Player :=
  match key with
  | K_UP | K_w =>
      set_moving false (moving_down p) (moving_left p) (moving_right p)
                 (current_direction p) p
  | K_DOWN | K_s =>
      set_moving (moving_up p) false (moving_left p) (moving_right p)
                 (current_direction p) p
  | K_LEFT | K_a =>
      set_moving (moving_up p) (moving_down p) false (moving_right p)
                 (current_direction p) p
  | K_RIGHT | K_d =>
      set_moving (moving_up p) (moving_down p) (moving_left p) false
                 (current_direction p) p
  | _ => p
  end.

Definition handle_event (a : Assets) (event : Event) (s : Scene) : Scene :=
  match event with
  | KEYDOWN K_r => restart a s
  | _ =>
      let s := match event with KEYDOWN K_m => toggle_mute s | _ => s end in
      if movement_locked s then s
      else
        match event with
        | KEYDOWN key => set_player (press key (player s)) s
        | KEYUP key => set_player (release key (player s)) s
        end
  end.

(** ** Runs of the driver loop

    [main.Game] builds the scene, enters it, and then in every frame hands
    the pending events to the scene and calls [update] once. *)

Inductive Step := Ev (event : Event) | Tick (i : TickInput).

Definition step (a : Assets) (st : Step) (s : Scene) : option Scene :=
  match st with
  | Ev event => Some (handle_event a event s)
  | Tick i => update a i s
  end.

Fixpoint run (a : Assets) (steps : list Step) (s : Scene) : option Scene :=
  match steps with
  | [] => Some s
  | st :: steps' =>
      match step a st s with
      | Some s' => run a steps' s'
      | None => None
      end
  end.

(** The scene as [Game.__init__] leaves it: built, then entered through
    [SceneManager.change_scene]. *)
Definition fresh (a : Assets) : Scene := on_enter a (init a).

(** [n] frames of [dt] milliseconds each, the first at time [start + dt]. *)
Fixpoint frames (n : nat) (start dt : Z) : list Step :=
  match n with
  | O => []
  | S n' => Tick {| get_ticks := start + dt; get_time := dt |}
            :: frames n' (start + dt) dt
  end.

Definition reachable (a : Assets) (s : Scene) : Prop :=
  exists steps, run a steps (fresh a) = Some s.

(** A complete set of assets, used for the concrete runs below: a map of
    1024x768, every image and sound loaded. *)
Definition image (w h : Z) : Image := {| get_width := w; get_height := h |}.

Definition demo_assets : Assets :=
  {| map_image := Some (image 1024 768);
     character_sprite := true;
     lugia_sprites := 3;
     exclamation_image := Some (image 16 16);
     dialog_image := Some (image 480 56);
     fighting_background := true;
     map_music := true;
     battle_music := true;
     sfx_collision := true;
     sfx_press_ab := true;
     sfx_ball_toss := true;
     sfx_ball_poof := true;
     sfx_cry_17 := true;
     battle_dialog := Some (image 480 96);
     fight_ui := Some (image 240 96);
     battle_grass := Some (image 240 64);
     battle_pokemonstat := Some (image 240 58);
     battle_water := Some (image 120 150);
     battle_trainer_sprites := 5;
     battle_lugia := Some {| first_frame := image 100 100; more_frames := 3 |};
     battle_venu := Some {| first_frame := image 64 64; more_frames := 3 |};
     battle_venu_stat := Some (image 200 58) |}.

(** * Properties *)

(** ** The player and the camera during a tick *)

Lemma update_player a i s s' :
  update a i s = Some s' ->
  player s' = fst (tick_player a (get_time i) (movement_locked s) (player s)).
Proof.
  unfold update.
  destruct (tick_player a (get_time i) (movement_locked s) (player s)) as [p bumps].
  destruct (character_sprite a); cbn [negb]; [| discriminate].
  destruct (move_is_none (move_used_state (battle s))); cbn [negb]; [| discriminate].
  destruct (update_lugia a p (lugia s) _ (dialog s)) as [[[l e] d] cries].
  destruct (update_dialog a (get_ticks i) l d _) as [d' f].
  destruct (update_fade a f (slides s) (battle s)) as [[f' sl] b].
  match goal with
  | |- match ?x with _ => _ end = _ -> _ => destruct x as [[[[[sl' t] v] b'] throws]|]
  end; [| discriminate].
  intros H. injection H as <-. reflexivity.
Qed.

Lemma set_position_same p :
  set_position (player_world_x p) (player_world_y p) p = p.
Proof. destruct p; reflexivity. Qed.

(** A proposed position whose centre cell is not walkable is rejected. *)
Lemma move_player_rejected a dx dy p :
  (let '(new_x, new_y) := proposed_position a p dx dy in
   let '(cell_x, cell_y) := center_cell new_x new_y in
   walkable cell_x cell_y) = false ->
  fst (move_player a dx dy p) = p.
Proof.
  unfold move_player.
  destruct (center_cell (player_world_x p) (player_world_y p)) as [ccx ccy].
  destruct (proposed_position a p dx dy) as [nx ny].
  destruct (center_cell nx ny) as [cx cy].
  intros ->. reflexivity.
Qed.

(** The cell that a tick proposes to enter: the cell under the centre of
    the position that the movement flags ask for. *)
Definition proposed_cell (a : Assets) (s : Scene) : Z * Z :=
  let '(dx, dy, _) := movement_delta (movement_locked s) (player s) in
  let '(new_x, new_y) := proposed_position a (player s) dx dy in
  center_cell new_x new_y.

Lemma tick_player_position a dt locked p :
  let p' := fst (tick_player a dt locked p) in
  let p1 := fst (update_movement a locked p) in
  player_world_x p' = player_world_x p1 /\ player_world_y p' = player_world_y p1.
Proof.
  unfold tick_player.
  destruct (update_movement a locked p) as [p1 sounds]. cbn [fst].
  unfold collision_timer_tick.
  destruct (collision_sound_playing (update_camera a p1) && sfx_collision a);
    [| split; reflexivity].
  destruct (750 <=? _); split; reflexivity.
Qed.

(** C6. In a tick whose proposed position has its centre in a cell that is
    not walkable, the tick leaves [player_world_x] and [player_world_y] as
    they were. *)
Theorem position_unchanged_when_cell_not_walkable a i s s' :
  update a i s = Some s' ->
  walkable (fst (proposed_cell a s)) (snd (proposed_cell a s)) = false ->
  player_world_x (player s') = player_world_x (player s) /\
  player_world_y (player s') = player_world_y (player s).
Proof.
  intros Hup Hcell. rewrite (update_player _ _ _ _ Hup).
  destruct (tick_player_position a (get_time i) (movement_locked s) (player s))
    as [-> ->].
  unfold update_movement, proposed_cell in *.
  destruct (movement_delta (movement_locked s) (player s)) as [[dx dy] direction].
  destruct (negb (dx =? 0) || negb (dy =? 0)); [| split; reflexivity].
  rewrite move_player_rejected; [split; reflexivity |].
  unfold proposed_position in *. cbn [set_moving player_world_x player_world_y].
  destruct (center_cell _ _) as [cx cy]. exact Hcell.
Qed.

(** The state at the inner corner of the walkable area: up 24 frames, right
    10 frames, then down and right held together. The player stands in
    cell (16,9); the cell down-right of it, (17,10), is not walkable. *)
Definition to_corner : list Step :=
  Ev (KEYDOWN K_UP) :: frames 24 0 16
  ++ Ev (KEYUP K_UP) :: Ev (KEYDOWN K_RIGHT) :: frames 10 384 16
  ++ [Ev (KEYDOWN K_DOWN)].

Definition corner : Scene :=
  Eval vm_compute in
    match run demo_assets to_corner (fresh demo_assets) with
    | Some s => s
    | None => fresh demo_assets
    end.

Lemma corner_reached : run demo_assets to_corner (fresh demo_assets) = Some corner.
Proof. vm_compute. reflexivity. Qed.

Lemma position_unchanged_at_corner :
  exists s',
    update demo_assets {| get_ticks := 560; get_time := 16 |} corner = Some s' /\
    walkable (fst (proposed_cell demo_assets corner))
             (snd (proposed_cell demo_assets corner)) = false /\
    player_world_x (player s') = player_world_x (player corner) /\
    player_world_y (player s') = player_world_y (player corner).
Proof.
  eexists. split; [vm_compute; reflexivity |].
  split; [vm_compute; reflexivity |].
  apply (position_unchanged_when_cell_not_walkable demo_assets
           {| get_ticks := 560; get_time := 16 |} corner);
    vm_compute; reflexivity.
Defined.

(** ** The camera *)

Definition clamp (lo hi x : Z) : Z := Z.max lo (Z.min x hi).

(** The camera that [update_camera] computes from a player position: the
    position itself (the top-left corner of the 32x42 player box) minus
    half the screen, clamped to [0, map_size - screen_size]. The code
    writes the upper bound as [max(0, map_size - screen_size)];
    [clamp_max_0] shows that the clamped value is the same. *)
Definition camera_of (a : Assets) (x y : Z) : Z * Z :=
  (clamp 0 (map_width a - Config.SCREEN_WIDTH)
         (x - Config.SCREEN_WIDTH / 2),
   clamp 0 (map_height a - Config.SCREEN_HEIGHT)
         (y - Config.SCREEN_HEIGHT / 2)).

Lemma clamp_max_0 hi x : Z.max 0 (Z.min x (Z.max 0 hi)) = clamp 0 hi x.
Proof. unfold clamp. lia. Qed.

(** The camera of the specification, written after its words: the centre
    point of the player minus half the screen size, clamped to
    [0, map_size - screen_size]. The centre point is the one [update]
    uses for the grid cell: the position plus half the player size. *)
Definition camera_from_center (a : Assets) (x y : Z) : Z * Z :=
  let player_center_x := x + player_width / 2 in
  let player_center_y := y + player_height / 2 in
  (clamp 0 (map_width a - Config.SCREEN_WIDTH)
         (player_center_x - Config.SCREEN_WIDTH / 2),
   clamp 0 (map_height a - Config.SCREEN_HEIGHT)
         (player_center_y - Config.SCREEN_HEIGHT / 2)).

Definition camera_tracks (a : Assets) (p : Player) : Prop :=
  (camera_x p, camera_y p) = camera_of a (player_world_x p) (player_world_y p).

Lemma update_camera_tracks a p : camera_tracks a (update_camera a p).
Proof.
  unfold camera_tracks, camera_of, update_camera.
  cbn [camera_x camera_y player_world_x player_world_y].
  rewrite !clamp_max_0. reflexivity.
Qed.

Lemma collision_timer_tick_tracks a dt p :
  camera_tracks a p -> camera_tracks a (collision_timer_tick a dt p).
Proof.
  unfold collision_timer_tick.
  destruct (collision_sound_playing p && sfx_collision a); [| easy].
  destruct (750 <=? _); easy.
Qed.

Lemma update_tracks a i s s' :
  update a i s = Some s' -> camera_tracks a (player s').
Proof.
  intros H. rewrite (update_player _ _ _ _ H). unfold tick_player.
  destruct (update_movement a (movement_locked s) (player s)) as [p sounds].
  cbn [fst]. apply collision_timer_tick_tracks, update_camera_tracks.
Qed.

Lemma handle_event_tracks a event s :
  camera_tracks a (player s) -> camera_tracks a (player (handle_event a event s)).
Proof.
  intros H. unfold handle_event.
  assert (Hkeys : forall s0, camera_tracks a (player s0) ->
            camera_tracks a (player
              (if movement_locked s0 then s0
               else match event with
                    | KEYDOWN key => set_player (press key (player s0)) s0
                    | KEYUP key => set_player (release key (player s0)) s0
                    end))).
  { intros s0 H0. destruct (movement_locked s0); [exact H0 |].
    destruct event as [[]|[]]; exact H0. }
  destruct event as [key|key].
  - destruct key; try (apply Hkeys; exact H).
    apply (update_camera_tracks a).
  - apply Hkeys. exact H.
Qed.

Lemma handle_events_track a events : forall s,
  camera_tracks a (player s) ->
  camera_tracks a (player (fold_left (fun s event => handle_event a event s) events s)).
Proof.
  induction events as [|event events IH]; intros s H; cbn [fold_left].
  - exact H.
  - apply IH, handle_event_tracks, H.
Qed.

(** What the code computes. After every tick, and still after the events
    that follow it, the camera is the player's position (not its centre
    point) minus half the screen size, clamped componentwise to
    [0, map_size - screen_size]; nothing else moves the camera. *)
Theorem camera_follows_player_position a i s s' events :
  update a i s = Some s' ->
  let s'' := fold_left (fun s event => handle_event a event s) events s' in
  (camera_x (player s''), camera_y (player s'')) =
  camera_of a (player_world_x (player s'')) (player_world_y (player s'')).
Proof.
  intros H. apply handle_events_track, (update_tracks _ _ _ _ H).
Qed.

Lemma camera_follows_player_position_at_corner :
  exists s',
    update demo_assets {| get_ticks := 560; get_time := 16 |} corner = Some s' /\
    (camera_x (player s'), camera_y (player s')) =
    camera_of demo_assets (player_world_x (player s')) (player_world_y (player s')).
Proof.
  eexists. split; [vm_compute; reflexivity |].
  apply (camera_follows_player_position demo_assets
           {| get_ticks := 560; get_time := 16 |} corner _ []).
  vm_compute; reflexivity.
Defined.

(** C8. The camera is not the centre point of the player minus half the
    screen size, clamped, although the docstring of [update_camera] says
    "keep character centered" and its comment "center character": the
    code subtracts half the screen from the top-left corner of the player
    box. After the first tick of a fresh scene on a map of 1024x768 the
    camera is at (256,208), and the centre of the player minus half the
    screen is (272,229), inside the clamping range on both axes. *)
Lemma camera_is_not_player_center_minus_half_screen :
  ~ (forall a i s s',
        update a i s = Some s' ->
        (camera_x (player s'), camera_y (player s')) =
        camera_from_center a (player_world_x (player s'))
                             (player_world_y (player s'))).
Proof.
  intros H.
  assert (E : exists s',
             update demo_assets {| get_ticks := 16; get_time := 16 |}
                    (fresh demo_assets) = Some s' /\
             (camera_x (player s'), camera_y (player s')) = (256, 208) /\
             camera_from_center demo_assets (player_world_x (player s'))
                                (player_world_y (player s')) = (272, 229)).
  { eexists. split; [vm_compute; reflexivity |].
    split; vm_compute; reflexivity. }
  destruct E as (s' & E & Hcode & Hspec).
  specialize (H _ _ _ _ E). rewrite Hcode, Hspec in H. discriminate H.
Qed.

(** ** The collision sound *)

(** The sounds of a completed tick: those of the movement block are in
    [played] after it, in front of what was played before. *)
Lemma update_played a i s s' :
  update a i s = Some s' ->
  exists later,
    played s' =
    later ++ snd (tick_player a (get_time i) (movement_locked s) (player s))
          ++ played s.
Proof.
  unfold update.
  destruct (tick_player a (get_time i) (movement_locked s) (player s)) as [p bumps].
  destruct (character_sprite a); cbn [negb]; [| discriminate].
  destruct (move_is_none (move_used_state (battle s))); cbn [negb]; [| discriminate].
  destruct (update_lugia a p (lugia s) _ (dialog s)) as [[[l e] d] cries].
  destruct (update_dialog a (get_ticks i) l d _) as [d' f].
  destruct (update_fade a f (slides s) (battle s)) as [[f' sl] b].
  match goal with
  | |- match ?x with _ => _ end = _ -> _ => destruct x as [[[[[sl' t] v] b'] throws]|]
  end; [| discriminate].
  intros H. injection H as <-. cbn [played snd].
  exists (throws ++ cries). rewrite <- app_assoc. reflexivity.
Qed.

(** Whether the movement flags of a state ask for a move in this tick. *)
Definition proposes_move (s : Scene) : bool :=
  let '(dx, dy, _) := movement_delta (movement_locked s) (player s) in
  negb (dx =? 0) || negb (dy =? 0).

Definition current_cell (s : Scene) : Z * Z :=
  center_cell (player_world_x (player s)) (player_world_y (player s)).

(** The call of [sfx_collision.play()] on leaving the walkable area does not
    read [collision_sound_playing]: with the sound loaded, every completed
    tick that proposes a move from a walkable cell into one that is not
    walkable plays it, whatever the flag and the timer hold. *)
Lemma bump_sound_not_staggered a i s s' :
  update a i s = Some s' ->
  sfx_collision a = true ->
  proposes_move s = true ->
  walkable (fst (current_cell s)) (snd (current_cell s)) = true ->
  walkable (fst (proposed_cell a s)) (snd (proposed_cell a s)) = false ->
  exists later, played s' = later ++ SFX_COLLISION :: played s.
Proof.
  intros Hup Hsfx Hmove Hcur Hnew.
  destruct (update_played _ _ _ _ Hup) as [later ->].
  exists later. do 2 f_equal.
  unfold tick_player, update_movement, proposes_move, proposed_cell, current_cell in *.
  destruct (movement_delta (movement_locked s) (player s)) as [[dx dy] direction].
  rewrite Hmove.
  unfold move_player, proposed_position in *.
  cbn [set_moving player_world_x player_world_y] in *.
  destruct (center_cell (player_world_x (player s)) (player_world_y (player s)))
    as [ccx ccy].
  destruct (center_cell _ _) as [cx cy].
  cbn [fst snd] in Hcur, Hnew. rewrite Hcur, Hnew, Hsfx. reflexivity.
Qed.

(** C4 fails on the code. At the inner corner the player holds down and
    right: each tick proposes a move from the walkable cell (16,9) into
    the cell (17,10), which is not walkable, the position stays, and the
    collision sound is played in each of two frames 16 milliseconds apart.
    The flag [collision_sound_playing], which staggers the sound of the
    other path by 750 milliseconds, is not consulted and stays unset. *)
Theorem collision_sound_repeats_every_frame :
  exists s1 s2,
    run demo_assets to_corner (fresh demo_assets) = Some corner /\
    update demo_assets {| get_ticks := 560; get_time := 16 |} corner = Some s1 /\
    update demo_assets {| get_ticks := 576; get_time := 16 |} s1 = Some s2 /\
    center_cell (player_world_x (player corner)) (player_world_y (player corner))
      = (16, 9) /\
    walkable 16 9 = true /\
    proposed_cell demo_assets corner = (17, 10) /\
    proposed_cell demo_assets s1 = (17, 10) /\
    walkable 17 10 = false /\
    played s1 = SFX_COLLISION :: played corner /\
    played s2 = SFX_COLLISION :: played s1 /\
    collision_sound_playing (player s1) = false /\
    collision_sound_playing (player s2) = false.
Proof.
  eexists. eexists.
  split; [exact corner_reached |].
  split; [vm_compute; reflexivity |].
  split; [vm_compute; reflexivity |].
  repeat split; vm_compute; reflexivity.
Qed.

(** ** The play-through up to the battle entrance

    The up key is held from the start. With the map of [demo_assets] the
    player reaches the row below the Lugia sprite in frame 66; the cutscene,
    the dialog, its pause and the fade follow, and the battle elements start
    to slide in frame 365. *)
Definition walk_up (n : nat) : list Step := Ev (KEYDOWN K_UP) :: frames n 0 16.

(** ** The animation clocks in binary64

    A clock starts at 0, a speed is added every tick and the frame
    advances on the tick that brings the clock to 1.0 or above. *)
Fixpoint clock_binary64 (ticks : nat) (speed : float) : float :=
  match ticks with
  | O => 0%float
  | S n => (clock_binary64 n speed + speed)%float
  end.

Fixpoint clock_exact (ticks : nat) (speed : Q) : Q :=
  match ticks with
  | O => 0%Q
  | S n => (clock_exact n speed + speed)%Q
  end.

(** Ten steps of 0.1 stay below 1.0 in binary64 and the eleventh passes
    it, where the rationals reach 1 with the tenth: the cutscene clock is
    therefore kept in binary64. With the steps 0.15 (trainer, walk cycle)
    and 0.4 (the two GIFs) the rationals and binary64 pass 1.0 on the same
    tick, the seventh and the third. *)
Lemma clock_steps_binary64 :
  ((1 <=? clock_binary64 10 0.1)%float = false /\
   (1 <=? clock_binary64 11 0.1)%float = true /\
   Qle_bool 1 (clock_exact 10 (1 # 10)) = true) /\
  ((1 <=? clock_binary64 33 (0.1 * 0.3))%float = false /\
   (1 <=? clock_binary64 34 (0.1 * 0.3))%float = true) /\
  ((1 <=? clock_binary64 6 0.15)%float = false /\
   (1 <=? clock_binary64 7 0.15)%float = true /\
   Qle_bool 1 (clock_exact 6 (15 # 100)) = false /\
   Qle_bool 1 (clock_exact 7 (15 # 100)) = true) /\
  ((1 <=? clock_binary64 2 0.4)%float = false /\
   (1 <=? clock_binary64 3 0.4)%float = true /\
   Qle_bool 1 (clock_exact 2 (4 # 10)) = false /\
   Qle_bool 1 (clock_exact 3 (4 # 10)) = true).
Proof. repeat split; vm_compute; reflexivity. Qed.

(** C7 fails on the code. The test [all_animations_complete] waits for the
    grass, the stat panel, the water and the trainer, not for the Lugia
    sprite. With a water image 120 wide and a Lugia frame 100 wide (150
    after scaling) the Lugia sprite has 135 pixels to go at the speed of the
    water, which has 120: in frame 430 the trainer advances from throw
    frame 0 to frame 1 and the toss sound plays while the Lugia sprite is
    at 348, three pixels short of its target 345. *)
Theorem trainer_throws_before_lugia_arrives :
  exists s s',
    run demo_assets (walk_up 429) (fresh demo_assets) = Some s /\
    update demo_assets {| get_ticks := 6880; get_time := 16 |} s = Some s' /\
    fade_state (fade s) = Fade_faded /\
    battle_lugia_visible (slides s) = true /\
    battle_lugia_target_x demo_assets = 345 /\
    (battle_lugia_x (slides s) == 350)%Q /\
    (battle_lugia_x (slides s') == 348)%Q /\
    lugia_slide_in_complete (slides s') = false /\
    battle_trainer_current_frame (trainer s) = 0 /\
    battle_trainer_current_frame (trainer s') = 1 /\
    played s' = SFX_BALL_TOSS :: played s.
Proof.
  eexists. eexists.
  split; [vm_compute; reflexivity |].
  split; [vm_compute; reflexivity |].
  repeat split; vm_compute; reflexivity.
Qed.

(** ** Restart *)

(** C1 fails on the code. The R key pressed in frame 425, while the
    trainer waits for its first throw frame, leaves behind what the branch
    does not assign: [lugia_x] stays at the target 448 of the first
    fly-in (498 in a fresh scene), the clock of the trainer animation
    stays at 0.3, [fade_complete] stays set, the alpha of the exclamation
    mark stays 0 (255 in a fresh scene), and [battle_venu_x] is deleted. *)
Theorem restart_leaves_stale_state :
  exists s,
    run demo_assets (walk_up 425) (fresh demo_assets) = Some s /\
    let s' := handle_event demo_assets (KEYDOWN K_r) s in
    ((lugia_x (lugia s') == 448)%Q /\
     (lugia_x (lugia (fresh demo_assets)) == 498)%Q) /\
    ((battle_trainer_animation_time (trainer s') == 3 # 10)%Q /\
     (battle_trainer_animation_time (trainer (fresh demo_assets)) == 0)%Q) /\
    (fade_complete (fade s') = true /\
     fade_complete (fade (fresh demo_assets)) = false) /\
    (exclamation_alpha (exclamation s') = 0 /\
     exclamation_alpha (exclamation (fresh demo_assets)) = 255) /\
    (battle_venu_x (venusaur s') = None /\
     battle_venu_x (venusaur (fresh demo_assets)) = Some 0%Q).
Proof.
  eexists. split; [vm_compute; reflexivity |].
  repeat split; vm_compute; reflexivity.
Qed.

(** The second play-through shows the difference: after the restart and
    the same walk, Lugia comes straight down at x = 448 where the first
    fly-in came in from x = 498. *)
Lemma second_fly_in_differs :
  exists s1 s2,
    run demo_assets (walk_up 70) (fresh demo_assets) = Some s1 /\
    run demo_assets
        (walk_up 425 ++ Ev (KEYDOWN K_r) :: Ev (KEYDOWN K_UP) :: frames 70 6800 16)
        (fresh demo_assets) = Some s2 /\
    lugia_state (lugia s1) = Lugia_flying_in /\
    lugia_state (lugia s2) = Lugia_flying_in /\
    (lugia_y (lugia s1) == lugia_y (lugia s2))%Q /\
    (448 < lugia_x (lugia s1))%Q /\
    (lugia_x (lugia s2) == 448)%Q.
Proof.
  eexists. eexists.
  split; [vm_compute; reflexivity |].
  split; [vm_compute; reflexivity |].
  repeat split; vm_compute; reflexivity.
Qed.

(** ** Comparisons of rationals *)

Lemma Qltb_lt x y : Qltb x y = true <-> (x < y)%Q.
Proof.
  unfold Qltb. rewrite negb_true_iff. split.
  - intros H. apply Qnot_le_lt. intros Hle. apply Qle_bool_iff in Hle. congruence.
  - intros H. destruct (Qle_bool y x) eqn:E; [| reflexivity].
    apply Qle_bool_iff in E. lra.
Qed.

Lemma Qltb_ge x y : Qltb x y = false <-> (y <= x)%Q.
Proof. unfold Qltb. rewrite negb_false_iff. apply Qle_bool_iff. Qed.

Lemma Qle_bool_gt x y : Qle_bool x y = false <-> (y < x)%Q.
Proof.
  split.
  - intros H. apply Qnot_le_lt. intros Hle. apply Qle_bool_iff in Hle. congruence.
  - intros H. destruct (Qle_bool x y) eqn:E; [| reflexivity].
    apply Qle_bool_iff in E. lra.
Qed.

(** ** One slide step

    The three cases of a step: still short of the target, reaching or
    passing it (the coordinate is set to the target), and already there. *)

Lemma slide_right_spec x target s :
  ((x < target /\ x + s < target /\ slide_right x target s = x + s) \/
   (x < target /\ target <= x + s /\ slide_right x target s = target) \/
   (target <= x /\ slide_right x target s = x))%Q.
Proof.
  unfold slide_right. destruct (Qltb x target) eqn:E.
  - apply Qltb_lt in E. destruct (Qle_bool target (x + s)) eqn:E2.
    + apply Qle_bool_iff in E2. right. left. auto.
    + apply Qle_bool_gt in E2. left. auto.
  - apply Qltb_ge in E. right. right. auto.
Qed.

Lemma slide_left_spec x target s :
  ((target < x /\ target < x - s /\ slide_left x target s = x - s) \/
   (target < x /\ x - s <= target /\ slide_left x target s = target) \/
   (x <= target /\ slide_left x target s = x))%Q.
Proof.
  unfold slide_left. destruct (Qltb target x) eqn:E.
  - apply Qltb_lt in E. destruct (Qle_bool (x - s) target) eqn:E2.
    + apply Qle_bool_iff in E2. right. left. auto.
    + apply Qle_bool_gt in E2. left. auto.
  - apply Qltb_ge in E. right. right. auto.
Qed.




(** ** The five sliding elements, one at a time *)

Inductive Element := Grass | Pokemonstat | Water | BattleLugia | TrainerSprite.

Definition position (sl : Slides) (e : Element) : Q :=
  match e with
  | Grass => battle_grass_left_x sl
  | Pokemonstat => battle_pokemonstat_x sl
  | Water => battle_water_x sl
  | BattleLugia => battle_lugia_x sl
  | TrainerSprite => battle_trainer_x sl
  end.

Definition target (a : Assets) (e : Element) : Q :=
  inject_Z match e with
           | Grass => battle_grass_left_target_x
           | Pokemonstat => battle_pokemonstat_target_x
           | Water => battle_water_target_x a
           | BattleLugia => battle_lugia_target_x a
           | TrainerSprite => battle_trainer_target_x
           end.

(** The coordinate [__init__] gives the element. *)
Definition start (a : Assets) (e : Element) : Q := position (slides (init a)) e.

(** The Lugia sprite slides at the speed of the water. *)
Definition speed (sp : SlideSpeeds) (e : Element) : Q :=
  match e with
  | Grass => battle_grass_speed sp
  | Pokemonstat => battle_pokemonstat_speed sp
  | Water | BattleLugia => battle_water_speed sp
  | TrainerSprite => battle_trainer_speed sp
  end.


(** The guard of the element's branch: visible and loaded. *)
Definition sliding (a : Assets) (sl : Slides) (e : Element) : bool :=
  match e with
  | Grass => battle_grass_visible sl && loaded (battle_grass a)
  | Pokemonstat => battle_pokemonstat_visible sl && loaded (battle_pokemonstat a)
  | Water => battle_water_visible sl && loaded (battle_water a)
  | BattleLugia => battle_lugia_visible sl && loaded (battle_lugia a)
  | TrainerSprite => battle_trainer_visible sl && (0 <? battle_trainer_sprites a)%nat
  end.

(** The grass and the stat panel come from the left edge, the others from
    the right edge. *)
Definition from_left (e : Element) : bool :=
  match e with Grass | Pokemonstat => true | _ => false end.

Definition slide (e : Element) (x target speed : Q) : Q :=
  if from_left e then slide_right x target speed else slide_left x target speed.

Definition is_lugia (e : Element) : bool :=
  match e with BattleLugia => true | _ => false end.

Lemma battle_slide_tick_position a sp m sl e :
  position (battle_slide_tick a sp m sl) e =
  if move_is_none m then
    if sliding a sl e
    then slide e (position sl e) (target a e) (speed sp e)
    else position sl e
  else
    if sliding a sl e && negb (is_lugia e && move_is_fading_black m)
    then target a e
    else position sl e.
Proof.
  destruct e, m; try reflexivity;
    cbn [move_is_none is_lugia negb andb];
    rewrite andb_true_r; reflexivity.
Qed.

Lemma battle_slide_tick_sliding a sp m sl e :
  sliding a (battle_slide_tick a sp m sl) e = sliding a sl e.
Proof. destruct e, m; reflexivity. Qed.





Lemma slide_stays e x t s : (x == t)%Q -> slide e x t s = x.
Proof.
  unfold slide. destruct (from_left e); intros H.
  - destruct (slide_right_spec x t s) as [(H1 & _) | [(H1 & _) | (_ & ->)]];
      [lra | lra | reflexivity].
  - destruct (slide_left_spec x t s) as [(H1 & _) | [(H1 & _) | (_ & ->)]];
      [lra | lra | reflexivity].
Qed.


(** ** The duration-based animators

    Every timed animation of the scene adds [game.clock.get_time()] to its
    timer and takes [min(1.0, timer / duration)] as its progress; the eased
    ones pass it through [ease_in_out]. The black block of the attack
    sequence is the instance modelled here. *)

Definition normalized_progress (timer duration : Z) : Q :=
  Qmin 1 (inject_Z timer / inject_Z duration).

Definition ease_in_out (t : Q) : Q := t * t * (3 - 2 * t).

Record PromptPulse := {
  prompt_pulse_animation_timer : Z;
  black_block_alpha : Z;
  assets_hidden : bool
}.

Definition prompt_pulse_animation_duration : Z := 1000.

(** The first part of the branch "fading_black": the timer and the fade-in
    of the black block. *)
Definition black_block_tick (get_time : Z) (s : PromptPulse) : PromptPulse :=
  let timer := prompt_pulse_animation_timer s + get_time in
  let progress := normalized_progress timer prompt_pulse_animation_duration in
  let black_block_fade_duration := 1%Q in
  if Qle_bool progress black_block_fade_duration then
    let black_block_progress := Qmin 1 (progress / black_block_fade_duration) in
    let eased_progress := ease_in_out black_block_progress in
    let alpha := py_int (255 * eased_progress) in
    {| prompt_pulse_animation_timer := timer;
       black_block_alpha := alpha;
       assets_hidden := 255 <=? alpha |}
  else
    {| prompt_pulse_animation_timer := timer;
       black_block_alpha := 255;
       assets_hidden := true |}.

Lemma normalized_progress_le_1 timer duration :
  (normalized_progress timer duration <= 1)%Q.
Proof. unfold normalized_progress. apply Q.le_min_l. Qed.

Lemma normalized_progress_monotone timer dt duration :
  0 <= dt -> 0 < duration ->
  (normalized_progress timer duration <= normalized_progress (timer + dt) duration)%Q.
Proof.
  intros Hdt Hd. unfold normalized_progress.
  apply Q.min_le_compat_l.
  unfold Qdiv. apply Qmult_le_compat_r.
  - rewrite <- Zle_Qle. lia.
  - apply Qinv_le_0_compat. change 0%Q with (inject_Z 0). rewrite <- Zle_Qle. lia.
Qed.


(** The slides of the play-through of [demo_assets] after frame 423, one
    tick before the trainer arrives. *)
Definition near_target : Slides :=
  {| battle_grass_left_x := - (4);
     battle_grass_visible := true;
     battle_pokemonstat_x := - (4);
     battle_pokemonstat_visible := true;
     battle_water_x := 362;
     battle_water_visible := true;
     battle_lugia_x := 362;
     battle_lugia_visible := true;
     lugia_slide_in_complete := false;
     battle_trainer_x := 8;
     battle_trainer_visible := true |}.

Lemma near_target_in_frame_423 :
  exists s,
    run demo_assets (walk_up 423) (fresh demo_assets) = Some s /\
    (forall e, (position (slides s) e == position near_target e)%Q) /\
    (forall e, sliding demo_assets (slides s) e
               = sliding demo_assets near_target e) /\
    lugia_slide_in_complete (slides s) = lugia_slide_in_complete near_target.
Proof.
  eexists. split; [vm_compute; reflexivity |].
  split; [| split].
  - intros e. destruct e; vm_compute; reflexivity.
  - intros e. destruct e; vm_compute; reflexivity.
  - vm_compute. reflexivity.
Qed.



(** The fly-in of the cutscene, a slide at [lugia_fly_speed] = 2.5 per tick
    from -200 to [lugia_target_y], tests the target before it moves and
    snaps one tick later: with a target of 32 the sprite is at 30 in frame
    158, at 32.5 in frame 159, past the target and still flying, and at 32
    from frame 160 on. *)
Lemma lugia_fly_in_passes_its_target :
  exists s1 s2 s3,
    run demo_assets (walk_up 158) (fresh demo_assets) = Some s1 /\
    update demo_assets {| get_ticks := 2544; get_time := 16 |} s1 = Some s2 /\
    update demo_assets {| get_ticks := 2560; get_time := 16 |} s2 = Some s3 /\
    lugia_target_y demo_assets = 32 /\
    (lugia_y (lugia s1) == 30 # 1)%Q /\
    lugia_state (lugia s2) = Lugia_flying_in /\
    (lugia_y (lugia s2) == 65 # 2)%Q /\
    (inject_Z (lugia_target_y demo_assets) < lugia_y (lugia s2))%Q /\
    lugia_state (lugia s3) = Lugia_animating /\
    (lugia_y (lugia s3) == 32 # 1)%Q.
Proof.
  eexists. eexists. eexists.
  split; [vm_compute; reflexivity |].
  split; [vm_compute; reflexivity |].
  split; [vm_compute; reflexivity |].
  repeat split; vm_compute; reflexivity.
Qed.

(** ** Proportional speeds *)





















(** The slide from the left as the code has it, on binary64 floats. *)
Definition slide_right_binary64 (x target speed : float) : float :=
  if (x <? target)%float then
    let x := (x + speed)%float in
    if (target <=? x)%float then target else x
  else x.

(** A grass image 160 wide beside the trainer (distance 480) gets the
    speed [(160 / 480) * 8]. In exact arithmetic 60 steps of it make 160;
    in binary64 the sum of 60 steps from -160 is still below 0, so the
    grass arrives with tick 61 where the trainer arrives with tick 60:
    one tick apart, as the claim allows. *)
Lemma grass_160_wide_arrives_a_tick_later_in_binary64 :
  let speed := (160 / 480 * 8)%float in
  (Nat.iter 60 (fun x => slide_right_binary64 x 0 speed) (-160) <? 0)%float
  = true /\
  (Nat.iter 61 (fun x => slide_right_binary64 x 0 speed) (-160) =? 0)%float
  = true /\
  (Nat.iter 60 (fun x => slide_right x 0 ((160 # 480) * 8)) (-160 # 1) == 0)%Q.
Proof. cbv zeta. repeat split; vm_compute; reflexivity. Qed.

(** ** The end scene: the black background fades in

    Phase 4 of the end scene. The first tick of the phase sets the flag and
    the start values and runs the fade in the same tick. *)

Record EndScene := {
  end_scene_black_bg_active : bool;
  end_scene_black_bg_timer : Z;
  end_scene_black_bg_alpha : Z;
  end_scene_elements_fade_alpha : Z
}.

Definition end_scene_black_bg_duration : Z := 1000.

(** The values of [__init__]. *)
Definition end_scene_init : EndScene :=
  {| end_scene_black_bg_active := false;
     end_scene_black_bg_timer := 0;
     end_scene_black_bg_alpha := 0;
     end_scene_elements_fade_alpha := 255 |}.

Definition start_black_bg (s : EndScene) : EndScene :=
  if negb (end_scene_black_bg_active s) then
    {| end_scene_black_bg_active := true;
       end_scene_black_bg_timer := 0;
       end_scene_black_bg_alpha := 0;
       end_scene_elements_fade_alpha := 255 |}
  else s.

Definition black_bg_tick (get_time : Z) (s : EndScene) : EndScene :=
  if end_scene_black_bg_active s then
    let timer := end_scene_black_bg_timer s + get_time in
    let black_bg_progress :=
      Qmin 1 (inject_Z timer / inject_Z end_scene_black_bg_duration) in
    {| end_scene_black_bg_active := end_scene_black_bg_active s;
       end_scene_black_bg_timer := timer;
       end_scene_black_bg_alpha := py_int (255 * black_bg_progress);
       end_scene_elements_fade_alpha := py_int (255 * (1 - black_bg_progress)) |}
  else s.

Definition end_scene_phase_4 (get_time : Z) (s : EndScene) : EndScene :=
  black_bg_tick get_time (start_black_bg s).

Lemma py_int_floor x : (0 <= x)%Q -> py_int x = Qfloor x.
Proof.
  destruct x as [n d]. unfold Qle, py_int, Qfloor. cbn [Qnum Qden].
  intros H. apply Z.quot_div_nonneg; lia.
Qed.

Lemma Qfloor_ratio n d : 0 < d -> Qfloor (inject_Z n / inject_Z d) = n / d.
Proof.
  intros Hd. destruct d as [|p|p]; try lia.
  rewrite <- Qmake_Qdiv. reflexivity.
Qed.

Lemma black_bg_tick_alphas dt s :
  end_scene_black_bg_active s = true ->
  0 <= end_scene_black_bg_timer s + dt ->
  let timer := end_scene_black_bg_timer s + dt in
  let s' := black_bg_tick dt s in
  end_scene_black_bg_timer s' = timer /\
  end_scene_black_bg_alpha s' = (if 1000 <=? timer then 255 else 255 * timer / 1000) /\
  end_scene_elements_fade_alpha s'
  = (if 1000 <=? timer then 0 else (255000 - 255 * timer) / 1000).
Proof.
  intros Ha Ht. cbv zeta. unfold black_bg_tick. rewrite Ha.
  cbn [end_scene_black_bg_timer end_scene_black_bg_alpha
       end_scene_elements_fade_alpha].
  set (timer := end_scene_black_bg_timer s + dt) in *.
  unfold end_scene_black_bg_duration.
  split; [reflexivity |].
  assert (H0 : (0 <= inject_Z timer / inject_Z 1000)%Q).
  { apply Qle_shift_div_l; [reflexivity |].
    change (0 * inject_Z 1000)%Q with (inject_Z 0). rewrite <- Zle_Qle. exact Ht. }
  destruct (1000 <=? timer) eqn:E.
  - apply Z.leb_le in E.
    assert (H1 : (1 <= inject_Z timer / inject_Z 1000)%Q).
    { apply Qle_shift_div_l; [reflexivity |].
      change (1 * inject_Z 1000)%Q with (inject_Z 1000). rewrite <- Zle_Qle. exact E. }
    pose proof (Q.min_l _ _ H1) as Hmin.
    rewrite !py_int_floor by (rewrite Hmin; lra).
    rewrite Hmin. split; reflexivity.
  - apply Z.leb_gt in E.
    assert (H1 : (inject_Z timer / inject_Z 1000 <= 1)%Q).
    { apply Qle_shift_div_r; [reflexivity |].
      change (1 * inject_Z 1000)%Q with (inject_Z 1000). rewrite <- Zle_Qle. lia. }
    pose proof (Q.min_r _ _ H1) as Hmin.
    rewrite !py_int_floor by (rewrite Hmin; lra).
    rewrite Hmin.
    assert (E1 : (255 * (inject_Z timer / inject_Z 1000)
                  == inject_Z (255 * timer) / inject_Z 1000)%Q).
    { rewrite inject_Z_mult. field. }
    assert (E2 : (255 * (1 - inject_Z timer / inject_Z 1000)
                  == inject_Z (255000 - 255 * timer) / inject_Z 1000)%Q).
    { unfold Z.sub. rewrite inject_Z_plus, inject_Z_opp, inject_Z_mult.
      field. }
    rewrite E1, E2, !Qfloor_ratio by lia. split; reflexivity.
Qed.

(** C9, as the code has it. The two alphas are truncated separately from
    the same progress: the black background gets [int(255 * p)] and the
    battle elements get [int(255 * (1 - p))]. The alpha of the elements is
    255 minus the black alpha or one less. It is 255 minus the black alpha
    at the start and once the fade has ended, and besides that only on
    ticks where 255 * timer is a multiple of the duration 1000 (and not
    on all of those in binary64: at 800 ms the code has 204 and 50). The
    same holds of the binary64 alphas, see
    [black_fade_alphas_within_one_in_binary64]. *)
Theorem black_fade_alphas_within_one dt s :
  0 <= dt -> 0 <= end_scene_black_bg_timer s ->
  let s' := end_scene_phase_4 dt s in
  let black := end_scene_black_bg_alpha s' in
  let elements := end_scene_elements_fade_alpha s' in
  let timer := end_scene_black_bg_timer s' in
  0 <= black <= 255 /\
  black = 255 * Z.min timer 1000 / 1000 /\
  (elements = 255 - black \/ elements = 255 - black - 1) /\
  (timer = 0 -> black = 0 /\ elements = 255) /\
  (1000 <= timer -> black = 255 /\ elements = 0) /\
  (elements = 255 - black ->
   1000 <= timer \/ (255 * timer) mod 1000 = 0).
Proof.
  intros Hdt Ht. cbv zeta. unfold end_scene_phase_4.
  set (s0 := start_black_bg s).
  assert (Ha : end_scene_black_bg_active s0 = true).
  { unfold s0, start_black_bg. destruct (end_scene_black_bg_active s) eqn:E;
      cbn [negb]; [exact E | reflexivity]. }
  assert (Ht0 : 0 <= end_scene_black_bg_timer s0 + dt).
  { unfold s0, start_black_bg. destruct (end_scene_black_bg_active s);
      cbn [negb end_scene_black_bg_timer]; lia. }
  destruct (black_bg_tick_alphas dt s0 Ha Ht0) as (-> & -> & ->).
  set (timer := end_scene_black_bg_timer s0 + dt) in *.
  destruct (1000 <=? timer) eqn:E.
  - apply Z.leb_le in E. split; [lia |].
    split; [rewrite Z.min_r by lia; reflexivity |].
    split; [left; lia |]. split; [lia |]. split; [lia |].
    intros _. left. exact E.
  - apply Z.leb_gt in E.
    pose proof (Z.div_mod (255 * timer) 1000 ltac:(lia)) as D1.
    pose proof (Z.mod_pos_bound (255 * timer) 1000 ltac:(lia)) as B1.
    pose proof (Z.div_mod (255000 - 255 * timer) 1000 ltac:(lia)) as D2.
    pose proof (Z.mod_pos_bound (255000 - 255 * timer) 1000 ltac:(lia)) as B2.
    split; [lia |]. split; [rewrite Z.min_l by lia; reflexivity |].
    split; [lia |].
    split; [intros ->; split; reflexivity |].
    split; [lia |].
    intros H. right. lia.
Qed.

Lemma black_fade_alphas_at_half :
  let s := Nat.iter 3 (end_scene_phase_4 125) end_scene_init in
  let s' := end_scene_phase_4 125 s in
  end_scene_black_bg_timer s' = 500 /\
  end_scene_black_bg_alpha s' = 127 /\
  end_scene_elements_fade_alpha s' = 255 - 127 - 1.
Proof.
  cbv zeta.
  destruct (black_fade_alphas_within_one 125
              (Nat.iter 3 (end_scene_phase_4 125) end_scene_init)
              ltac:(lia) ltac:(vm_compute; discriminate)) as (_ & _ & H & _).
  split; [vm_compute; reflexivity |].
  split; [vm_compute; reflexivity |].
  destruct H as [H | H]; [| rewrite H; vm_compute; reflexivity].
  vm_compute in H. discriminate H.
Defined.

(** The two alphas of a tick of the fade as the code computes them, in
    binary64, from the timer after the tick. *)
Definition black_bg_alphas_binary64 (timer : Z) : Z * Z :=
  let black_bg_progress :=
    min_1 (float_of_int timer / float_of_int end_scene_black_bg_duration) in
  (int_of_float (255 * black_bg_progress),
   int_of_float (255 * (1 - black_bg_progress))).

Definition pair_eqb (x y : Z * Z) : bool :=
  (fst x =? fst y) && (snd x =? snd y).

(** The values of [black_bg_tick], with the one timer where binary64
    gives another alpha: at 800 milliseconds [1.0 - 0.8] is just below
    0.2 and [int] makes 50 of [255 * 0.19999999999999996], not 51. *)
Definition black_bg_alphas_expected (timer : Z) : Z * Z :=
  (255 * Z.min timer 1000 / 1000,
   if timer =? 800 then 50 else (255000 - 255 * Z.min timer 1000) / 1000).

(** For every timer of the fade and of the second after it, binary64
    gives the black alpha of the exact computation, and the alpha of the
    elements too except at 800 milliseconds, where it gives 204 and 50:
    one less than [255 - 204] although [255 * 0.8] is whole. *)
Lemma black_fade_alphas_in_binary64 timer :
  0 <= timer <= 2000 ->
  black_bg_alphas_binary64 timer = black_bg_alphas_expected timer.
Proof.
  intros Ht.
  assert (Hall : forallb (fun k => pair_eqb
                            (black_bg_alphas_binary64 (Z.of_nat k))
                            (black_bg_alphas_expected (Z.of_nat k)))
                         (seq 0 2001) = true) by (vm_compute; reflexivity).
  rewrite forallb_forall in Hall.
  specialize (Hall (Z.to_nat timer)).
  rewrite Z2Nat.id in Hall by lia.
  assert (Hin : In (Z.to_nat timer) (seq 0 2001)) by (apply in_seq; lia).
  specialize (Hall Hin). unfold pair_eqb in Hall.
  apply andb_prop in Hall as [H1 H2].
  apply Z.eqb_eq in H1, H2.
  destruct (black_bg_alphas_binary64 timer), (black_bg_alphas_expected timer).
  cbn [fst snd] in *. congruence.
Qed.

(** What [black_fade_alphas_within_one] states of the exact alphas holds
    of the binary64 alphas too, for every timer up to 2000 ms. *)
Lemma black_fade_alphas_within_one_in_binary64 timer :
  0 <= timer <= 2000 ->
  let black := fst (black_bg_alphas_binary64 timer) in
  let elements := snd (black_bg_alphas_binary64 timer) in
  0 <= black <= 255 /\
  black = 255 * Z.min timer 1000 / 1000 /\
  (elements = 255 - black \/ elements = 255 - black - 1) /\
  (timer = 0 -> black = 0 /\ elements = 255) /\
  (1000 <= timer -> black = 255 /\ elements = 0) /\
  (elements = 255 - black ->
   1000 <= timer \/ (255 * timer) mod 1000 = 0).
Proof.
  intros Ht. cbv zeta.
  rewrite (black_fade_alphas_in_binary64 timer Ht).
  unfold black_bg_alphas_expected. cbn [fst snd].
  destruct (timer =? 800) eqn:E800.
  - apply Z.eqb_eq in E800. subst timer.
    repeat split; try (right; reflexivity); try (vm_compute; congruence); lia.
  - destruct (Z.le_gt_cases 1000 timer) as [E | E].
    + rewrite Z.min_r by lia.
      change (255 * 1000 / 1000) with 255.
      change ((255000 - 255 * 1000) / 1000) with 0.
      repeat split; try lia.
    + rewrite Z.min_l by lia.
      pose proof (Z.div_mod (255 * timer) 1000 ltac:(lia)) as D1.
      pose proof (Z.mod_pos_bound (255 * timer) 1000 ltac:(lia)) as B1.
      pose proof (Z.div_mod (255000 - 255 * timer) 1000 ltac:(lia)) as D2.
      pose proof (Z.mod_pos_bound (255000 - 255 * timer) 1000 ltac:(lia)) as B2.
      split; [lia |]. split; [reflexivity |].
      split; [lia |].
      split; [intros ->; split; reflexivity |].
      split; [lia |].
      intros H. right. lia.
Qed.

Lemma black_fade_alphas_at_800_in_binary64 :
  black_bg_alphas_binary64 800 = (204, 50) /\
  black_bg_alphas_binary64 500 = (127, 127).
Proof. split; vm_compute; reflexivity. Qed.

(** C9 as stated fails. Four frames of 125 milliseconds into the fade the
    progress is 0.5: the black background has alpha [int(127.5) = 127] and
    the battle elements have [int(127.5) = 127], not [255 - 127 = 128]. *)
Lemma black_fade_alphas_not_in_lockstep :
  ~ (forall dt s,
        0 <= dt -> 0 <= end_scene_black_bg_timer s ->
        end_scene_elements_fade_alpha (end_scene_phase_4 dt s)
        = 255 - end_scene_black_bg_alpha (end_scene_phase_4 dt s)).
Proof.
  intros H.
  specialize (H 125 (Nat.iter 3 (end_scene_phase_4 125) end_scene_init)
                ltac:(lia) ltac:(vm_compute; discriminate)).
  vm_compute in H. discriminate H.
Qed.

(** * The scene manager ([scene_manager.py])

    [scenes] is the dictionary of the registered scenes. A scene is an
    object that may or may not have the methods [on_exit] and [on_enter];
    the calls the manager makes are recorded, the latest first. *)

Module SceneManager.

Record SceneObject := {
  scene_id : nat;
  has_on_exit : bool;
  has_on_enter : bool
}.

Inductive Call := Call_on_exit (id : nat) | Call_on_enter (id : nat).

Record Manager := {
  scenes : gmap string SceneObject;
  current_scene : option SceneObject;
  current_scene_name : option string;
  calls : list Call
}.

(** [__init__] *)
Definition new : Manager :=
  {| scenes := ∅;
     current_scene := None;
     current_scene_name := None;
     calls := [] |}.

Definition register_scene (name : string) (scene : SceneObject) (m : Manager)
  : Manager :=
  {| scenes := <[name := scene]> (scenes m);
     current_scene := current_scene m;
     current_scene_name := current_scene_name m;
     calls := calls m |}.

(** For a name that is not in [scenes] the method only prints a
    warning. *)
Definition change_scene (name : string) (m : Manager) : Manager :=
  match scenes m !! name with
  | Some scene =>
      let exited :=
        match current_scene m with
        | Some current =>
            if has_on_exit current
            then Call_on_exit (scene_id current) :: calls m
            else calls m
        | None => calls m
        end in
      {| scenes := scenes m;
         current_scene := Some scene;
         current_scene_name := Some name;
         calls :=
           if has_on_enter scene
           then Call_on_enter (scene_id scene) :: exited
           else exited |}
  | None => m
  end.

(** The life of a manager: registrations and changes of scene. *)
Inductive Op :=
| Register (name : string) (scene : SceneObject)
| Change (name : string).

Definition apply_op (op : Op) (m : Manager) : Manager :=
  match op with
  | Register name scene => register_scene name scene m
  | Change name => change_scene name m
  end.

Definition apply_ops (ops : list Op) (m : Manager) : Manager :=
  fold_left (fun m op => apply_op op m) ops m.

Definition never_registered (name : string) (ops : list Op) : Prop :=
  forall scene, ~ In (Register name scene) ops.

Lemma change_scene_scenes name m : scenes (change_scene name m) = scenes m.
Proof. unfold change_scene. destruct (scenes m !! name); reflexivity. Qed.

Lemma apply_ops_unregistered name ops : forall m,
  never_registered name ops ->
  scenes m !! name = None ->
  scenes (apply_ops ops m) !! name = None.
Proof.
  induction ops as [|op ops IH]; intros m Hnever Hm; cbn [apply_ops fold_left].
  - exact Hm.
  - apply IH.
    + intros scene Hin. apply (Hnever scene). right. exact Hin.
    + destruct op as [name' scene|name']; cbn [apply_op].
      * cbn [register_scene scenes]. rewrite lookup_insert_ne; [exact Hm |].
        intros ->. apply (Hnever scene). left. reflexivity.
      * rewrite change_scene_scenes. exact Hm.
Qed.

(** C10. [change_scene] with a name that was never registered changes
    nothing: the active scene and its name stay, and no [on_exit] and no
    [on_enter] is called (the record of calls is the same). *)
Theorem change_scene_unregistered_is_noop name ops :
  never_registered name ops ->
  change_scene name (apply_ops ops new) = apply_ops ops new.
Proof.
  intros Hnever. unfold change_scene.
  rewrite (apply_ops_unregistered name ops new Hnever); [reflexivity |].
  apply lookup_empty.
Qed.

(** The manager of [main.Game]: three scenes, the map entered. *)
Definition game_ops : list Op :=
  [ Register "character_selection"
      {| scene_id := 0; has_on_exit := false; has_on_enter := true |};
    Register "house_village"
      {| scene_id := 1; has_on_exit := false; has_on_enter := true |};
    Register "pokemon_selection"
      {| scene_id := 2; has_on_exit := false; has_on_enter := true |};
    Change "house_village" ].

Lemma change_scene_unregistered_in_game :
  never_registered "battle" game_ops /\
  change_scene "battle" (apply_ops game_ops new) = apply_ops game_ops new /\
  current_scene_name (change_scene "battle" (apply_ops game_ops new))
  = Some "house_village"%string.
Proof.
  assert (H : never_registered "battle" game_ops).
  { intros scene Hin. cbn in Hin.
    repeat (destruct Hin as [Hin | Hin]; [discriminate Hin |]). exact Hin. }
  split; [exact H |].
  pose proof (change_scene_unregistered_is_noop "battle" game_ops H) as E.
  split; [exact E |]. rewrite E. vm_compute. reflexivity.
Defined.

(** *** Changing to a registered scene *)

(** The [on_exit] call that leaves the active scene, if there is one and
    it has the method. *)
Definition exit_calls (m : Manager) : list Call :=
  match current_scene m with
  | Some current =>
      if has_on_exit current then [Call_on_exit (scene_id current)] else []
  | None => []
  end.

Definition enter_calls (scene : SceneObject) : list Call :=
  if has_on_enter scene then [Call_on_enter (scene_id scene)] else [].

Lemma change_scene_registered name scene m :
  scenes m !! name = Some scene ->
  change_scene name m =
  {| scenes := scenes m;
     current_scene := Some scene;
     current_scene_name := Some name;
     calls := enter_calls scene ++ exit_calls m ++ calls m |}.
Proof.
  intros H. unfold change_scene, enter_calls, exit_calls. rewrite H.
  destruct (current_scene m) as [current|];
    [destruct (has_on_exit current) |]; destruct (has_on_enter scene); reflexivity.
Qed.

(** A scene registered under a name and then changed to is the active
    one, whatever was registered under the name before; the scene that was
    active gets its [on_exit] first, then the new one its [on_enter] (the
    record of calls is latest first). *)
Theorem change_scene_after_register name scene m :
  let m' := change_scene name (register_scene name scene m) in
  current_scene m' = Some scene /\
  current_scene_name m' = Some name /\
  scenes m' !! name = Some scene /\
  calls m' = enter_calls scene ++ exit_calls m ++ calls m.
Proof.
  cbv zeta. rewrite (change_scene_registered name scene).
  - cbn [current_scene current_scene_name scenes calls register_scene].
    rewrite lookup_insert_eq. repeat split; reflexivity.
  - cbn [scenes register_scene]. apply lookup_insert_eq.
Qed.

(** The state a manager keeps through its life: the active scene and its
    name are set together, and the name is a registered one. *)
Definition consistent (m : Manager) : Prop :=
  match current_scene_name m with
  | Some name => is_Some (current_scene m) /\ is_Some (scenes m !! name)
  | None => current_scene m = None
  end.

Lemma register_scene_consistent name scene m :
  consistent m -> consistent (register_scene name scene m).
Proof.
  unfold consistent. cbn [register_scene current_scene current_scene_name scenes].
  destruct (current_scene_name m) as [current|]; [| easy].
  intros [Hscene Hname]. split; [exact Hscene |].
  destruct (decide (name = current)) as [->|Hne].
  - rewrite lookup_insert_eq. eexists. reflexivity.
  - rewrite lookup_insert_ne by exact Hne. exact Hname.
Qed.

Lemma change_scene_consistent name m :
  consistent m -> consistent (change_scene name m).
Proof.
  intros H. destruct (scenes m !! name) as [scene|] eqn:E.
  - rewrite (change_scene_registered name scene m E). unfold consistent.
    cbn [current_scene current_scene_name scenes]. rewrite E.
    split; eexists; reflexivity.
  - unfold change_scene. rewrite E. exact H.
Qed.

Lemma apply_ops_consistent ops : forall m,
  consistent m -> consistent (apply_ops ops m).
Proof.
  induction ops as [|op ops IH]; intros m H; cbn [apply_ops fold_left].
  - exact H.
  - apply IH. destruct op as [name scene|name]; cbn [apply_op].
    + apply register_scene_consistent, H.
    + apply change_scene_consistent, H.
Qed.

(** Whatever is registered and changed, in any order, the manager has
    either no active scene and no active name, or an active scene with a
    name that is registered. *)
Theorem active_scene_name_is_registered ops :
  let m := apply_ops ops new in
  match current_scene_name m with
  | Some name => is_Some (current_scene m) /\ is_Some (scenes m !! name)
  | None => current_scene m = None
  end.
Proof. apply (apply_ops_consistent ops new). reflexivity. Qed.

(** Changing to the scene that is already active enters it again: the
    scene gets [on_exit] and [on_enter] once more, and the manager is
    otherwise as it was. *)
Theorem change_scene_to_active_scene_reenters name scene m :
  scenes m !! name = Some scene ->
  let m1 := change_scene name m in
  let m2 := change_scene name m1 in
  scenes m2 = scenes m1 /\
  current_scene m2 = current_scene m1 /\
  current_scene_name m2 = current_scene_name m1 /\
  calls m2 =
    enter_calls scene
    ++ (if has_on_exit scene then [Call_on_exit (scene_id scene)] else [])
    ++ calls m1.
Proof.
  intros H. cbv zeta.
  rewrite (change_scene_registered name scene (change_scene name m)).
  - rewrite (change_scene_registered name scene m H).
    cbn [scenes current_scene current_scene_name calls]. unfold exit_calls at 1.
    cbn [current_scene]. repeat split; reflexivity.
  - rewrite change_scene_scenes. exact H.
Qed.

Lemma change_scene_to_active_scene_in_game :
  let m1 := apply_ops game_ops new in
  let m2 := change_scene "house_village" m1 in
  current_scene_name m2 = Some "house_village"%string /\
  calls m2 = [Call_on_enter 1; Call_on_enter 1].
Proof.
  pose proof (change_scene_to_active_scene_reenters "house_village"
                {| scene_id := 1; has_on_exit := false; has_on_enter := true |}
                (apply_ops [ Register "character_selection"
                               {| scene_id := 0; has_on_exit := false;
                                  has_on_enter := true |};
                             Register "house_village"
                               {| scene_id := 1; has_on_exit := false;
                                  has_on_enter := true |};
                             Register "pokemon_selection"
                               {| scene_id := 2; has_on_exit := false;
                                  has_on_enter := true |} ] new)
                ltac:(vm_compute; reflexivity)) as (_ & _ & Hname & Hcalls).
  split.
  - etransitivity; [exact Hname |]. vm_compute. reflexivity.
  - etransitivity; [exact Hcalls |]. vm_compute. reflexivity.
Defined.

End SceneManager.

(** * [utils.py]: sprite sheets and the walk animation *)

Module SpriteSheet.

(** The attributes that [__init__] sets; the surface [sheet] has the size
    [sheet_width] by [sheet_height]. *)
Record Sheet := {
  sprite_width : Z;
  sprite_height : Z;
  sheet_width : Z;
  sheet_height : Z;
  cols : Z;
  rows : Z
}.

(** What [get_sprite] returns: a part of the sheet, or the magenta
    placeholder surface. *)
Inductive Sprite :=
| Subsurface (x y width height : Z)
| Placeholder (width height : Z).

(** The sheet of the [except pygame.error] branch: one placeholder
    sprite. *)
Definition placeholder_sheet (sprite_width sprite_height : Z) : Sheet :=
  {| sprite_width := sprite_width;
     sprite_height := sprite_height;
     sheet_width := sprite_width;
     sheet_height := sprite_height;
     cols := 1;
     rows := 1 |}.

(** [__init__]. [image] is the size of the surface that
    [pygame.image.load] returns, [None] when it raises [pygame.error].
    The result is [None] when the constructor raises: an expected width
    without an expected height reaches a comparison with [None] or a
    surface size with [None], a sprite size of zero divides by zero, and
    the placeholder surface cannot have a negative size. A surface of a
    negative expected size raises [pygame.error] inside the [try], which
    leads to the placeholder. *)
Definition init (image : option (Z * Z)) (sprite_width sprite_height : Z)
    (expected_width expected_height : option Z) : option Sheet :=
  let placeholder :=
    if (sprite_width <? 0) || (sprite_height <? 0) then None
    else Some (placeholder_sheet sprite_width sprite_height) in
  let grid (size : Z * Z) :=
    let '(sheet_width, sheet_height) := size in
    if (sprite_width =? 0) || (sprite_height =? 0) then None
    else Some {| sprite_width := sprite_width;
                 sprite_height := sprite_height;
                 sheet_width := sheet_width;
                 sheet_height := sheet_height;
                 cols := sheet_width / sprite_width;
                 rows := sheet_height / sprite_height |} in
  match image with
  | None => placeholder
  | Some (sheet_width, sheet_height) =>
      match expected_width with
      | Some expected_width =>
          if negb (expected_width =? 0) && negb (sheet_width =? expected_width)
          then
            match expected_height with
            | Some expected_height =>
                if (sheet_width <? expected_width)
                   || (sheet_height <? expected_height)
                then
                  if (expected_width <? 0) || (expected_height <? 0)
                  then placeholder
                  else grid (expected_width, expected_height)
                else grid (sheet_width, sheet_height)
            | None => None
            end
          else grid (sheet_width, sheet_height)
      | None => grid (sheet_width, sheet_height)
      end
  end.

(** [get_sprite]. A rectangle that passes the test lies inside the sheet
    (for sprite sizes that are not negative), so [subsurface] does not
    raise and the [except] branch is not taken. *)
Definition get_sprite (s : Sheet) (row col : Z) : Sprite :=
  let x := col * sprite_width s in
  let y := row * sprite_height s in
  if (x + sprite_width s <=? sheet_width s)
     && (y + sprite_height s <=? sheet_height s)
     && (0 <=? x) && (0 <=? y)
  then Subsurface x y (sprite_width s) (sprite_height s)
  else Placeholder (sprite_width s) (sprite_height s).

(** The sheet of the player character:
    [SpriteSheet(character_path, 32, 42, 128, 168)]. *)
Definition character_sheet (image : option (Z * Z)) : option Sheet :=
  init image 32 42 (Some 128) (Some 168).

(** [AnimatedSprite.get_current_sprite] *)
Definition get_current_sprite (s : Sheet) (c : AnimatedSprite) : Sprite :=
  get_sprite s (sprite_direction c) (current_frame c).

(** [AnimatedSprite.__init__] *)
Definition new_sprite : AnimatedSprite :=
  {| current_frame := 0;
     sprite_direction := 0;
     animation_time := 0;
     is_moving := false |}.

(** A sequence of calls of [AnimatedSprite.update]. *)
Definition updates (calls : list (Z * bool)) (c : AnimatedSprite) : AnimatedSprite :=
  fold_left (fun c call => sprite_update (fst call) (snd call) c) calls c.

Definition in_grid (s : Sheet) (row col : Z) : bool :=
  (0 <=? row) && (row <? rows s) && (0 <=? col) && (col <? cols s).

Lemma init_sizes image sw sh ew eh s :
  init image sw sh ew eh = Some s ->
  0 < sw -> 0 < sh ->
  sprite_width s = sw /\ sprite_height s = sh /\
  cols s = sheet_width s / sw /\ rows s = sheet_height s / sh.
Proof.
  unfold init. intros H Hw Hh.
  replace ((sw <? 0) || (sh <? 0)) with false in H by lia.
  replace ((sw =? 0) || (sh =? 0)) with false in H by lia.
  assert (Hp : Some (placeholder_sheet sw sh) = Some s ->
            sprite_width s = sw /\ sprite_height s = sh /\
            cols s = sheet_width s / sw /\ rows s = sheet_height s / sh).
  { intros H0. injection H0 as <-. cbn. rewrite !Z.div_same by lia. repeat split. }
  assert (Hg : forall w h,
            Some {| sprite_width := sw; sprite_height := sh;
                    sheet_width := w; sheet_height := h;
                    cols := w / sw; rows := h / sh |} = Some s ->
            sprite_width s = sw /\ sprite_height s = sh /\
            cols s = sheet_width s / sw /\ rows s = sheet_height s / sh).
  { intros w h H0. injection H0 as <-. cbn. repeat split. }
  destruct image as [[w h]|]; [| exact (Hp H)].
  destruct ew as [ew|]; [| exact (Hg _ _ H)].
  destruct (negb (ew =? 0) && negb (w =? ew)); [| exact (Hg _ _ H)].
  destruct eh as [eh|]; [| discriminate].
  destruct ((w <? ew) || (h <? eh)); [| exact (Hg _ _ H)].
  destruct ((ew <? 0) || (eh <? 0)); [exact (Hp H) | exact (Hg _ _ H)].
Qed.

(** Along one axis: the sprite of index [i] fits into the length [total]
    and starts at a position that is not negative exactly when [i] is one
    of the [total // size] indexes of the grid. *)
Lemma fits_iff_index size total i :
  0 < size ->
  (i * size + size <=? total) && (0 <=? i * size)
  = (0 <=? i) && (i <? total / size).
Proof.
  intros Hsize.
  pose proof (Z.div_mod total size ltac:(lia)) as Hdiv.
  pose proof (Z.mod_pos_bound total size Hsize) as Hmod.
  destruct (Z.leb_spec 0 i) as [Hi|Hi].
  - replace (0 <=? i * size) with true by nia.
    rewrite andb_true_r. cbn [andb].
    destruct (Z.ltb_spec i (total / size)) as [Hlt|Hge].
    + apply Z.leb_le. nia.
    + apply Z.leb_gt. nia.
  - replace (0 <=? i * size) with false by nia.
    rewrite andb_false_r. reflexivity.
Qed.

(** [get_sprite] never raises and never reads outside the sheet: for a
    sheet built by [__init__] with sprite sizes above zero it returns the
    part of the sheet at [(col * sprite_width, row * sprite_height)] when
    [row] and [col] are indexes of the grid of [rows] by [cols] sprites,
    and the placeholder for every other pair, negative indexes
    included. *)
Theorem get_sprite_in_grid image sw sh ew eh s row col :
  init image sw sh ew eh = Some s ->
  0 < sw -> 0 < sh ->
  get_sprite s row col =
  if in_grid s row col
  then Subsurface (col * sw) (row * sh) sw sh
  else Placeholder sw sh.
Proof.
  intros H Hw Hh.
  destruct (init_sizes _ _ _ _ _ _ H Hw Hh) as (Esw & Esh & Ecols & Erows).
  unfold get_sprite, in_grid. rewrite Esw, Esh, Ecols, Erows.
  pose proof (fits_iff_index sw (sheet_width s) col Hw) as Hx.
  pose proof (fits_iff_index sh (sheet_height s) row Hh) as Hy.
  destruct (col * sw + sw <=? sheet_width s), (0 <=? col * sw),
           (row * sh + sh <=? sheet_height s), (0 <=? row * sh),
           (0 <=? row), (row <? sheet_height s / sh),
           (0 <=? col), (col <? sheet_width s / sw);
    cbn in *; try reflexivity; discriminate.
Qed.

Lemma get_sprite_in_grid_example :
  exists s,
    init (Some (128, 168)) 32 42 None None = Some s /\
    get_sprite s 3 2 = Subsurface 64 126 32 42 /\
    get_sprite s 4 0 = Placeholder 32 42 /\
    get_sprite s 0 (-1) = Placeholder 32 42.
Proof.
  eexists. split; [reflexivity |].
  match goal with
  | |- get_sprite ?s _ _ = _ /\ _ =>
      pose proof (get_sprite_in_grid (Some (128, 168)) 32 42 None None s) as H
  end.
  split; [| split].
  - exact (H 3 2 eq_refl ltac:(lia) ltac:(lia)).
  - exact (H 4 0 eq_refl ltac:(lia) ltac:(lia)).
  - exact (H 0 (-1) eq_refl ltac:(lia) ltac:(lia)).
Defined.

Lemma character_sheet_grid w h s row col :
  character_sheet (Some (w, h)) = Some s ->
  get_sprite s row col =
  if in_grid s row col
  then Subsurface (col * 32) (row * 42) 32 42
  else Placeholder 32 42.
Proof.
  intros H. apply (get_sprite_in_grid _ _ _ _ _ _ row col H); lia.
Qed.

Lemma character_sheet_dims w h s :
  character_sheet (Some (w, h)) = Some s ->
  0 <= w -> 0 <= h ->
  (w <> 128 \/ 168 <= h) <-> (4 <= cols s /\ 4 <= rows s).
Proof.
  intros H Hw Hh.
  unfold character_sheet, init in H. cbn [negb andb orb] in H.
  change (32 <? 0) with false in H. change (42 <? 0) with false in H.
  change (32 =? 0) with false in H. change (42 =? 0) with false in H.
  change (128 =? 0) with false in H. change (128 <? 0) with false in H.
  change (168 <? 0) with false in H. cbn [negb andb orb] in H.
  destruct (Z.eqb_spec w 128) as [->|Hne]; cbn [negb] in H.
  - injection H as <-. cbn [cols rows].
    pose proof (Z.div_mod h 42 ltac:(lia)).
    pose proof (Z.mod_pos_bound h 42 ltac:(lia)).
    change (128 / 32) with 4. split; [intros [?|?] | intros [_ ?]]; lia.
  - destruct (Z.ltb_spec w 128) as [Hlt|Hge]; cbn [orb] in H.
    + injection H as <-. cbn [cols rows].
      change (128 / 32) with 4. change (168 / 42) with 4. split; [lia | auto].
    + destruct (Z.ltb_spec h 168) as [Hlt|Hge']; cbn [orb] in H.
      * injection H as <-. cbn [cols rows].
        change (128 / 32) with 4. change (168 / 42) with 4. split; [lia | auto].
      * injection H as <-. cbn [cols rows].
        pose proof (Z.div_mod h 42 ltac:(lia)).
        pose proof (Z.mod_pos_bound h 42 ltac:(lia)).
        pose proof (Z.div_mod w 32 ltac:(lia)).
        pose proof (Z.mod_pos_bound w 32 ltac:(lia)).
        split; [lia | auto].
Qed.

Lemma complete_sheet_sprite w h s direction frame :
  character_sheet (Some (w, h)) = Some s ->
  4 <= cols s -> 4 <= rows s ->
  0 <= direction < 4 -> 0 <= frame < 4 ->
  get_sprite s direction frame = Subsurface (frame * 32) (direction * 42) 32 42.
Proof.
  intros H Hc Hr Hd Hf. rewrite (character_sheet_grid w h s _ _ H).
  unfold in_grid.
  replace (0 <=? direction) with true by lia.
  replace (direction <? rows s) with true by lia.
  replace (0 <=? frame) with true by lia.
  replace (frame <? cols s) with true by lia.
  reflexivity.
Qed.

(** The character sheet has a sprite for each of the four directions and
    each of the four frames exactly when the image is not 128 wide or is
    at least 168 high: an image that is too small is copied into a sheet
    of 128 by 168, except that the constructor compares only the width,
    so an image 128 wide and less than 168 high keeps its height and
    lacks the sprites of the last direction. *)
Theorem character_sheet_has_all_sprites w h s :
  character_sheet (Some (w, h)) = Some s ->
  0 <= w -> 0 <= h ->
  (forall direction frame,
      0 <= direction < 4 -> 0 <= frame < 4 ->
      get_sprite s direction frame
      = Subsurface (frame * 32) (direction * 42) 32 42)
  <-> (w <> 128 \/ 168 <= h).
Proof.
  intros H Hw Hh. rewrite (character_sheet_dims w h s H Hw Hh). split.
  - intros Hall.
    pose proof (Hall 3 3 ltac:(lia) ltac:(lia)) as H33.
    rewrite (character_sheet_grid w h s _ _ H) in H33. unfold in_grid in H33.
    destruct (Z.ltb_spec 3 (rows s)), (Z.ltb_spec 3 (cols s));
      cbn in H33; try discriminate H33. lia.
  - intros [Hc Hr] direction frame Hd Hf.
    apply (complete_sheet_sprite w h); assumption.
Qed.

Lemma character_sheet_small_and_short_image :
  (exists s,
      character_sheet (Some (64, 64)) = Some s /\
      get_sprite s 3 3 = Subsurface 96 126 32 42) /\
  (exists s,
      character_sheet (Some (128, 126)) = Some s /\
      get_sprite s 3 0 = Placeholder 32 42).
Proof.
  split.
  - eexists. split; [reflexivity |].
    apply (proj2 (character_sheet_has_all_sprites 64 64 _ eq_refl
                    ltac:(lia) ltac:(lia))); lia.
  - eexists. split; reflexivity.
Defined.

(** ** [AnimatedSprite] *)

Lemma sprite_update_frame_range direction moving c :
  0 <= current_frame c < 4 ->
  0 <= current_frame (sprite_update direction moving c) < 4.
Proof.
  intros H. unfold sprite_update. destruct moving; [| cbn; lia].
  destruct (Qle_bool 1 _); cbn [current_frame]; [| exact H].
  apply Z.mod_pos_bound. lia.
Qed.

Lemma sprite_update_direction direction moving c :
  sprite_direction (sprite_update direction moving c) = direction.
Proof.
  unfold sprite_update. destruct moving; [| reflexivity].
  destruct (Qle_bool 1 _); reflexivity.
Qed.

Lemma updates_range calls : forall c,
  0 <= current_frame c < 4 ->
  0 <= sprite_direction c < 4 ->
  Forall (fun call => 0 <= fst call < 4) calls ->
  0 <= current_frame (updates calls c) < 4 /\
  0 <= sprite_direction (updates calls c) < 4.
Proof.
  induction calls as [|call calls IH]; intros c Hf Hd Hcalls;
    cbn [updates fold_left].
  - split; assumption.
  - inversion Hcalls as [|? ? Hcall Hrest]; subst.
    apply IH; [| | exact Hrest].
    + apply sprite_update_frame_range, Hf.
    + rewrite sprite_update_direction. exact Hcall.
Qed.

(** With a character sheet that has all its sprites, the sprite drawn
    for the character is a part of the sheet after every sequence of
    updates with directions 0 to 3, never the placeholder: the frame stays
    one of the four frames and the direction is the last one given. *)
Theorem current_sprite_is_on_the_sheet w h s calls :
  character_sheet (Some (w, h)) = Some s ->
  0 <= w -> 0 <= h -> w <> 128 \/ 168 <= h ->
  Forall (fun call => 0 <= fst call < 4) calls ->
  let c := updates calls new_sprite in
  0 <= current_frame c < 4 /\
  get_current_sprite s c
  = Subsurface (current_frame c * 32) (sprite_direction c * 42) 32 42.
Proof.
  intros H Hw Hh Hok Hcalls. cbv zeta.
  destruct (updates_range calls new_sprite) as [Hf Hd];
    [cbn; lia | cbn; lia | exact Hcalls |].
  split; [exact Hf |].
  apply (character_sheet_dims w h s H Hw Hh) in Hok as [Hc Hr].
  apply (complete_sheet_sprite w h); assumption.
Qed.

Lemma current_sprite_after_eight_steps_left :
  exists s,
    character_sheet (Some (128, 168)) = Some s /\
    get_current_sprite s (updates (repeat (3, true) 8) new_sprite)
    = Subsurface 32 126 32 42.
Proof.
  eexists. split; [reflexivity |].
  refine (proj2 (current_sprite_is_on_the_sheet 128 168 _
                   (repeat (3, true) 8) eq_refl ltac:(lia) ltac:(lia)
                   ltac:(lia) _)).
  repeat constructor; cbn; lia.
Defined.

(** Walking from a standstill: [k] updates with [moving] set show the
    frame [(k // 7) % 4], so the frame changes on every seventh update and
    the four frames repeat after 28, and the time left over is 0.15 for
    each update since the last change. *)
Theorem walk_cycle direction c k :
  let standing := sprite_update direction false c in
  let walking := Nat.iter k (sprite_update direction true) standing in
  current_frame walking = (Z.of_nat k / 7) mod 4 /\
  (animation_time walking == (15 # 100) * inject_Z (Z.of_nat k mod 7))%Q.
Proof.
  cbv zeta. induction k as [|k [IHf IHt]].
  - cbn. split; reflexivity.
  - rewrite Nat.iter_succ.
    set (walking := Nat.iter k (sprite_update direction true)
                             (sprite_update direction false c)) in *.
    rewrite Nat2Z.inj_succ. unfold Z.succ.
    set (n := Z.of_nat k) in *.
    assert (Hn : 0 <= n) by (unfold n; lia).
    pose proof (Z.div_mod n 7 ltac:(lia)) as Hdiv.
    pose proof (Z.mod_pos_bound n 7 ltac:(lia)) as Hmod.
    set (q := n / 7) in *. set (r := n mod 7) in *.
    unfold sprite_update.
    destruct (Z.eq_dec r 6) as [Hr|Hr].
    + assert (Hq : (n + 1) / 7 = q + 1)
        by (symmetry; apply (Z.div_unique (n + 1) 7 (q + 1) 0); lia).
      assert (Hr' : (n + 1) mod 7 = 0)
        by (symmetry; apply (Z.mod_unique (n + 1) 7 (q + 1) 0); lia).
      rewrite Hq, Hr'. rewrite Hr in IHt. change (inject_Z 6) with 6%Q in IHt.
      assert (Hle : Qle_bool 1 (animation_time walking + (15 # 100)) = true)
        by (apply Qle_bool_iff; lra).
      rewrite Hle. cbn [current_frame animation_time]. rewrite IHf.
      split; [apply Z.add_mod_idemp_l; lia | reflexivity].
    + assert (Hq : (n + 1) / 7 = q)
        by (symmetry; apply (Z.div_unique (n + 1) 7 q (r + 1)); lia).
      assert (Hr' : (n + 1) mod 7 = r + 1)
        by (symmetry; apply (Z.mod_unique (n + 1) 7 q (r + 1)); lia).
      rewrite Hq, Hr'.
      assert (Hlt : Qle_bool 1 (animation_time walking + (15 # 100)) = false).
      { destruct (Qle_bool 1 _) eqn:E; [| reflexivity]. exfalso.
        apply Qle_bool_iff in E.
        assert (Hr6 : (inject_Z r <= 5)%Q)
          by (change 5%Q with (inject_Z 5); rewrite <- Zle_Qle; lia).
        lra. }
      rewrite Hlt. cbn [current_frame animation_time].
      split; [exact IHf |]. rewrite IHt, inject_Z_plus. change (inject_Z 1) with 1%Q.
      lra.
Qed.

End SpriteSheet.

(** * The selection scenes

    [CharacterSelectionScene] and [PokemonSelectionScene] are the same
    cursor over a list of options; the first one asks the scene manager
    for the map when a character is confirmed. *)

Module Selection.

(** An entry of [character_options] or [pokemon_options]; [kind] is the
    key [type] of a Pokemon. *)
Record Choice := {
  name : string;
  kind : option string;
  color : Z * Z * Z;
  x : Z;
  y : Z
}.

Inductive Key := K_LEFT | K_RIGHT | K_RETURN | K_SPACE | K_other.

Inductive Event := KEYDOWN (key : Key) | Other_event.

Record Scene := {
  selected : option Choice;
  cursor_pos : Z;
  confirmed : bool
}.

(** [__init__] and [on_enter] set the same three attributes. *)
Definition on_enter : Scene :=
  {| selected := None; cursor_pos := 0; confirmed := false |}.

Section Options.

Variable options : list Choice.

(** The scenes that a confirmation asks [change_scene] for. *)
Variable on_confirm : list string.

(** [options[i]] of Python: a negative index counts from the end, an
    index outside the list raises [IndexError] ([None]). *)
Definition item (i : Z) : option Choice :=
  let n := Z.of_nat (length options) in
  if (0 <=? i) && (i <? n) then nth_error options (Z.to_nat i)
  else if (- n <=? i) && (i <? 0) then nth_error options (Z.to_nat (n + i))
  else None.

(** [handle_event]: the new state and the names passed to
    [change_scene], or [None] when it raises. *)
Definition handle_event (event : Event) (s : Scene) : option (Scene * list string) :=
  match event with
  | KEYDOWN key =>
      if confirmed s then Some (s, [])
      else
        match key with
        | K_LEFT =>
            if 0 <? cursor_pos s
            then Some ({| selected := selected s;
                          cursor_pos := cursor_pos s - 1;
                          confirmed := confirmed s |}, [])
            else Some (s, [])
        | K_RIGHT =>
            if cursor_pos s <? Z.of_nat (length options) - 1
            then Some ({| selected := selected s;
                          cursor_pos := cursor_pos s + 1;
                          confirmed := confirmed s |}, [])
            else Some (s, [])
        | K_RETURN | K_SPACE =>
            match item (cursor_pos s) with
            | Some choice =>
                Some ({| selected := Some choice;
                         cursor_pos := cursor_pos s;
                         confirmed := true |}, on_confirm)
            | None => None
            end
        | K_other => Some (s, [])
        end
  | Other_event => Some (s, [])
  end.

(** The events of a stay in the scene, with the requests in the order
    they are made. *)
Fixpoint run (events : list Event) (s : Scene) : option (Scene * list string) :=
  match events with
  | [] => Some (s, [])
  | event :: events =>
      match handle_event event s with
      | Some (s, first) =>
          match run events s with
          | Some (s, rest) => Some (s, first ++ rest)
          | None => None
          end
      | None => None
      end
  end.

(** What the scene keeps: the cursor is on an option; an unconfirmed
    scene has selected nothing, a confirmed one the option under the
    cursor. *)
Definition settled (s : Scene) : Prop :=
  0 <= cursor_pos s < Z.of_nat (length options) /\
  selected s =
    if confirmed s then nth_error options (Z.to_nat (cursor_pos s)) else None.

Hypothesis some_option : options <> [].

Lemma on_enter_settled : settled on_enter.
Proof.
  split; [| reflexivity]. cbn [cursor_pos on_enter].
  destruct options; [congruence | cbn [length]; lia].
Qed.

Lemma item_in_range i :
  0 <= i < Z.of_nat (length options) ->
  item i = nth_error options (Z.to_nat i) /\ is_Some (item i).
Proof.
  intros Hi. unfold item.
  replace ((0 <=? i) && (i <? Z.of_nat (length options))) with true by lia.
  split; [reflexivity |].
  destruct (nth_error options (Z.to_nat i)) eqn:E; [eexists; reflexivity |].
  apply nth_error_None in E. lia.
Qed.

Lemma handle_event_settled event s :
  settled s ->
  exists s' requests,
    handle_event event s = Some (s', requests) /\
    settled s' /\
    requests = (if negb (confirmed s) && confirmed s' then on_confirm else []) /\
    (confirmed s = true -> s' = s).
Proof.
  intros Hs. pose proof Hs as [Hcursor _].
  assert (Hsame : exists s' requests,
            Some (s, @nil string) = Some (s', requests) /\
            settled s' /\
            requests = (if negb (confirmed s) && confirmed s' then on_confirm else []) /\
            (confirmed s = true -> s' = s)).
  { exists s, []. split; [reflexivity |]. split; [exact Hs |].
    split; [destruct (confirmed s); reflexivity | reflexivity]. }
  assert (Hmove : forall cursor,
            confirmed s = false ->
            0 <= cursor < Z.of_nat (length options) ->
            exists s' requests,
              Some ({| selected := selected s; cursor_pos := cursor;
                       confirmed := confirmed s |}, @nil string)
              = Some (s', requests) /\
              settled s' /\
              requests = (if negb (confirmed s) && confirmed s' then on_confirm else []) /\
              (confirmed s = true -> s' = s)).
  { intros cursor Hc Hrange. eexists _, []. split; [reflexivity |].
    destruct Hs as [_ Hselected]. unfold settled.
    cbn [cursor_pos selected confirmed]. rewrite Hc in *.
    split; [split; [exact Hrange | exact Hselected] |].
    split; [reflexivity | discriminate]. }
  assert (Hconfirm :
            confirmed s = false ->
            exists s' requests,
              match item (cursor_pos s) with
              | Some choice =>
                  Some ({| selected := Some choice; cursor_pos := cursor_pos s;
                           confirmed := true |}, on_confirm)
              | None => None
              end = Some (s', requests) /\
              settled s' /\
              requests = (if negb (confirmed s) && confirmed s' then on_confirm else []) /\
              (confirmed s = true -> s' = s)).
  { intros Hc. destruct (item_in_range _ Hcursor) as [Hitem [choice Hchoice]].
    rewrite Hchoice. eexists _, on_confirm. split; [reflexivity |].
    unfold settled. cbn [cursor_pos selected confirmed].
    rewrite <- Hitem, Hchoice, Hc.
    split; [split; [exact Hcursor | reflexivity] |].
    split; [reflexivity | discriminate]. }
  unfold handle_event.
  destruct event as [key|]; [| exact Hsame].
  destruct (confirmed s) eqn:Hconfirmed; [exact Hsame |].
  destruct key; try exact Hsame; try (apply Hconfirm; reflexivity).
  - destruct (Z.ltb_spec 0 (cursor_pos s)); [| exact Hsame].
    apply Hmove; [reflexivity | lia].
  - destruct (Z.ltb_spec (cursor_pos s) (Z.of_nat (length options) - 1));
      [| exact Hsame].
    apply Hmove; [reflexivity | lia].
Qed.

Lemma run_settled events : forall s,
  settled s ->
  exists s' requests,
    run events s = Some (s', requests) /\
    settled s' /\
    requests = (if negb (confirmed s) && confirmed s' then on_confirm else []) /\
    (confirmed s = true -> s' = s).
Proof.
  induction events as [|event events IH]; intros s Hs; cbn [run].
  - exists s, []. split; [reflexivity |]. split; [exact Hs |].
    split; [destruct (confirmed s); reflexivity | reflexivity].
  - destruct (handle_event_settled event s Hs) as (s1 & first & -> & Hs1 & -> & Hfrozen1).
    destruct (IH s1 Hs1) as (s2 & rest & -> & Hs2 & -> & Hfrozen2).
    eexists s2, _. split; [reflexivity |]. split; [exact Hs2 |].
    destruct (confirmed s) eqn:Hc.
    + rewrite (Hfrozen1 eq_refl) in *. rewrite Hc in *.
      rewrite (Hfrozen2 eq_refl). rewrite Hc. split; [reflexivity | reflexivity].
    + destruct (confirmed s1) eqn:Hc1.
      * rewrite (Hfrozen2 eq_refl), Hc1. cbn [negb andb].
        split; [apply app_nil_r | discriminate].
      * cbn [negb andb app]. split; [reflexivity | discriminate].
Qed.

End Options.

End Selection.

Module CharacterSelection.

Definition character_options : list Selection.Choice :=
  [ {| Selection.name := "Red"; Selection.kind := None;
       Selection.color := (255, 0, 0); Selection.x := 200; Selection.y := 200 |};
    {| Selection.name := "Blue"; Selection.kind := None;
       Selection.color := (0, 0, 255); Selection.x := 400; Selection.y := 200 |} ].

Definition handle_event :=
  Selection.handle_event character_options ["house_village"%string].

Definition run := Selection.run character_options ["house_village"%string].

Lemma some_character : character_options <> [].
Proof. discriminate. Qed.

(** The character selection never raises. After any events since
    [on_enter] the cursor is on one of the two characters; the scene is
    confirmed exactly when a character is selected, which is then the one
    under the cursor, and exactly then [change_scene("house_village")] has
    been called, once. *)
Theorem selection_changes_scene_once events :
  exists s requests,
    run events Selection.on_enter = Some (s, requests) /\
    0 <= Selection.cursor_pos s <= 1 /\
    Selection.selected s =
      (if Selection.confirmed s
       then nth_error character_options (Z.to_nat (Selection.cursor_pos s))
       else None) /\
    requests =
      (if Selection.confirmed s then ["house_village"%string] else []).
Proof.
  destruct (Selection.run_settled character_options ["house_village"%string]
              events Selection.on_enter
              (Selection.on_enter_settled character_options some_character))
    as (s & requests & Hrun & [Hcursor Hselected] & Hrequests & _).
  exists s, requests. split; [exact Hrun |].
  cbn [length character_options] in Hcursor.
  split; [lia |]. split; [exact Hselected | exact Hrequests].
Qed.

(** After the confirmation the scene ignores every event until it is
    entered again. *)
Theorem confirmed_selection_is_final events s :
  Selection.confirmed s = true ->
  run events s = Some (s, []).
Proof.
  intros Hc. induction events as [|event events IH]; [reflexivity |].
  unfold run in *. cbn [Selection.run].
  replace (Selection.handle_event character_options ["house_village"%string] event s)
    with (Some (s, @nil string)).
  - rewrite IH. reflexivity.
  - unfold Selection.handle_event. destruct event; [rewrite Hc |]; reflexivity.
Qed.

Lemma confirmed_selection_is_final_for_blue :
  exists s,
    run [Selection.KEYDOWN Selection.K_RIGHT; Selection.KEYDOWN Selection.K_SPACE]
        Selection.on_enter = Some (s, ["house_village"%string]) /\
    option_map Selection.name (Selection.selected s) = Some "Blue"%string /\
    run [Selection.KEYDOWN Selection.K_LEFT; Selection.KEYDOWN Selection.K_RETURN] s
    = Some (s, []).
Proof.
  eexists. split; [reflexivity |]. split; [reflexivity |].
  apply confirmed_selection_is_final. reflexivity.
Defined.

End CharacterSelection.

Module PokemonSelection.

Definition pokemon_options : list Selection.Choice :=
  [ {| Selection.name := "Bulbasaur"; Selection.kind := Some "Grass"%string;
       Selection.color := (100, 255, 100); Selection.x := 200; Selection.y := 300 |};
    {| Selection.name := "Charmander"; Selection.kind := Some "Fire"%string;
       Selection.color := (255, 100, 100); Selection.x := 400; Selection.y := 300 |};
    {| Selection.name := "Squirtle"; Selection.kind := Some "Water"%string;
       Selection.color := (100, 100, 255); Selection.x := 600; Selection.y := 300 |} ].

Definition handle_event := Selection.handle_event pokemon_options [].

Definition run := Selection.run pokemon_options [].

Lemma some_pokemon : pokemon_options <> [].
Proof. discriminate. Qed.

(** The Pokemon selection never raises and never changes the scene.
    After any events since [on_enter] the cursor is on one of the three
    Pokemon, and a Pokemon is selected exactly when the scene is
    confirmed: the one under the cursor. *)
Theorem selection_never_changes_scene events :
  exists s,
    run events Selection.on_enter = Some (s, []) /\
    0 <= Selection.cursor_pos s <= 2 /\
    Selection.selected s =
      (if Selection.confirmed s
       then nth_error pokemon_options (Z.to_nat (Selection.cursor_pos s))
       else None).
Proof.
  destruct (Selection.run_settled pokemon_options []
              events Selection.on_enter
              (Selection.on_enter_settled pokemon_options some_pokemon))
    as (s & requests & Hrun & [Hcursor Hselected] & Hrequests & _).
  exists s. split.
  - unfold run. rewrite Hrun, Hrequests. destruct (_ && _); reflexivity.
  - cbn [length pokemon_options] in Hcursor. split; [lia | exact Hselected].
Qed.

End PokemonSelection.

(** * What the map scene keeps in every state *)

(** The rectangle of the map that [render] draws, and cuts out with
    [subsurface] while the scene fades: left, top, width, height. *)
Definition map_rect (s : Scene) : Z * Z * Z * Z :=
  (camera_x (player s), camera_y (player s),
   Config.SCREEN_WIDTH, Config.SCREEN_HEIGHT).

(** Where [render] draws the player: the top-left corner of a sprite as
    wide as the player box. *)
Definition player_screen_position (s : Scene) : Z * Z :=
  (player_world_x (player s) - camera_x (player s),
   player_world_y (player s) - camera_y (player s)).

Definition standing_on_walkable_cell (p : Player) : Prop :=
  let '(cell_x, cell_y) := center_cell (player_world_x p) (player_world_y p) in
  walkable cell_x cell_y = true.

Lemma run_invariant (a : Assets) (P : Scene -> Prop) :
  P (fresh a) ->
  (forall event s, P s -> P (handle_event a event s)) ->
  (forall i s s', P s -> update a i s = Some s' -> P s') ->
  forall steps s, run a steps (fresh a) = Some s -> P s.
Proof.
  intros Hfresh Hevent Hupdate steps.
  generalize (fresh a), Hfresh. clear Hfresh.
  induction steps as [|st steps IH]; intros s0 H0 s Hrun; cbn [run] in Hrun.
  - injection Hrun as <-. exact H0.
  - destruct st as [event|i]; cbn [step] in Hrun.
    + apply (IH _ (Hevent event s0 H0) s Hrun).
    + destruct (update a i s0) as [s1|] eqn:E; [| discriminate].
      apply (IH _ (Hupdate i s0 s1 H0 E) s Hrun).
Qed.

Lemma move_player_walkable a dx dy p :
  character_sprite a = true ->
  standing_on_walkable_cell p ->
  standing_on_walkable_cell (fst (move_player a dx dy p)).
Proof.
  intros Hsprite Hp. unfold move_player.
  destruct (center_cell (player_world_x p) (player_world_y p)) as [ccx ccy] eqn:Ecur.
  destruct (proposed_position a p dx dy) as [nx ny].
  destruct (center_cell nx ny) as [cx cy].
  assert (Hstay : forall playing timer,
            standing_on_walkable_cell (set_collision playing timer p)).
  { intros playing timer. exact Hp. }
  destruct (walkable cx cy); [| exact Hp].
  rewrite Hsprite.
  match goal with
  | |- context [let '(_, _) := ?x in _] => destruct x as [edge playing]
  end.
  match goal with
  | |- context [let '(_, _) := center_cell ?x ?y in _] =>
      destruct (center_cell x y) as [kx ky] eqn:Ek
  end.
  destruct (walkable kx ky) eqn:Ew; cbn [fst].
  - unfold standing_on_walkable_cell.
    cbn [set_position player_world_x player_world_y]. rewrite Ek. exact Ew.
  - apply Hstay.
Qed.

Lemma update_some_sprite a i s s' :
  update a i s = Some s' -> character_sprite a = true.
Proof.
  unfold update.
  destruct (tick_player a (get_time i) (movement_locked s) (player s)) as [p bumps].
  destruct (character_sprite a); [reflexivity | discriminate].
Qed.

Lemma update_movement_walkable a locked p :
  character_sprite a = true ->
  standing_on_walkable_cell p ->
  standing_on_walkable_cell (fst (update_movement a locked p)).
Proof.
  intros Hsprite Hp. unfold update_movement.
  destruct (movement_delta locked p) as [[dx dy] direction].
  destruct (negb (dx =? 0) || negb (dy =? 0)).
  - apply move_player_walkable; [exact Hsprite | exact Hp].
  - exact Hp.
Qed.

Lemma update_walkable a i s s' :
  update a i s = Some s' ->
  standing_on_walkable_cell (player s) ->
  standing_on_walkable_cell (player s').
Proof.
  intros Hup Hs. rewrite (update_player _ _ _ _ Hup).
  pose proof (update_movement_walkable a (movement_locked s) (player s)
                (update_some_sprite _ _ _ _ Hup) Hs) as H.
  destruct (tick_player_position a (get_time i) (movement_locked s) (player s))
    as [Hx Hy].
  unfold standing_on_walkable_cell in *. rewrite Hx, Hy. exact H.
Qed.

Lemma on_enter_position a s :
  player_world_x (player (on_enter a s)) = 496 /\
  player_world_y (player (on_enter a s)) = 368.
Proof. split; reflexivity. Qed.

Lemma restart_position a s :
  player_world_x (player (restart a s)) = 496 /\
  player_world_y (player (restart a s)) = 368.
Proof. split; reflexivity. Qed.

Lemma handle_event_position a event s :
  (player_world_x (player (handle_event a event s)) = player_world_x (player s) /\
   player_world_y (player (handle_event a event s)) = player_world_y (player s))
  \/ (player_world_x (player (handle_event a event s)) = 496 /\
      player_world_y (player (handle_event a event s)) = 368).
Proof.
  unfold handle_event.
  assert (Hkeys : forall s0,
            player_world_x (player s0) = player_world_x (player s) ->
            player_world_y (player s0) = player_world_y (player s) ->
            let s1 := if movement_locked s0 then s0
                      else match event with
                           | KEYDOWN key => set_player (press key (player s0)) s0
                           | KEYUP key => set_player (release key (player s0)) s0
                           end in
            player_world_x (player s1) = player_world_x (player s) /\
            player_world_y (player s1) = player_world_y (player s)).
  { intros s0 Hx Hy. cbv zeta. destruct (movement_locked s0); [split; assumption |].
    destruct event as [[]|[]]; split; assumption. }
  destruct event as [key|key].
  - destruct key; try (left; apply Hkeys; reflexivity).
    right. apply restart_position.
  - left. apply Hkeys; reflexivity.
Qed.

Lemma start_cell_walkable p :
  player_world_x p = 496 -> player_world_y p = 368 ->
  standing_on_walkable_cell p.
Proof.
  intros Hx Hy. unfold standing_on_walkable_cell. rewrite Hx, Hy. reflexivity.
Qed.

Lemma handle_event_walkable a event s :
  standing_on_walkable_cell (player s) ->
  standing_on_walkable_cell (player (handle_event a event s)).
Proof.
  intros Hs. destruct (handle_event_position a event s) as [[Hx Hy]|[Hx Hy]].
  - unfold standing_on_walkable_cell in *. rewrite Hx, Hy. exact Hs.
  - apply start_cell_walkable; assumption.
Qed.

Lemma run_keeps_player (a : Assets) steps s :
  run a steps (fresh a) = Some s ->
  standing_on_walkable_cell (player s) /\ camera_tracks a (player s).
Proof.
  apply (run_invariant a (fun s => standing_on_walkable_cell (player s)
                                   /\ camera_tracks a (player s))).
  - split; [apply start_cell_walkable; reflexivity |].
    apply (update_camera_tracks a).
  - intros event s0 [Hw Hc]. split.
    + apply handle_event_walkable, Hw.
    + apply handle_event_tracks, Hc.
  - intros i s0 s1 [Hw Hc] Hup. split.
    + apply (update_walkable a i s0 s1 Hup Hw).
    + apply (update_tracks a i s0 s1 Hup).
Qed.

(** The cells of the walkable area lie in columns 14 to 17 and rows 4 to
    12. *)
Lemma walkable_bounds cell_x cell_y :
  walkable cell_x cell_y = true ->
  14 <= cell_x <= 17 /\ 4 <= cell_y <= 12.
Proof.
  unfold walkable, is_cell_walkable_check, walkable_rectangles, walkable_cells.
  cbn [check_rectangles check_cells in_rect is_cell].
  intros H.
  repeat match type of H with
         | context [if ?c then _ else _] =>
             lazymatch c with
             | context [if _ then _ else _] => fail
             | _ => destruct c eqn:?
             end
         end; try discriminate H; lia.
Qed.

Lemma standing_bounds p :
  standing_on_walkable_cell p ->
  432 <= player_world_x p < 560 /\ 107 <= player_world_y p < 395.
Proof.
  unfold standing_on_walkable_cell, center_cell.
  change (player_width / 2) with 16. change (player_height / 2) with 21.
  change grid_size with 32. intros H. apply walkable_bounds in H.
  pose proof (Z.div_mod (player_world_x p + 16) 32 ltac:(lia)).
  pose proof (Z.mod_pos_bound (player_world_x p + 16) 32 ltac:(lia)).
  pose proof (Z.div_mod (player_world_y p + 21) 32 ltac:(lia)).
  pose proof (Z.mod_pos_bound (player_world_y p + 21) 32 ltac:(lia)).
  lia.
Qed.

(** The player never leaves the walkable area: in every state that the
    scene reaches from its start, by any events and ticks, restarts
    included, the cell under the centre of the player is a walkable
    one. *)
Theorem player_stays_on_walkable_cells a steps s :
  run a steps (fresh a) = Some s ->
  walkable (fst (current_cell s)) (snd (current_cell s)) = true.
Proof.
  intros Hrun. destruct (run_keeps_player a steps s Hrun) as [H _].
  unfold standing_on_walkable_cell, current_cell in *.
  destruct (center_cell _ _). exact H.
Qed.

Lemma player_stays_on_walkable_cells_at_corner :
  run demo_assets to_corner (fresh demo_assets) = Some corner /\
  current_cell corner = (16, 9) /\
  walkable 16 9 = true.
Proof.
  split; [exact corner_reached |]. split; [reflexivity |].
  exact (player_stays_on_walkable_cells demo_assets to_corner corner
           corner_reached).
Defined.

(** On a map that is at least as large as the screen, the rectangle of
    the map that [render] draws lies inside the map in every state the
    scene reaches, so the [subsurface] that [render] takes of it while the
    scene fades is a valid one. *)
Theorem view_stays_inside_the_map a steps s :
  Config.SCREEN_WIDTH <= map_width a ->
  Config.SCREEN_HEIGHT <= map_height a ->
  run a steps (fresh a) = Some s ->
  let '(rect_x, rect_y, rect_width, rect_height) := map_rect s in
  0 <= rect_x /\ 0 <= rect_y /\
  rect_x + rect_width <= map_width a /\ rect_y + rect_height <= map_height a.
Proof.
  intros Hw Hh Hrun. destruct (run_keeps_player a steps s Hrun) as [_ H].
  unfold camera_tracks, camera_of, clamp in H. injection H as Hx Hy.
  unfold map_rect. rewrite Hx, Hy. lia.
Qed.

Lemma view_stays_inside_the_map_at_corner :
  Config.SCREEN_WIDTH <= map_width demo_assets /\
  Config.SCREEN_HEIGHT <= map_height demo_assets /\
  run demo_assets to_corner (fresh demo_assets) = Some corner /\
  map_rect corner = (286, 136, 480, 320) /\
  let '(rect_x, rect_y, rect_width, rect_height) := map_rect corner in
  0 <= rect_x /\ 0 <= rect_y /\
  rect_x + rect_width <= map_width demo_assets /\
  rect_y + rect_height <= map_height demo_assets.
Proof.
  assert (Hw : Config.SCREEN_WIDTH <= map_width demo_assets)
    by (vm_compute; discriminate).
  assert (Hh : Config.SCREEN_HEIGHT <= map_height demo_assets)
    by (vm_compute; discriminate).
  split; [exact Hw |]. split; [exact Hh |]. split; [exact corner_reached |].
  split; [reflexivity |].
  exact (view_stays_inside_the_map demo_assets to_corner corner Hw Hh
           corner_reached).
Defined.

(** On a map of at least 592 by 437 pixels, the size that holds the
    walkable area, the player is drawn fully inside the screen in every
    state the scene reaches. *)
Theorem player_is_drawn_inside_the_screen a steps s :
  592 <= map_width a -> 437 <= map_height a ->
  run a steps (fresh a) = Some s ->
  let '(x, y) := player_screen_position s in
  0 <= x /\ x + player_width <= Config.SCREEN_WIDTH /\
  0 <= y /\ y + player_height <= Config.SCREEN_HEIGHT.
Proof.
  intros Hw Hh Hrun. destruct (run_keeps_player a steps s Hrun) as [Hcell H].
  apply standing_bounds in Hcell.
  unfold camera_tracks, camera_of, clamp in H. injection H as Hx Hy.
  unfold player_screen_position. rewrite Hx, Hy.
  change Config.SCREEN_WIDTH with 480. change Config.SCREEN_HEIGHT with 320.
  change player_width with 32. change player_height with 42.
  change (480 / 2) with 240. change (320 / 2) with 160. lia.
Qed.

Lemma player_is_drawn_inside_the_screen_at_corner :
  592 <= map_width demo_assets /\ 437 <= map_height demo_assets /\
  run demo_assets to_corner (fresh demo_assets) = Some corner /\
  player_screen_position corner = (240, 160) /\
  let '(x, y) := player_screen_position corner in
  0 <= x /\ x + player_width <= Config.SCREEN_WIDTH /\
  0 <= y /\ y + player_height <= Config.SCREEN_HEIGHT.
Proof.
  assert (Hw : 592 <= map_width demo_assets) by (vm_compute; discriminate).
  assert (Hh : 437 <= map_height demo_assets) by (vm_compute; discriminate).
  split; [exact Hw |]. split; [exact Hh |]. split; [exact corner_reached |].
  split; [reflexivity |].
  exact (player_is_drawn_inside_the_screen demo_assets to_corner corner Hw Hh
           corner_reached).
Defined.

(** * The phases of the scene *)

(** The parts of a completed tick, in the order [update] computes
    them. *)
Lemma update_parts a i s s' :
  update a i s = Some s' ->
  exists p bumps l e d cries d' f f' sl b sl' t v b' throws,
    tick_player a (get_time i) (movement_locked s) (player s) = (p, bumps) /\
    update_lugia a p (lugia s)
      (update_exclamation a (get_ticks i) (exclamation s)) (dialog s)
    = (l, e, d, cries) /\
    update_dialog a (get_ticks i) l d (restore_map_music a (fade s)) = (d', f) /\
    update_fade a f (slides s) (battle s) = (f', sl, b) /\
    match fade_state f' with
    | Fade_faded =>
        update_battle a (slide_speeds battle_slide_speed_base a) sl
          (trainer s) (venusaur s) (update_battle_dialog_alpha a f' b)
    | _ => Some (sl, trainer s, venusaur s, update_battle_dialog_alpha a f' b, [])
    end = Some (sl', t, v, b', throws) /\
    character_sprite a = true /\
    move_used_state (battle s) = Move_none /\
    s' = {| player := p;
            character := update_character p (lugia s) (dialog s) (character s);
            lugia := l;
            exclamation := e;
            dialog := d';
            fade := f';
            slides := sl';
            trainer := t;
            venusaur := v;
            battle := update_messages b';
            played := throws ++ cries ++ bumps ++ played s |}.
Proof.
  unfold update.
  destruct (tick_player a (get_time i) (movement_locked s) (player s))
    as [p bumps] eqn:Ep.
  destruct (character_sprite a); cbn [negb]; [| discriminate].
  destruct (move_used_state (battle s)) eqn:Em; cbn [move_is_none negb];
    try discriminate.
  destruct (update_lugia a p (lugia s) _ (dialog s)) as [[[l e] d] cries] eqn:El.
  destruct (update_dialog a (get_ticks i) l d _) as [d' f] eqn:Ed.
  destruct (update_fade a f (slides s) (battle s)) as [[f' sl] b] eqn:Ef.
  match goal with
  | |- match ?x with _ => _ end = _ -> _ =>
      destruct x as [[[[[sl' t] v] b'] throws]|] eqn:E
  end; [| discriminate].
  intros H. injection H as <-.
  exists p, bumps, l, e, d, cries, d', f, f', sl, b, sl', t, v, b', throws.
  split; [reflexivity |]. split; [exact El |]. split; [exact Ed |].
  split; [exact Ef |]. split; [exact E |]. repeat split.
Qed.

Definition lugia_rank (st : LugiaState) : Z :=
  match st with
  | Lugia_hidden => 0
  | Lugia_flying_in => 1
  | Lugia_animating => 2
  | Lugia_stopped => 3
  end.

Definition fade_rank (st : FadeState) : Z :=
  match st with
  | Fade_none => 0
  | Fade_fading => 1
  | Fade_faded => 2
  end.

(** The steps of a run that are not the R key. *)
Definition is_restart (st : Step) : bool :=
  match st with
  | Ev (KEYDOWN K_r) => true
  | _ => false
  end.

Definition no_restart (steps : list Step) : Prop :=
  Forall (fun st => is_restart st = false) steps.

(** How far the scene has come, and whether the player is held. *)
Definition not_behind (s s' : Scene) : Prop :=
  lugia_rank (lugia_state (lugia s)) <= lugia_rank (lugia_state (lugia s')) /\
  fade_rank (fade_state (fade s)) <= fade_rank (fade_state (fade s')) /\
  (lugia_animation_complete (lugia s) = true ->
   lugia_animation_complete (lugia s') = true) /\
  (dialog_visible (dialog s) = true -> dialog_visible (dialog s') = true) /\
  (movement_locked s = true -> movement_locked s' = true).

Lemma update_lugia_advances a p l e d :
  match update_lugia a p l e d with
  | (l1, _, d1, _) =>
      lugia_rank (lugia_state l) <= lugia_rank (lugia_state l1) /\
      (lugia_animation_complete l = true -> lugia_animation_complete l1 = true) /\
      (dialog_visible d = true -> dialog_visible d1 = true) /\
      (lugia_animation_complete l1 = true ->
       lugia_animation_complete l = true \/ dialog_visible d1 = true)
  end.
Proof.
  unfold update_lugia. destruct (lugia_state l) eqn:El.
  - destruct (under_lugia a p).
    + destruct (start_exclamation a p e) as [e' sounds].
      cbn [set_lugia_state lugia_state lugia_animation_complete lugia_rank].
      repeat split; auto; lia.
    + rewrite El. repeat split; auto; lia.
  - unfold lugia_fly_in. destruct (Qltb (lugia_y l) _);
      cbn [set_lugia_position lugia_state lugia_animation_complete lugia_rank];
      repeat split; auto; lia.
  - unfold lugia_animate. destruct (0 <? Z.of_nat (lugia_sprites a)).
    + cbv zeta. rewrite El.
      match goal with
      | |- context [if ?c then Lugia_stopped else _] => destruct c
      end; cbn [lugia_state lugia_animation_complete lugia_rank open_dialog
                dialog_visible];
        repeat split; auto; lia.
    + rewrite El. repeat split; auto; lia.
  - unfold lugia_stay. destruct (0 <? Z.of_nat (lugia_sprites a));
      cbn [lugia_state lugia_animation_complete]; rewrite ?El;
      repeat split; auto; lia.
Qed.

Lemma update_dialog_advances a now l d f :
  match update_dialog a now l d f with
  | (d1, f1) =>
      dialog_visible d1 = dialog_visible d /\
      fade_rank (fade_state f) <= fade_rank (fade_state f1)
  end.
Proof.
  unfold update_dialog. destruct (dialog_visible d) eqn:Ed; [| split; [auto | lia]].
  cbv zeta.
  match goal with
  | |- context [match (if ?c then ?u else ?v) with pair _ _ => _ end] =>
      destruct (if c then u else v) as [[y fully] pause]
  end.
  match goal with
  | |- context [if ?c then start_fading f else f] => destruct c eqn:Ec
  end; cbn [dialog_visible]; split; auto; try lia.
  cbn [start_fading fade_state fade_rank].
  destruct pause as [start|]; [| discriminate Ec].
  apply andb_prop in Ec as [_ Hnone]. unfold fade_is_none in Hnone.
  destruct (fade_state f); try discriminate Hnone. cbn. lia.
Qed.

Lemma update_fade_advances a f sl b :
  match update_fade a f sl b with
  | (f1, _, _) => fade_rank (fade_state f) <= fade_rank (fade_state f1)
  end.
Proof.
  unfold update_fade. destruct (fade_state f) eqn:Ef; rewrite ?Ef; try lia.
  destruct (255 <=? fade_alpha f + fade_speed).
  - destruct (if 0 <? frame_count (battle_lugia a) then _ else _) as [frame time].
    cbn. lia.
  - cbn. lia.
Qed.

Lemma restore_map_music_state a f :
  fade_state (restore_map_music a f) = fade_state f.
Proof.
  unfold restore_map_music. destruct (_ && _ && _); reflexivity.
Qed.

Lemma update_not_behind a i s s' :
  update a i s = Some s' -> not_behind s s'.
Proof.
  intros H.
  destruct (update_parts a i s s' H)
    as (p & bumps & l & e & d & cries & d' & f & f' & sl & b & sl' & t & v & b'
        & throws & _ & El & Ed & Ef & _ & _ & _ & ->).
  pose proof (update_lugia_advances a p (lugia s)
                (update_exclamation a (get_ticks i) (exclamation s)) (dialog s))
    as Hl.
  rewrite El in Hl. destruct Hl as (Hrank & Hcomplete & Hvisible & Hboth).
  pose proof (update_dialog_advances a (get_ticks i) l d
                (restore_map_music a (fade s))) as Hd.
  rewrite Ed in Hd. destruct Hd as [Hsame Hfade1].
  rewrite restore_map_music_state in Hfade1.
  pose proof (update_fade_advances a f (slides s) (battle s)) as Hf.
  rewrite Ef in Hf.
  unfold not_behind, movement_locked. cbn [lugia dialog fade].
  rewrite Hsame.
  split; [exact Hrank |]. split; [lia |]. split; [exact Hcomplete |].
  split; [exact Hvisible |].
  intros Hlocked. apply orb_prop in Hlocked as [Hv|Hseq].
  - rewrite (Hvisible Hv). reflexivity.
  - apply andb_prop in Hseq as [Hshown Hrunning].
    destruct (dialog_visible d) eqn:Edv; [reflexivity |]. cbn [orb].
    destruct (lugia_animation_complete l) eqn:Ec.
    + destruct (Hboth eq_refl) as [Hc|Hc]; [| discriminate Hc].
      rewrite Hc in Hrunning. discriminate Hrunning.
    + cbn [negb]. rewrite andb_true_r. unfold lugia_is_hidden in *.
      destruct (lugia_state (lugia s)); [discriminate Hshown | | |];
        destruct (lugia_state l); cbn in Hrank; try lia; reflexivity.
Qed.

Lemma toggle_mute_phase s :
  lugia (toggle_mute s) = lugia s /\ dialog (toggle_mute s) = dialog s /\
  fade (toggle_mute s) = fade s /\ player (toggle_mute s) = player s.
Proof. repeat split. Qed.

Lemma not_behind_refl s : not_behind s s.
Proof. unfold not_behind. repeat split; auto; lia. Qed.

Lemma not_behind_trans s1 s2 s3 :
  not_behind s1 s2 -> not_behind s2 s3 -> not_behind s1 s3.
Proof.
  unfold not_behind. intros (A1 & A2 & A3 & A4 & A5) (B1 & B2 & B3 & B4 & B5).
  repeat split; auto; lia.
Qed.

Lemma handle_event_not_behind a event s :
  is_restart (Ev event) = false -> not_behind s (handle_event a event s).
Proof.
  intros Hno. unfold handle_event.
  assert (Hkeys : forall s0,
            lugia s0 = lugia s -> dialog s0 = dialog s -> fade s0 = fade s ->
            not_behind s
              (if movement_locked s0 then s0
               else match event with
                    | KEYDOWN key => set_player (press key (player s0)) s0
                    | KEYUP key => set_player (release key (player s0)) s0
                    end)).
  { intros s0 Hl Hd Hf.
    assert (Hsame : forall s1,
              lugia s1 = lugia s -> dialog s1 = dialog s -> fade s1 = fade s ->
              not_behind s s1).
    { intros s1 El Ed Ef. unfold not_behind, movement_locked.
      rewrite El, Ed, Ef. repeat split; auto; lia. }
    destruct (movement_locked s0); [apply Hsame; assumption |].
    destruct event; apply Hsame; assumption. }
  destruct event as [key|key].
  - destruct key; try (apply Hkeys; reflexivity).
    discriminate Hno.
  - apply Hkeys; reflexivity.
Qed.

Lemma run_not_behind a steps : forall s s',
  run a steps s = Some s' -> no_restart steps -> not_behind s s'.
Proof.
  induction steps as [|st steps IH]; intros s s' Hrun Hno; cbn [run] in Hrun.
  - injection Hrun as <-. apply not_behind_refl.
  - inversion Hno as [|? ? Hst Hrest]; subst.
    destruct (step a st s) as [s1|] eqn:E; [| discriminate].
    apply (not_behind_trans s s1 s'); [| apply (IH s1 s' Hrun Hrest)].
    destruct st as [event|i]; cbn [step] in E.
    + injection E as <-. apply handle_event_not_behind, Hst.
    + apply (update_not_behind a i s s1 E).
Qed.

(** Without the R key the scene only advances. Over any run of key
    events and ticks the Lugia sprite never returns to an earlier state of
    hidden, flying in, animating, stopped, the fade never returns from
    fading or faded, a dialog that is visible stays visible, and a player
    who is held (dialog visible, or cutscene running) stays held: only a
    restart gives the movement back. *)
Theorem phases_only_advance a steps s s' :
  run a steps s = Some s' ->
  no_restart steps ->
  lugia_rank (lugia_state (lugia s)) <= lugia_rank (lugia_state (lugia s')) /\
  fade_rank (fade_state (fade s)) <= fade_rank (fade_state (fade s')) /\
  (dialog_visible (dialog s) = true -> dialog_visible (dialog s') = true) /\
  (movement_locked s = true -> movement_locked s' = true).
Proof.
  intros Hrun Hno.
  destruct (run_not_behind a steps s s' Hrun Hno) as (H1 & H2 & _ & H4 & H5).
  repeat split; assumption.
Qed.

Lemma phases_only_advance_into_the_cutscene :
  exists s',
    run demo_assets (walk_up 70) (fresh demo_assets) = Some s' /\
    no_restart (walk_up 70) /\
    lugia_state (lugia s') = Lugia_flying_in /\
    movement_locked s' = true /\
    lugia_rank (lugia_state (lugia (fresh demo_assets)))
    <= lugia_rank (lugia_state (lugia s')).
Proof.
  eexists. split; [vm_compute; reflexivity |].
  assert (Hno : no_restart (walk_up 70)) by (repeat constructor).
  split; [exact Hno |]. split; [reflexivity |]. split; [reflexivity |].
  refine (proj1 (phases_only_advance demo_assets (walk_up 70)
                   (fresh demo_assets) _ _ Hno)).
  vm_compute. reflexivity.
Defined.

(** ** A Lugia sheet without sprites *)

(** [load_lugia]: the number of sprites cut from a sheet of the given
    size, 132 pixels square each, all in one row; a sheet that cannot be
    loaded gives one placeholder sprite. A sheet narrower or lower than a
    sprite gives none. *)
Definition load_lugia (sheet : option (Z * Z)) : nat :=
  match sheet with
  | Some (sheet_width, sheet_height) =>
      let sprite_size := 132 in
      let num_frames := sheet_width / sprite_size in
      if num_frames =? 0 then 0%nat
      else
        length
          (filter (fun i : Z =>
                     let x := i * sprite_size in
                     (x + sprite_size <=? sheet_width)
                     && (sprite_size <=? sheet_height))
                  (map Z.of_nat (seq 0 (Z.to_nat num_frames))))
  | None => 1%nat
  end.

(** The cutscene has not got past the animation of the Lugia sprite. *)
Definition before_the_dialog (s : Scene) : Prop :=
  lugia_state (lugia s) <> Lugia_stopped /\
  lugia_animation_complete (lugia s) = false /\
  dialog_visible (dialog s) = false /\
  fade_state (fade s) = Fade_none.

Lemma update_before_the_dialog a i s s' :
  lugia_sprites a = 0%nat ->
  update a i s = Some s' -> before_the_dialog s -> before_the_dialog s'.
Proof.
  intros Hnone H (Hstate & Hcomplete & Hdialog & Hfade).
  destruct (update_parts a i s s' H)
    as (p & bumps & l & e & d & cries & d' & f & f' & sl & b & sl' & t & v & b'
        & throws & _ & El & Ed & Ef & _ & _ & _ & ->).
  unfold before_the_dialog. cbn [lugia dialog fade].
  assert (Hl : lugia_state l <> Lugia_stopped /\
               lugia_animation_complete l = false /\ d = dialog s).
  { unfold update_lugia in El. destruct (lugia_state (lugia s)) eqn:Es.
    - destruct (under_lugia a p).
      + destruct (start_exclamation a p _) as [e1 sounds].
        injection El as <- _ <- _. cbn. repeat split; [discriminate | exact Hcomplete].
      + injection El as <- _ <- _. rewrite Es. repeat split; [discriminate | exact Hcomplete].
    - injection El as <- _ <- _. unfold lugia_fly_in.
      destruct (Qltb _ _); cbn; repeat split; try discriminate; exact Hcomplete.
    - unfold lugia_animate in El. rewrite Hnone in El. cbn in El.
      injection El as <- _ <- _. rewrite Es. repeat split; [discriminate | exact Hcomplete].
    - congruence. }
  destruct Hl as (Hl1 & Hl2 & ->).
  unfold update_dialog in Ed. rewrite Hdialog in Ed. injection Ed as <- <-.
  unfold update_fade in Ef. rewrite restore_map_music_state, Hfade in Ef.
  injection Ef as <- _ _.
  rewrite restore_map_music_state. repeat split; assumption.
Qed.

Lemma handle_event_before_the_dialog a event s :
  before_the_dialog s -> before_the_dialog (handle_event a event s).
Proof.
  intros Hs. unfold handle_event.
  assert (Hkeys : forall s0,
            before_the_dialog s0 ->
            before_the_dialog
              (if movement_locked s0 then s0
               else match event with
                    | KEYDOWN key => set_player (press key (player s0)) s0
                    | KEYUP key => set_player (release key (player s0)) s0
                    end)).
  { intros s0 H0. destruct (movement_locked s0); [exact H0 |].
    destruct event; exact H0. }
  destruct event as [key|key].
  - destruct key; try (apply Hkeys; exact Hs).
    unfold before_the_dialog. cbn. repeat split. discriminate.
  - apply Hkeys. exact Hs.
Qed.

(** When the Lugia sheet gives no sprite, the cutscene never ends: in
    every state the scene reaches, restarts included, the Lugia sprite has
    not stopped, no dialog is visible and the fade to the battle has not
    begun. *)
Theorem no_battle_without_lugia_sprites a steps s :
  lugia_sprites a = 0%nat ->
  run a steps (fresh a) = Some s ->
  lugia_state (lugia s) <> Lugia_stopped /\
  dialog_visible (dialog s) = false /\
  fade_state (fade s) = Fade_none.
Proof.
  intros Hnone Hrun.
  assert (H : before_the_dialog s).
  { apply (run_invariant a before_the_dialog) with (steps := steps).
    - unfold before_the_dialog, fresh, on_enter. cbn.
      destruct (map_music a); repeat split; discriminate.
    - intros event s0. apply handle_event_before_the_dialog.
    - intros i s0 s1 H0 Hup. apply (update_before_the_dialog a i s0 s1 Hnone Hup H0).
    - exact Hrun. }
  destruct H as (H1 & _ & H3 & H4). repeat split; assumption.
Qed.

(** The assets of the concrete runs with a Lugia sheet of 396 by 100
    pixels, lower than a sprite: [load_lugia] cuts no sprite from it. *)
Definition assets_with_low_lugia_sheet : Assets :=
  {| map_image := map_image demo_assets;
     character_sprite := character_sprite demo_assets;
     lugia_sprites := load_lugia (Some (396, 100));
     exclamation_image := exclamation_image demo_assets;
     dialog_image := dialog_image demo_assets;
     fighting_background := fighting_background demo_assets;
     map_music := map_music demo_assets;
     battle_music := battle_music demo_assets;
     sfx_collision := sfx_collision demo_assets;
     sfx_press_ab := sfx_press_ab demo_assets;
     sfx_ball_toss := sfx_ball_toss demo_assets;
     sfx_ball_poof := sfx_ball_poof demo_assets;
     sfx_cry_17 := sfx_cry_17 demo_assets;
     battle_dialog := battle_dialog demo_assets;
     fight_ui := fight_ui demo_assets;
     battle_grass := battle_grass demo_assets;
     battle_pokemonstat := battle_pokemonstat demo_assets;
     battle_water := battle_water demo_assets;
     battle_trainer_sprites := battle_trainer_sprites demo_assets;
     battle_lugia := battle_lugia demo_assets;
     battle_venu := battle_venu demo_assets;
     battle_venu_stat := battle_venu_stat demo_assets |}.

Lemma no_battle_with_a_low_lugia_sheet :
  exists s,
    lugia_sprites assets_with_low_lugia_sheet = 0%nat /\
    run assets_with_low_lugia_sheet (walk_up 600)
        (fresh assets_with_low_lugia_sheet) = Some s /\
    lugia_state (lugia s) = Lugia_animating /\
    movement_locked s = true /\
    dialog_visible (dialog s) = false /\
    fade_state (fade s) = Fade_none.
Proof.
  eexists. split; [reflexivity |]. split; [vm_compute; reflexivity |].
  split; [reflexivity |]. split; [reflexivity |].
  refine (proj2 (no_battle_without_lugia_sprites assets_with_low_lugia_sheet
                   (walk_up 600) _ eq_refl _)).
  vm_compute. reflexivity.
Defined.

(** If [load_lugia] gets a sheet, it cuts [sheet_width // 132] sprites
    when the sheet is at least 132 high and none when it is lower; a sheet
    that cannot be loaded gives the one placeholder. *)
Theorem load_lugia_count sheet_width sheet_height :
  0 <= sheet_width ->
  load_lugia (Some (sheet_width, sheet_height)) =
  if 132 <=? sheet_height then Z.to_nat (sheet_width / 132) else 0%nat.
Proof.
  intros Hw. unfold load_lugia. cbv zeta.
  pose proof (Z.div_pos sheet_width 132 Hw ltac:(lia)) as Hn.
  pose proof (Z.mul_div_le sheet_width 132 ltac:(lia)) as Hle.
  set (n := sheet_width / 132) in *.
  destruct (Z.eqb_spec n 0) as [->|Hne]; [destruct (132 <=? sheet_height); reflexivity |].
  destruct (132 <=? sheet_height) eqn:Eh.
  - rewrite List.forallb_filter_id.
    + rewrite length_map, length_seq. reflexivity.
    + apply forallb_forall. intros i Hi. apply in_map_iff in Hi as (k & <- & Hk).
      apply in_seq in Hk. rewrite andb_true_r. apply Z.leb_le. nia.
  - replace (filter _ _) with (@nil Z); [reflexivity |].
    symmetry. induction (map Z.of_nat (seq 0 (Z.to_nat n))) as [|i l IH];
      [reflexivity |].
    cbn [filter]. rewrite andb_false_r. exact IH.
Qed.

Lemma load_lugia_count_examples :
  load_lugia (Some (396, 132)) = 3%nat /\
  load_lugia (Some (400, 140)) = 3%nat /\
  load_lugia (Some (396, 100)) = 0%nat.
Proof.
  split; [| split].
  - exact (load_lugia_count 396 132 ltac:(lia)).
  - exact (load_lugia_count 400 140 ltac:(lia)).
  - exact (load_lugia_count 396 100 ltac:(lia)).
Defined.

(** * The mouse in [handle_event]: the menus of the battle

    The branches of [handle_event] for [MOUSEMOTION] and
    [MOUSEBUTTONDOWN], over the attributes they read and write. Mouse
    events reach neither the movement flags nor the positions. *)

Module BattleMenu.

Inductive Screen := Screen_battle | Screen_bag | Screen_pokemon.

Inductive Sfx := SFX_PRESS_AB | SFX_DENIED.

Inductive Label := FIGHT | BAG | POKEMON | RUN.

Inductive Move := Context_Recall | Syntax_Slash | Debug_Dash | Prompt_Pulse.

Inductive Event := MOUSEMOTION (x y : Z) | MOUSEBUTTONDOWN (x y : Z).

(** What loaded and what did not. *)
Record Assets := {
  fight_ui : option Image;
  combat_ui : option Image;
  bag_screen : bool;
  pokemon_screen : bool;
  fighting_background : bool;
  sfx_press_ab : bool;
  sfx_denied : bool
}.

Record Menu := {
  fade_state : FadeState;
  fade_alpha : Z;
  lugia_animation_complete : bool;
  dialog_fully_visible : bool;
  current_screen : Screen;
  run_text_visible : bool;
  run_text_alpha : Z;
  full_hp_text_visible : bool;
  full_hp_text_alpha : Z;
  combat_ui_visible : bool;
  fight_ui_alpha : Z;
  fight_ui_hovered_cell : option (Z * Z);
  fight_ui_selected_cell : option (Z * Z);
  combat_ui_hovered_cell : option (Z * Z);
  screen_text_hovered : bool;
  move_used_state : MoveUsedState;
  move_used_ui_slide_y : Z;
  move_used_dialog_text : string
}.

(** The values of [__init__]. *)
Definition init : Menu :=
  {| fade_state := Fade_none;
     fade_alpha := 0;
     lugia_animation_complete := false;
     dialog_fully_visible := false;
     current_screen := Screen_battle;
     run_text_visible := false;
     run_text_alpha := 0;
     full_hp_text_visible := false;
     full_hp_text_alpha := 0;
     combat_ui_visible := false;
     fight_ui_alpha := 0;
     fight_ui_hovered_cell := None;
     fight_ui_selected_cell := None;
     combat_ui_hovered_cell := None;
     screen_text_hovered := false;
     move_used_state := Move_none;
     move_used_ui_slide_y := 0;
     move_used_dialog_text := "" |}.

(** ** Field updates *)

Definition set_fade (st : FadeState) (alpha : Z) (m : Menu) : Menu :=
  {| fade_state := st;
     fade_alpha := alpha;
     lugia_animation_complete := lugia_animation_complete m;
     dialog_fully_visible := dialog_fully_visible m;
     current_screen := current_screen m;
     run_text_visible := run_text_visible m;
     run_text_alpha := run_text_alpha m;
     full_hp_text_visible := full_hp_text_visible m;
     full_hp_text_alpha := full_hp_text_alpha m;
     combat_ui_visible := combat_ui_visible m;
     fight_ui_alpha := fight_ui_alpha m;
     fight_ui_hovered_cell := fight_ui_hovered_cell m;
     fight_ui_selected_cell := fight_ui_selected_cell m;
     combat_ui_hovered_cell := combat_ui_hovered_cell m;
     screen_text_hovered := screen_text_hovered m;
     move_used_state := move_used_state m;
     move_used_ui_slide_y := move_used_ui_slide_y m;
     move_used_dialog_text := move_used_dialog_text m |}.

(** The screen, the two messages, the combat UI and the highlighted
    button. *)
Definition set_overlays (screen : Screen) (run_text : bool) (run_alpha : Z)
    (full_hp_text : bool) (full_hp_alpha : Z) (combat : bool)
    (selected : option (Z * Z)) (m : Menu) : Menu :=
  {| fade_state := fade_state m;
     fade_alpha := fade_alpha m;
     lugia_animation_complete := lugia_animation_complete m;
     dialog_fully_visible := dialog_fully_visible m;
     current_screen := screen;
     run_text_visible := run_text;
     run_text_alpha := run_alpha;
     full_hp_text_visible := full_hp_text;
     full_hp_text_alpha := full_hp_alpha;
     combat_ui_visible := combat;
     fight_ui_alpha := fight_ui_alpha m;
     fight_ui_hovered_cell := fight_ui_hovered_cell m;
     fight_ui_selected_cell := selected;
     combat_ui_hovered_cell := combat_ui_hovered_cell m;
     screen_text_hovered := screen_text_hovered m;
     move_used_state := move_used_state m;
     move_used_ui_slide_y := move_used_ui_slide_y m;
     move_used_dialog_text := move_used_dialog_text m |}.

Definition set_hover (fight : option (Z * Z)) (combat : option (Z * Z))
    (text : bool) (m : Menu) : Menu :=
  {| fade_state := fade_state m;
     fade_alpha := fade_alpha m;
     lugia_animation_complete := lugia_animation_complete m;
     dialog_fully_visible := dialog_fully_visible m;
     current_screen := current_screen m;
     run_text_visible := run_text_visible m;
     run_text_alpha := run_text_alpha m;
     full_hp_text_visible := full_hp_text_visible m;
     full_hp_text_alpha := full_hp_text_alpha m;
     combat_ui_visible := combat_ui_visible m;
     fight_ui_alpha := fight_ui_alpha m;
     fight_ui_hovered_cell := fight;
     fight_ui_selected_cell := fight_ui_selected_cell m;
     combat_ui_hovered_cell := combat;
     screen_text_hovered := text;
     move_used_state := move_used_state m;
     move_used_ui_slide_y := move_used_ui_slide_y m;
     move_used_dialog_text := move_used_dialog_text m |}.

(** The click on Prompt Pulse: the move-used sequence starts, the combat
    UI closes and the fight UI is hidden. *)
Definition use_prompt_pulse (a : Assets) (m : Menu) : Menu :=
  {| fade_state := fade_state m;
     fade_alpha := fade_alpha m;
     lugia_animation_complete := lugia_animation_complete m;
     dialog_fully_visible := dialog_fully_visible m;
     current_screen := current_screen m;
     run_text_visible := run_text_visible m;
     run_text_alpha := run_text_alpha m;
     full_hp_text_visible := full_hp_text_visible m;
     full_hp_text_alpha := full_hp_text_alpha m;
     combat_ui_visible := false;
     fight_ui_alpha := if loaded (fight_ui a) then 0 else fight_ui_alpha m;
     fight_ui_hovered_cell := fight_ui_hovered_cell m;
     fight_ui_selected_cell := fight_ui_selected_cell m;
     combat_ui_hovered_cell := combat_ui_hovered_cell m;
     screen_text_hovered := screen_text_hovered m;
     move_used_state := Move_sliding_down;
     move_used_ui_slide_y := 0;
     move_used_dialog_text := "Cursaur used Prompt Pulse!" |}.

(** ** Geometry *)

(** [lo <= x <= hi] *)
Definition between (lo x hi : Z) : bool := (lo <=? x) && (x <=? hi).

(** [max(0, min(i, n - 1))] *)
Definition clamp_index (i n : Z) : Z := Z.max 0 (Z.min i (n - 1)).

Definition fight_ui_padding : Z := 12.
Definition fight_ui_grid_cols : Z := 2.
Definition fight_ui_grid_rows : Z := 2.
Definition fight_ui_labels : list Label := [FIGHT; BAG; POKEMON; RUN].

Definition fight_ui_x (img : Image) : Z := Config.SCREEN_WIDTH - get_width img.
Definition fight_ui_y (img : Image) : Z := Config.SCREEN_HEIGHT - get_height img.

Definition fight_ui_cell_width (img : Image) : Z :=
  (get_width img - fight_ui_padding * 2) / fight_ui_grid_cols.

Definition fight_ui_cell_height (img : Image) : Z :=
  (get_height img - fight_ui_padding * 2) / fight_ui_grid_rows.

(** The button of the fight UI under the mouse: [Some None] when the
    mouse is outside the image or on its padding, [None] when the division
    by the cell size raises [ZeroDivisionError]. *)
Definition fight_ui_cell (img : Image) (mouse_x mouse_y : Z)
  : option (option (Z * Z)) :=
  if between (fight_ui_x img) mouse_x (fight_ui_x img + get_width img)
     && between (fight_ui_y img) mouse_y (fight_ui_y img + get_height img)
  then
    let relative_x := mouse_x - fight_ui_x img - fight_ui_padding in
    let relative_y := mouse_y - fight_ui_y img - fight_ui_padding in
    if (0 <=? relative_x)
       && (relative_x <? get_width img - fight_ui_padding * 2)
       && (0 <=? relative_y)
       && (relative_y <? get_height img - fight_ui_padding * 2)
    then
      if (fight_ui_cell_width img =? 0) || (fight_ui_cell_height img =? 0)
      then None
      else
        let col := relative_x / fight_ui_cell_width img in
        let row := relative_y / fight_ui_cell_height img in
        let col := clamp_index col fight_ui_grid_cols in
        let row := clamp_index row fight_ui_grid_rows in
        Some (Some (row, col))
    else Some None
  else Some None.

Definition combat_ui_padding : Z := 12.
Definition combat_ui_left_grid_total_width : Z := 320.
Definition combat_ui_left_grid_content_width : Z :=
  combat_ui_left_grid_total_width - combat_ui_padding * 2.
Definition combat_ui_left_grid_cols : Z := 2.
Definition combat_ui_left_grid_rows : Z := 2.
Definition combat_ui_left_cell_width : Z :=
  combat_ui_left_grid_content_width / combat_ui_left_grid_cols.
Definition combat_ui_move_labels : list Move :=
  [Context_Recall; Syntax_Slash; Debug_Dash; Prompt_Pulse].

Definition combat_ui_left_cell_height (img : Image) : Z :=
  (get_height img - combat_ui_padding * 2) / combat_ui_left_grid_rows.

Definition combat_ui_x : Z := 0.
Definition combat_ui_y (img : Image) : Z := Config.SCREEN_HEIGHT - get_height img.

Definition over_combat_ui (img : Image) (mouse_x mouse_y : Z) : bool :=
  between combat_ui_x mouse_x (combat_ui_x + get_width img)
  && between (combat_ui_y img) mouse_y (combat_ui_y img + get_height img).

(** The move of the left grid of the combat UI under the mouse. *)
Definition combat_ui_left_cell (img : Image) (mouse_x mouse_y : Z)
  : option (option (Z * Z)) :=
  let left_grid_x := combat_ui_x + combat_ui_padding in
  let left_grid_y := combat_ui_y img + combat_ui_padding in
  if between left_grid_x mouse_x (left_grid_x + combat_ui_left_grid_content_width)
     && between left_grid_y mouse_y
          (left_grid_y + combat_ui_left_grid_rows * combat_ui_left_cell_height img)
  then
    let relative_x := mouse_x - left_grid_x in
    let relative_y := mouse_y - left_grid_y in
    if combat_ui_left_cell_height img =? 0 then None
    else
      let col := relative_x / combat_ui_left_cell_width in
      let row := relative_y / combat_ui_left_cell_height img in
      let col := clamp_index col combat_ui_left_grid_cols in
      let row := clamp_index row combat_ui_left_grid_rows in
      Some (Some (row, col))
  else Some None.

Definition screen_text_box_width : Z := 96.
Definition screen_text_box_height : Z := 21.
Definition screen_text_box_bottom_offset : Z := 22.
Definition screen_text_box_right_offset : Z := 8.

(** The USE button of the bag and Pokemon screens. *)
Definition over_text_box (mouse_x mouse_y : Z) : bool :=
  let text_box_x :=
    Config.SCREEN_WIDTH - screen_text_box_right_offset - screen_text_box_width in
  let text_box_y :=
    Config.SCREEN_HEIGHT - screen_text_box_bottom_offset - screen_text_box_height in
  between text_box_x mouse_x (text_box_x + screen_text_box_width)
  && between text_box_y mouse_y (text_box_y + screen_text_box_height).

Definition is_faded (m : Menu) : bool :=
  match fade_state m with Fade_faded => true | _ => false end.

Definition on_battle_screen (m : Menu) : bool :=
  match current_screen m with Screen_battle => true | _ => false end.

Definition label_eqb (x y : Label) : bool :=
  match x, y with
  | FIGHT, FIGHT | BAG, BAG | POKEMON, POKEMON | RUN, RUN => true
  | _, _ => false
  end.

Definition label_at (row col : Z) : option Label :=
  nth_error fight_ui_labels (Z.to_nat (row * fight_ui_grid_cols + col)).

(** The two loops that look for a label: the inner one stops at the
    first column of a row that has it, the outer one goes on, so the last
    row that has the label gives the cell. *)
Definition find_label (label : Label) (selected : option (Z * Z))
  : option (Z * Z) :=
  fold_left
    (fun selected row =>
       match
         find (fun col =>
                 match label_at row col with
                 | Some l => label_eqb l label
                 | None => false
                 end) [0; 1]
       with
       | Some col => Some (row, col)
       | None => selected
       end)
    [0; 1] selected.

Definition play (sound_loaded : bool) (sound : Sfx) : list Sfx :=
  if sound_loaded then [sound] else [].

(** ** [MOUSEMOTION] *)

(** [None]: the handler raises. *)
Definition mouse_motion (a : Assets) (mouse_x mouse_y : Z) (m : Menu)
  : option Menu :=
  let m :=
    if is_faded m then
      set_hover (fight_ui_hovered_cell m) (combat_ui_hovered_cell m)
        (if on_battle_screen m then false else over_text_box mouse_x mouse_y) m
    else m in
  let hovered_move :=
    match combat_ui a with
    | Some img =>
        if combat_ui_visible m && is_faded m then
          if over_combat_ui img mouse_x mouse_y then
            match combat_ui_left_cell img mouse_x mouse_y with
            | Some cell => Some cell
            | None => None
            end
          else Some None
        else Some (combat_ui_hovered_cell m)
    | None => Some (combat_ui_hovered_cell m)
    end in
  match hovered_move with
  | None => None
  | Some hovered_move =>
      let m := set_hover (fight_ui_hovered_cell m) hovered_move
                         (screen_text_hovered m) m in
      match fight_ui a with
      | Some img =>
          if is_faded m && negb (combat_ui_visible m)
             && move_is_none (move_used_state m)
          then
            match fight_ui_cell img mouse_x mouse_y with
            | Some cell =>
                Some (set_hover cell (combat_ui_hovered_cell m)
                                (screen_text_hovered m) m)
            | None => None
            end
          else Some m
      | None => Some m
      end
  end.

(** ** [MOUSEBUTTONDOWN] *)

(** How far [handle_event] got: it returned, it goes on to the next
    block, or it raised. The sounds are in the order they are played. *)
Inductive Stage :=
| Returned (m : Menu) (sounds : list Sfx)
| Continue (m : Menu) (sounds : list Sfx)
| Raised.

Definition and_then (s : Stage) (next : Menu -> list Sfx -> Stage) : Stage :=
  match s with
  | Continue m sounds => next m sounds
  | _ => s
  end.

(** A click while one of the two messages is shown dismisses the message
    and nothing else. *)
Definition dismiss_message (m : Menu) : Stage :=
  if run_text_visible m then
    Returned (set_overlays (current_screen m) false (run_text_alpha m)
                (full_hp_text_visible m) (full_hp_text_alpha m)
                (combat_ui_visible m) None m) []
  else if full_hp_text_visible m then
    Returned (set_overlays (current_screen m) (run_text_visible m)
                (run_text_alpha m) false (full_hp_text_alpha m)
                (combat_ui_visible m) None m) []
  else Continue m [].

Definition is_greyed_out (move : Move) : bool :=
  match move with
  | Context_Recall | Syntax_Slash | Debug_Dash => true
  | Prompt_Pulse => false
  end.

(** The combat UI: a click on a move, or a click outside the image, which
    closes it. [combat_ui_move_labels] exists only when the fight UI
    loaded. *)
Definition click_combat_ui (a : Assets) (mouse_x mouse_y : Z)
    (m : Menu) (sounds : list Sfx) : Stage :=
  match combat_ui a with
  | Some img =>
      if combat_ui_visible m && is_faded m then
        let on_move :=
          match combat_ui_left_cell img mouse_x mouse_y with
          | None => Raised
          | Some None => Continue m sounds
          | Some (Some (row, col)) =>
              if loaded (fight_ui a) then
                let move_index := row * combat_ui_left_grid_cols + col in
                match nth_error combat_ui_move_labels (Z.to_nat move_index) with
                | Some move =>
                    let sounds :=
                      sounds ++
                      (if is_greyed_out move then play (sfx_denied a) SFX_DENIED
                       else play (sfx_press_ab a) SFX_PRESS_AB) in
                    match move with
                    | Prompt_Pulse => Returned (use_prompt_pulse a m) sounds
                    | _ => Continue m sounds
                    end
                | None => Continue m sounds
                end
              else Raised
          end in
        and_then on_move (fun m sounds =>
          if negb (over_combat_ui img mouse_x mouse_y) then
            Returned (set_overlays (current_screen m) (run_text_visible m)
                        (run_text_alpha m) (full_hp_text_visible m)
                        (full_hp_text_alpha m) false
                        (fight_ui_selected_cell m) m)
                     (sounds ++ play (sfx_press_ab a) SFX_PRESS_AB)
          else Continue m sounds)
      else Continue m sounds
  | None => Continue m sounds
  end.

(** The bag and the Pokemon screen: every click returns to the battle;
    USE in the bag shows the full-HP message. The loops over the grid of
    the fight UI read attributes that exist only when its image loaded. *)
Definition click_screen (a : Assets) (mouse_x mouse_y : Z)
    (m : Menu) (sounds : list Sfx) : Stage :=
  if is_faded m then
    let clicking_on_text_box := over_text_box mouse_x mouse_y in
    match current_screen m with
    | Screen_bag =>
        if clicking_on_text_box then
          if loaded (fight_ui a) then
            Returned (set_overlays Screen_battle (run_text_visible m)
                        (run_text_alpha m) true 255 (combat_ui_visible m)
                        (find_label BAG (fight_ui_selected_cell m)) m)
                     (sounds ++ play (sfx_denied a) SFX_DENIED)
          else Raised
        else
          Returned (set_overlays Screen_battle (run_text_visible m)
                      (run_text_alpha m) (full_hp_text_visible m)
                      (full_hp_text_alpha m) (combat_ui_visible m)
                      (fight_ui_selected_cell m) m)
                   (sounds ++ play (sfx_press_ab a) SFX_PRESS_AB)
    | Screen_pokemon =>
        Returned (set_overlays Screen_battle (run_text_visible m)
                    (run_text_alpha m) (full_hp_text_visible m)
                    (full_hp_text_alpha m) (combat_ui_visible m)
                    (fight_ui_selected_cell m) m)
                 (sounds ++
                  if clicking_on_text_box then play (sfx_press_ab a) SFX_PRESS_AB
                  else [])
    | Screen_battle => Continue m sounds
    end
  else Continue m sounds.

(** The four buttons of the fight UI. *)
Definition click_fight_ui (a : Assets) (mouse_x mouse_y : Z)
    (m : Menu) (sounds : list Sfx) : Stage :=
  match fight_ui a with
  | Some img =>
      if is_faded m && on_battle_screen m && negb (combat_ui_visible m)
         && move_is_none (move_used_state m)
      then
        match fight_ui_cell img mouse_x mouse_y with
        | None => Raised
        | Some None => Continue m sounds
        | Some (Some (row, col)) =>
            match label_at row col with
            | Some BAG =>
                Continue
                  (if bag_screen a then
                     set_overlays Screen_bag (run_text_visible m)
                       (run_text_alpha m) (full_hp_text_visible m)
                       (full_hp_text_alpha m) (combat_ui_visible m)
                       (Some (row, col)) m
                   else m)
                  (sounds ++ play (sfx_press_ab a) SFX_PRESS_AB)
            | Some POKEMON =>
                Continue
                  (if pokemon_screen a then
                     set_overlays Screen_pokemon (run_text_visible m)
                       (run_text_alpha m) (full_hp_text_visible m)
                       (full_hp_text_alpha m) (combat_ui_visible m)
                       (Some (row, col)) m
                   else m)
                  (sounds ++ play (sfx_press_ab a) SFX_PRESS_AB)
            | Some FIGHT =>
                Continue
                  (if loaded (combat_ui a) then
                     set_overlays (current_screen m) (run_text_visible m)
                       (run_text_alpha m) (full_hp_text_visible m)
                       (full_hp_text_alpha m) true
                       (fight_ui_selected_cell m) m
                   else m)
                  (sounds ++ play (sfx_press_ab a) SFX_PRESS_AB)
            | Some RUN =>
                Continue
                  (set_overlays (current_screen m) true 255
                     (full_hp_text_visible m) (full_hp_text_alpha m)
                     (combat_ui_visible m) (Some (row, col)) m)
                  (sounds ++ play (sfx_denied a) SFX_DENIED)
            | None => Continue m sounds
            end
        end
      else Continue m sounds
  | None => Continue m sounds
  end.

(** The second block for [MOUSEBUTTONDOWN]: a click on the dialog of the
    cutscene starts the fade to the battle. *)
Definition click_dialog (a : Assets) (m : Menu) (sounds : list Sfx) : Stage :=
  if lugia_animation_complete m && dialog_fully_visible m
     && fighting_background a && negb (is_faded m)
  then Continue (set_fade Fade_fading 0 m) sounds
  else Continue m sounds.

Definition mouse_button_down (a : Assets) (mouse_x mouse_y : Z) (m : Menu)
  : Stage :=
  and_then (dismiss_message m) (fun m sounds =>
  and_then (click_combat_ui a mouse_x mouse_y m sounds) (fun m sounds =>
  and_then (click_screen a mouse_x mouse_y m sounds) (fun m sounds =>
  and_then (click_fight_ui a mouse_x mouse_y m sounds) (fun m sounds =>
  click_dialog a m sounds)))).

(** [handle_event] for the two mouse events: the new state and the sounds
    played, [None] when it raises. *)
Definition handle_event (a : Assets) (event : Event) (m : Menu)
  : option (Menu * list Sfx) :=
  match event with
  | MOUSEMOTION x y =>
      match mouse_motion a x y m with
      | Some m => Some (m, [])
      | None => None
      end
  | MOUSEBUTTONDOWN x y =>
      match mouse_button_down a x y m with
      | Returned m sounds | Continue m sounds => Some (m, sounds)
      | Raised => None
      end
  end.

(** ** Properties *)

(** How many of the four overlays are open: the two messages, the combat
    UI, and a screen other than the battle. *)
Definition open_overlays (m : Menu) : Z :=
  (if run_text_visible m then 1 else 0)
  + (if full_hp_text_visible m then 1 else 0)
  + (if combat_ui_visible m then 1 else 0)
  + (if on_battle_screen m then 0 else 1).

Definition stage_ok (R C : Menu -> Prop) (s : Stage) : Prop :=
  match s with
  | Returned m _ => R m
  | Continue m _ => C m
  | Raised => True
  end.

Lemma and_then_ok (R C C' : Menu -> Prop) s next :
  stage_ok R C s ->
  (forall m sounds, C m -> stage_ok R C' (next m sounds)) ->
  stage_ok R C' (and_then s next).
Proof.
  intros Hs Hnext. destruct s as [m sounds|m sounds|]; cbn [and_then].
  - exact Hs.
  - apply Hnext. exact Hs.
  - exact I.
Qed.

Ltac split_cases :=
  repeat match goal with
         | |- context [if ?c then _ else _] => destruct c eqn:?
         | |- context [match ?x with _ => _ end] => destruct x eqn:?
         | H : context [if ?c then _ else _] |- _ => destruct c eqn:?
         end.

Ltac solve_overlays :=
  cbn in *; split_cases; cbn in *; split_cases; cbn in *;
  try exact I; try discriminate; try lia; try congruence;
  try (repeat split; try discriminate; try reflexivity; lia).

Definition few_overlays (m : Menu) : Prop := open_overlays m <= 1.

(** No message is shown: the clicks that get past [dismiss_message]. *)
Definition no_message (m : Menu) : Prop :=
  open_overlays m <= 1 /\
  run_text_visible m = false /\ full_hp_text_visible m = false.

Lemma dismiss_message_overlays m :
  few_overlays m -> stage_ok few_overlays no_message (dismiss_message m).
Proof.
  unfold dismiss_message, few_overlays, no_message, open_overlays,
    on_battle_screen.
  destruct m. intros H. solve_overlays.
Qed.

Lemma click_combat_ui_overlays a x y m sounds :
  no_message m ->
  stage_ok few_overlays no_message (click_combat_ui a x y m sounds).
Proof.
  intros H. unfold click_combat_ui.
  destruct (combat_ui a) as [img|]; [| exact H].
  destruct (combat_ui_visible m && is_faded m); [| exact H].
  apply (and_then_ok few_overlays no_message).
  - destruct (combat_ui_left_cell img x y) as [[[row col]|]|]; cbn;
      try exact H; try exact I.
    destruct (loaded (fight_ui a)); [| exact I].
    destruct (nth_error combat_ui_move_labels _) as [[]|]; cbn; try exact H.
    unfold few_overlays, no_message, open_overlays, on_battle_screen in *.
    destruct m, H as (H & ? & ?). solve_overlays.
  - intros m0 sounds0 H0. destruct (negb (over_combat_ui img x y)); cbn;
      [| exact H0].
    unfold few_overlays, no_message, open_overlays, on_battle_screen in *.
    destruct m0, H0 as (H0 & ? & ?). solve_overlays.
Qed.

Lemma click_screen_overlays a x y m sounds :
  no_message m ->
  stage_ok few_overlays no_message (click_screen a x y m sounds).
Proof.
  intros H. unfold click_screen.
  destruct (is_faded m); [| exact H].
  unfold few_overlays, no_message, open_overlays, on_battle_screen in *.
  destruct m, H as (H & ? & ?). solve_overlays.
Qed.

Lemma click_fight_ui_overlays a x y m sounds :
  no_message m ->
  stage_ok few_overlays few_overlays (click_fight_ui a x y m sounds).
Proof.
  intros H. unfold click_fight_ui.
  destruct (fight_ui a) as [img|]; [| exact (proj1 H)].
  destruct (is_faded m && on_battle_screen m && negb (combat_ui_visible m)
            && move_is_none (move_used_state m)) eqn:E; [| exact (proj1 H)].
  destruct (fight_ui_cell img x y) as [[[row col]|]|]; cbn;
    try exact (proj1 H); try exact I.
  apply andb_prop in E as [E _]. apply andb_prop in E as [E Ecombat].
  apply andb_prop in E as [_ Escreen].
  unfold few_overlays, no_message, open_overlays, on_battle_screen in *.
  destruct m, H as (H & ? & ?).
  destruct (label_at row col) as [[]|]; solve_overlays.
Qed.

Lemma click_dialog_overlays a m sounds :
  few_overlays m ->
  stage_ok few_overlays few_overlays (click_dialog a m sounds).
Proof.
  intros H. unfold click_dialog. destruct (_ && _ && _ && _); exact H.
Qed.

Lemma mouse_motion_overlays a x y m m' :
  mouse_motion a x y m = Some m' -> open_overlays m' = open_overlays m.
Proof.
  unfold mouse_motion. intros H.
  repeat match type of H with
         | context [if ?c then _ else _] => destruct c
         | context [match ?x with _ => _ end] => destruct x
         end; try discriminate H; injection H as <-; reflexivity.
Qed.

Lemma mouse_button_down_overlays a x y m :
  few_overlays m ->
  stage_ok few_overlays few_overlays (mouse_button_down a x y m).
Proof.
  intros Hm. unfold mouse_button_down.
  apply (and_then_ok few_overlays no_message);
    [apply dismiss_message_overlays, Hm |].
  intros m1 s1 H1.
  apply (and_then_ok few_overlays no_message);
    [apply click_combat_ui_overlays, H1 |].
  intros m2 s2 H2.
  apply (and_then_ok few_overlays no_message);
    [apply click_screen_overlays, H2 |].
  intros m3 s3 H3.
  apply (and_then_ok few_overlays few_overlays);
    [apply click_fight_ui_overlays, H3 |].
  intros m4 s4 H4. apply click_dialog_overlays, H4.
Qed.

(** The two messages, the combat UI and the bag or Pokemon screen
    exclude each other: when at most one of them is open, it is so after
    every mouse event. *)
Theorem overlays_exclude_each_other a event m m' sounds :
  handle_event a event m = Some (m', sounds) ->
  open_overlays m <= 1 ->
  open_overlays m' <= 1.
Proof.
  intros H Hm. destruct event as [x y|x y]; cbn [handle_event] in H.
  - destruct (mouse_motion a x y m) as [m1|] eqn:E; [| discriminate].
    injection H as <- _. rewrite (mouse_motion_overlays a x y m m1 E). exact Hm.
  - pose proof (mouse_button_down_overlays a x y m Hm) as Hok.
    destruct (mouse_button_down a x y m) as [m1 s1|m1 s1|];
      [| | discriminate]; injection H as <- _; exact Hok.
Qed.

(** A battle in which the menus are live: the fade is over. *)
Definition in_battle : Menu :=
  {| fade_state := Fade_faded;
     fade_alpha := 255;
     lugia_animation_complete := true;
     dialog_fully_visible := true;
     current_screen := Screen_battle;
     run_text_visible := false;
     run_text_alpha := 0;
     full_hp_text_visible := false;
     full_hp_text_alpha := 0;
     combat_ui_visible := false;
     fight_ui_alpha := 255;
     fight_ui_hovered_cell := None;
     fight_ui_selected_cell := None;
     combat_ui_hovered_cell := None;
     screen_text_hovered := false;
     move_used_state := Move_none;
     move_used_ui_slide_y := 0;
     move_used_dialog_text := "" |}.

(** Every image and sound loaded: a fight UI of 240 by 96 in the bottom
    right corner, a combat UI of 480 by 96 along the bottom. *)
Definition demo : Assets :=
  {| fight_ui := Some {| get_width := 240; get_height := 96 |};
     combat_ui := Some {| get_width := 480; get_height := 96 |};
     bag_screen := true;
     pokemon_screen := true;
     fighting_background := true;
     sfx_press_ab := true;
     sfx_denied := true |}.

Lemma overlays_after_a_click_on_run :
  exists m',
    handle_event demo (MOUSEBUTTONDOWN 400 290) in_battle
    = Some (m', [SFX_DENIED]) /\
    run_text_visible m' = true /\
    fight_ui_selected_cell m' = Some (1, 1) /\
    open_overlays in_battle <= 1 /\
    open_overlays m' <= 1.
Proof.
  eexists. split; [reflexivity |]. split; [reflexivity |].
  split; [reflexivity |].
  assert (H : open_overlays in_battle <= 1) by (vm_compute; discriminate).
  split; [exact H |].
  exact (overlays_exclude_each_other demo (MOUSEBUTTONDOWN 400 290) in_battle
           _ _ eq_refl H).
Defined.

(** *** Only Prompt Pulse starts the attack *)

Lemma clamp_index_range i : 0 <= clamp_index i 2 <= 1.
Proof. unfold clamp_index. lia. Qed.

Lemma combat_ui_left_cell_range img x y row col :
  combat_ui_left_cell img x y = Some (Some (row, col)) ->
  0 <= row <= 1 /\ 0 <= col <= 1.
Proof.
  unfold combat_ui_left_cell. cbv zeta.
  destruct (_ && _); [| discriminate].
  destruct (_ =? 0); [discriminate |].
  intros H. injection H as <- <-.
  split; apply clamp_index_range.
Qed.

Lemma fight_ui_cell_range img x y row col :
  fight_ui_cell img x y = Some (Some (row, col)) ->
  0 <= row <= 1 /\ 0 <= col <= 1.
Proof.
  unfold fight_ui_cell. cbv zeta.
  destruct (_ && _); [| discriminate].
  destruct (_ && _ && _ && _); [| discriminate].
  destruct (_ || _); [discriminate |].
  intros H. injection H as <- <-.
  split; apply clamp_index_range.
Qed.

Definition keeps_move (st : MoveUsedState) (m : Menu) : Prop :=
  move_used_state m = st.

Lemma click_screen_keeps_move st a x y m sounds :
  keeps_move st m ->
  stage_ok (keeps_move st) (keeps_move st) (click_screen a x y m sounds).
Proof.
  intros H. unfold click_screen.
  destruct (is_faded m); [| exact H].
  destruct (current_screen m); [exact H | |].
  - destruct (over_text_box x y); [| exact H].
    destruct (loaded (fight_ui a)); [exact H | exact I].
  - exact H.
Qed.

Lemma click_fight_ui_keeps_move st a x y m sounds :
  keeps_move st m ->
  stage_ok (keeps_move st) (keeps_move st) (click_fight_ui a x y m sounds).
Proof.
  intros H. unfold click_fight_ui.
  destruct (fight_ui a) as [img|]; [| exact H].
  destruct (_ && _ && _ && _); [| exact H].
  destruct (fight_ui_cell img x y) as [[[row col]|]|]; [| exact H | exact I].
  destruct (label_at row col) as [[]|]; cbn [stage_ok]; try exact H.
  - destruct (loaded (combat_ui a)); exact H.
  - destruct (bag_screen a); exact H.
  - destruct (pokemon_screen a); exact H.
Qed.

Lemma click_dialog_keeps_move st a m sounds :
  keeps_move st m ->
  stage_ok (keeps_move st) (keeps_move st) (click_dialog a m sounds).
Proof.
  intros H. unfold click_dialog. destruct (_ && _ && _ && _); exact H.
Qed.

Lemma mouse_motion_keeps_move a x y m m' :
  mouse_motion a x y m = Some m' -> move_used_state m' = move_used_state m.
Proof.
  unfold mouse_motion. intros H.
  repeat match type of H with
         | context [if ?c then _ else _] => destruct c
         | context [match ?x with _ => _ end] => destruct x
         end; try discriminate H; injection H as <-; reflexivity.
Qed.

(** The attack begins with the click described here. *)
Definition prompt_pulse_click (a : Assets) (x y : Z) (m m' : Menu) : Prop :=
  exists img,
    combat_ui a = Some img /\
    combat_ui_visible m = true /\
    fade_state m = Fade_faded /\
    combat_ui_left_cell img x y = Some (Some (1, 1)) /\
    m' = use_prompt_pulse a m.

Lemma click_combat_ui_move a x y m sounds :
  keeps_move Move_none m ->
  stage_ok (fun m' => keeps_move Move_none m' \/ prompt_pulse_click a x y m m')
           (keeps_move Move_none)
           (click_combat_ui a x y m sounds).
Proof.
  intros H. unfold click_combat_ui.
  destruct (combat_ui a) as [img|] eqn:Eimg; [| exact H].
  destruct (combat_ui_visible m && is_faded m) eqn:Eshown; [| exact H].
  apply andb_prop in Eshown as [Evisible Efaded].
  assert (Hfaded : fade_state m = Fade_faded).
  { unfold is_faded in Efaded. destruct (fade_state m); try discriminate.
    reflexivity. }
  assert (Hclose : forall m0 sounds0,
            keeps_move Move_none m0 ->
            stage_ok (fun m' => keeps_move Move_none m'
                                \/ prompt_pulse_click a x y m m')
                     (keeps_move Move_none)
                     (if negb (over_combat_ui img x y)
                      then Returned
                             (set_overlays (current_screen m0) (run_text_visible m0)
                                (run_text_alpha m0) (full_hp_text_visible m0)
                                (full_hp_text_alpha m0) false
                                (fight_ui_selected_cell m0) m0)
                             (sounds0 ++ play (sfx_press_ab a) SFX_PRESS_AB)
                      else Continue m0 sounds0)).
  { intros m0 sounds0 H0. destruct (negb _); cbn; [left |]; exact H0. }
  destruct (combat_ui_left_cell img x y) as [[[row col]|]|] eqn:Ecell;
    cbn [and_then]; [| apply Hclose, H | exact I].
  destruct (loaded (fight_ui a)); [| exact I].
  destruct (combat_ui_left_cell_range img x y row col Ecell) as [Hrow Hcol].
  destruct (nth_error combat_ui_move_labels _) as [[]|] eqn:Emove;
    cbn [and_then]; try (apply Hclose, H).
  cbn [stage_ok]. right. exists img.
  assert (row = 1 /\ col = 1) as [-> ->].
  { assert (Hcases : (row = 0 \/ row = 1) /\ (col = 0 \/ col = 1)) by lia.
    destruct Hcases as [[-> | ->] [-> | ->]]; cbn in Emove;
      try discriminate Emove. split; reflexivity. }
  repeat split; assumption.
Qed.

(** The move-used sequence starts in one way only: by a click on the
    bottom right move of the combat UI, Prompt Pulse, while the combat UI
    is open in the battle. No other mouse event, and none of the three
    greyed-out moves, takes [move_used_state] away from ["none"]. *)
Theorem attack_starts_only_from_prompt_pulse a event m m' sounds :
  handle_event a event m = Some (m', sounds) ->
  move_used_state m = Move_none ->
  move_used_state m' <> Move_none ->
  exists x y img,
    event = MOUSEBUTTONDOWN x y /\
    combat_ui a = Some img /\
    combat_ui_visible m = true /\
    fade_state m = Fade_faded /\
    combat_ui_left_cell img x y = Some (Some (1, 1)) /\
    m' = use_prompt_pulse a m.
Proof.
  intros H Hm Hm'. destruct event as [x y|x y]; cbn [handle_event] in H.
  - exfalso. apply Hm'.
    destruct (mouse_motion a x y m) as [m1|] eqn:E; [| discriminate].
    injection H as <- _. rewrite (mouse_motion_keeps_move a x y m m1 E).
    exact Hm.
  - assert (Hok : stage_ok
                    (fun m' => keeps_move Move_none m'
                               \/ prompt_pulse_click a x y m m')
                    (keeps_move Move_none)
                    (mouse_button_down a x y m)).
    { unfold mouse_button_down, dismiss_message.
      destruct (run_text_visible m); [left; exact Hm |].
      destruct (full_hp_text_visible m); [left; exact Hm |].
      cbn [and_then].
      apply (and_then_ok _ (keeps_move Move_none));
        [apply click_combat_ui_move, Hm |].
      intros m1 s1 H1.
      assert (Hleft : forall s,
                stage_ok (keeps_move Move_none) (keeps_move Move_none) s ->
                stage_ok (fun m' => keeps_move Move_none m'
                                    \/ prompt_pulse_click a x y m m')
                         (keeps_move Move_none) s).
      { intros [m0 s0|m0 s0|] Hs; cbn in *; [left | |]; exact Hs. }
      apply Hleft.
      apply (and_then_ok _ (keeps_move Move_none));
        [apply click_screen_keeps_move, H1 |].
      intros m2 s2 H2.
      apply (and_then_ok _ (keeps_move Move_none));
        [apply click_fight_ui_keeps_move, H2 |].
      intros m3 s3 H3. apply click_dialog_keeps_move, H3. }
    destruct (mouse_button_down a x y m) as [m1 s1|m1 s1|];
      [| | discriminate]; injection H as <- _; cbn [stage_ok] in Hok.
    + destruct Hok as [Hkeep | (img & H1 & H2 & H3 & H4 & H5)];
        [exfalso; apply Hm', Hkeep |].
      exists x, y, img. repeat split; assumption.
    + exfalso. apply Hm', Hok.
Qed.

(** The battle with the combat UI open, after a click on FIGHT. *)
Definition choosing_a_move : Menu :=
  set_overlays Screen_battle false 0 false 0 true None in_battle.

Lemma attack_starts_from_prompt_pulse :
  exists m',
    handle_event demo (MOUSEBUTTONDOWN 200 290) choosing_a_move
    = Some (m', [SFX_PRESS_AB]) /\
    move_used_state m' = Move_sliding_down /\
    combat_ui_visible m' = false /\
    (exists img,
        combat_ui demo = Some img /\
        combat_ui_left_cell img 200 290 = Some (Some (1, 1))) /\
    handle_event demo (MOUSEBUTTONDOWN 100 250) choosing_a_move
    = Some (choosing_a_move, [SFX_DENIED]).
Proof.
  eexists. split; [reflexivity |]. split; [reflexivity |].
  split; [reflexivity |]. split; [| reflexivity].
  destruct (attack_starts_only_from_prompt_pulse demo (MOUSEBUTTONDOWN 200 290)
              choosing_a_move _ _ eq_refl eq_refl ltac:(discriminate))
    as (x & y & img & Hevent & Himg & _ & _ & Hcell & _).
  injection Hevent as <- <-. exists img. split; assumption.
Defined.

(** *** The mouse handler does not raise *)

(** Images of at least 26 pixels a side: the cells of the grids are at
    least one pixel wide and high. *)
Definition large_enough (img : Image) : Prop :=
  26 <= get_width img /\ 26 <= get_height img.

Definition menus_loaded (a : Assets) : Prop :=
  match fight_ui a with
  | Some img => large_enough img
  | None => False
  end /\
  match combat_ui a with
  | Some img => large_enough img
  | None => True
  end.

Lemma fight_ui_cell_defined img x y :
  large_enough img -> fight_ui_cell img x y <> None.
Proof.
  intros [Hw Hh]. unfold fight_ui_cell. cbv zeta.
  destruct (_ && _); [| discriminate].
  destruct (_ && _ && _ && _); [| discriminate].
  assert (Hcw : fight_ui_cell_width img <> 0).
  { unfold fight_ui_cell_width, fight_ui_padding, fight_ui_grid_cols.
    pose proof (Z.div_mod (get_width img - 12 * 2) 2 ltac:(lia)).
    pose proof (Z.mod_pos_bound (get_width img - 12 * 2) 2 ltac:(lia)). lia. }
  assert (Hch : fight_ui_cell_height img <> 0).
  { unfold fight_ui_cell_height, fight_ui_padding, fight_ui_grid_rows.
    pose proof (Z.div_mod (get_height img - 12 * 2) 2 ltac:(lia)).
    pose proof (Z.mod_pos_bound (get_height img - 12 * 2) 2 ltac:(lia)). lia. }
  replace ((fight_ui_cell_width img =? 0) || (fight_ui_cell_height img =? 0))
    with false by lia.
  discriminate.
Qed.

Lemma combat_ui_left_cell_defined img x y :
  large_enough img -> combat_ui_left_cell img x y <> None.
Proof.
  intros [Hw Hh]. unfold combat_ui_left_cell. cbv zeta.
  destruct (_ && _); [| discriminate].
  assert (Hch : combat_ui_left_cell_height img <> 0).
  { unfold combat_ui_left_cell_height, combat_ui_padding, combat_ui_left_grid_rows.
    pose proof (Z.div_mod (get_height img - 12 * 2) 2 ltac:(lia)).
    pose proof (Z.mod_pos_bound (get_height img - 12 * 2) 2 ltac:(lia)). lia. }
  replace (combat_ui_left_cell_height img =? 0) with false by lia.
  discriminate.
Qed.

Definition not_raised (s : Stage) : Prop := s <> Raised.

Lemma and_then_not_raised s next :
  not_raised s ->
  (forall m sounds, not_raised (next m sounds)) ->
  not_raised (and_then s next).
Proof.
  intros Hs Hnext. destruct s as [m sounds|m sounds|]; cbn [and_then].
  - discriminate.
  - apply Hnext.
  - exact Hs.
Qed.

Lemma mouse_button_down_not_raised a x y m :
  menus_loaded a -> not_raised (mouse_button_down a x y m).
Proof.
  intros [Hfight Hcombat]. unfold mouse_button_down.
  destruct (fight_ui a) as [fight|] eqn:Efight; [| contradiction].
  apply and_then_not_raised.
  { unfold dismiss_message. destruct (run_text_visible m); [discriminate |].
    destruct (full_hp_text_visible m); discriminate. }
  intros m1 s1. apply and_then_not_raised.
  { unfold click_combat_ui. destruct (combat_ui a) as [combat|]; [| discriminate].
    destruct (_ && _); [| discriminate].
    apply and_then_not_raised.
    - pose proof (combat_ui_left_cell_defined combat x y Hcombat) as Hcell.
      destruct (combat_ui_left_cell combat x y) as [[[row col]|]|];
        [| discriminate | contradiction].
      rewrite Efight. cbn [loaded].
      destruct (nth_error _ _) as [[]|]; discriminate.
    - intros m2 s2. destruct (negb _); discriminate. }
  intros m2 s2. apply and_then_not_raised.
  { unfold click_screen. rewrite Efight. cbn [loaded].
    destruct (is_faded m2); [| discriminate].
    destruct (current_screen m2); try discriminate.
    destruct (over_text_box x y); discriminate. }
  intros m3 s3. apply and_then_not_raised.
  { unfold click_fight_ui. rewrite Efight.
    destruct (_ && _ && _ && _); [| discriminate].
    pose proof (fight_ui_cell_defined fight x y Hfight) as Hcell.
    destruct (fight_ui_cell fight x y) as [[[row col]|]|];
      [| discriminate | contradiction].
    destruct (label_at row col) as [[]|]; discriminate. }
  intros m4 s4. unfold click_dialog. destruct (_ && _ && _ && _); discriminate.
Qed.

Lemma mouse_motion_defined a x y m :
  menus_loaded a -> mouse_motion a x y m <> None.
Proof.
  intros [Hfight Hcombat]. unfold mouse_motion.
  destruct (fight_ui a) as [fight|] eqn:Efight; [| contradiction].
  cbv zeta.
  match goal with
  | |- match ?h with _ => _ end <> None => assert (Hh : h <> None)
  end.
  { destruct (combat_ui a) as [combat|]; [| discriminate].
    destruct (_ && _); [| discriminate].
    destruct (over_combat_ui combat x y); [| discriminate].
    pose proof (combat_ui_left_cell_defined combat x y Hcombat) as Hcell.
    destruct (combat_ui_left_cell combat x y); [discriminate | contradiction]. }
  match goal with
  | |- match ?h with _ => _ end <> None => destruct h as [hovered|]
  end; [| contradiction].
  destruct (_ && _ && _); [| discriminate].
  pose proof (fight_ui_cell_defined fight x y Hfight) as Hcell.
  destruct (fight_ui_cell fight x y); [discriminate | contradiction].
Qed.

(** With a fight UI image, and a combat UI image if there is one, of at
    least 26 pixels a side, no mouse event makes [handle_event] raise, in
    any state of the menus: the cell under the mouse is computed without a
    division by zero, and every label and move is looked up inside its
    list. *)
Theorem mouse_events_do_not_raise a event m :
  menus_loaded a ->
  exists m' sounds, handle_event a event m = Some (m', sounds).
Proof.
  intros Ha. destruct event as [x y|x y]; cbn [handle_event].
  - pose proof (mouse_motion_defined a x y m Ha) as H.
    destruct (mouse_motion a x y m) as [m1|]; [| contradiction].
    exists m1, []. reflexivity.
  - pose proof (mouse_button_down_not_raised a x y m Ha) as H.
    destruct (mouse_button_down a x y m) as [m1 s1|m1 s1|];
      [exists m1, s1 | exists m1, s1 | exfalso; apply H]; reflexivity.
Qed.

(** A fight UI image 25 pixels wide has cells of width 0: the click on its
    one usable column divides by zero. *)
Definition narrow : Assets :=
  {| fight_ui := Some {| get_width := 25; get_height := 96 |};
     combat_ui := combat_ui demo;
     bag_screen := true;
     pokemon_screen := true;
     fighting_background := true;
     sfx_press_ab := true;
     sfx_denied := true |}.

Lemma mouse_events_do_not_raise_in_the_demo :
  menus_loaded demo /\
  (exists m' sounds,
      handle_event demo (MOUSEBUTTONDOWN 467 240) in_battle = Some (m', sounds)) /\
  handle_event narrow (MOUSEBUTTONDOWN 467 240) in_battle = None.
Proof.
  assert (H : menus_loaded demo) by (repeat split; cbn; lia).
  split; [exact H |]. split; [| reflexivity].
  exact (mouse_events_do_not_raise demo (MOUSEBUTTONDOWN 467 240) in_battle H).
Defined.

(** *** A click on the dialog of the cutscene *)

(** When the dialog of the cutscene is fully visible, a click starts the
    fade to the battle at once, without the pause, and a click while the
    scene is fading starts the fade over from alpha 0. Until the fade is
    over the click does nothing else. *)
Theorem click_starts_the_fade_over a x y m :
  lugia_animation_complete m = true ->
  dialog_fully_visible m = true ->
  fighting_background a = true ->
  fade_state m <> Fade_faded ->
  run_text_visible m = false ->
  full_hp_text_visible m = false ->
  handle_event a (MOUSEBUTTONDOWN x y) m = Some (set_fade Fade_fading 0 m, []).
Proof.
  intros Hcomplete Hvisible Hbackground Hfade Hrun Hfull.
  assert (Hfaded : is_faded m = false).
  { unfold is_faded. destruct (fade_state m); try reflexivity. congruence. }
  cbn [handle_event]. unfold mouse_button_down, dismiss_message.
  rewrite Hrun, Hfull. cbn [and_then].
  unfold click_combat_ui. rewrite Hfaded, andb_false_r.
  replace (match combat_ui a with
           | Some _ => Continue m []
           | None => Continue m []
           end) with (Continue m []) by (destruct (combat_ui a); reflexivity).
  cbn [and_then]. unfold click_screen. rewrite Hfaded. cbn [and_then].
  unfold click_fight_ui. rewrite Hfaded. cbn [andb].
  replace (match fight_ui a with
           | Some _ => Continue m []
           | None => Continue m []
           end) with (Continue m []) by (destruct (fight_ui a); reflexivity).
  cbn [and_then]. unfold click_dialog.
  rewrite Hcomplete, Hvisible, Hbackground, Hfaded. reflexivity.
Qed.

(** The scene half way through the fade. *)
Definition fading : Menu := set_fade Fade_fading 120 in_battle.

Lemma click_starts_the_fade_over_at_alpha_120 :
  fade_alpha fading = 120 /\
  exists m',
    handle_event demo (MOUSEBUTTONDOWN 5 5) fading = Some (m', []) /\
    fade_state m' = Fade_fading /\ fade_alpha m' = 0.
Proof.
  split; [reflexivity |]. eexists. split.
  - apply (click_starts_the_fade_over demo 5 5 fading); try reflexivity.
    discriminate.
  - split; reflexivity.
Defined.

End BattleMenu.


(** * Timed animations of the attack and of the end scene *)

(** ** The eased fade-in of the black block *)

Lemma ease_in_out_bounds p :
  (0 <= p <= 1)%Q -> (0 <= ease_in_out p <= 1)%Q.
Proof.
  unfold ease_in_out. intros [H0 H1]. split.
  - apply Qmult_le_0_compat; [apply Qmult_le_0_compat; exact H0 | lra].
  - assert (Hd : (0 <= (1 - p) * (1 - p) * (1 + 2 * p))%Q).
    { apply Qmult_le_0_compat; [apply Qmult_le_0_compat |]; lra. }
    lra.
Qed.

Lemma ease_in_out_monotone p q :
  (0 <= p)%Q -> (p <= q)%Q -> (q <= 1)%Q ->
  (ease_in_out p <= ease_in_out q)%Q.
Proof.
  unfold ease_in_out. intros H0 Hpq H1.
  assert (Hpp : (0 <= p * (1 - p))%Q) by (apply Qmult_le_0_compat; lra).
  assert (Hqq : (0 <= q * (1 - q))%Q) by (apply Qmult_le_0_compat; lra).
  assert (Hpq1 : (0 <= p * (1 - q))%Q) by (apply Qmult_le_0_compat; lra).
  assert (Hs : (0 <= 3 * (p + q) - 2 * (p * p + p * q + q * q))%Q) by lra.
  assert (Hd : (0 <= (q - p) * (3 * (p + q) - 2 * (p * p + p * q + q * q)))%Q).
  { apply Qmult_le_0_compat; [lra | exact Hs]. }
  lra.
Qed.

Lemma ease_in_out_below_1 p :
  (0 <= p)%Q -> (p < 1)%Q -> (ease_in_out p < 1)%Q.
Proof.
  unfold ease_in_out. intros H0 H1.
  assert (Hd : (0 < (1 - p) * (1 - p) * (1 + 2 * p))%Q).
  { apply Qmult_lt_0_compat; [apply Qmult_lt_0_compat |]; lra. }
  lra.
Qed.

Lemma ease_in_out_eq p q : (p == q)%Q -> (ease_in_out p == ease_in_out q)%Q.
Proof. unfold ease_in_out. intros ->. reflexivity. Qed.

Lemma normalized_progress_ge_0 timer duration :
  0 <= timer -> 0 < duration ->
  (0 <= normalized_progress timer duration)%Q.
Proof.
  intros Ht Hd. unfold normalized_progress. apply Q.min_glb; [lra |].
  apply Qle_shift_div_l.
  - change 0%Q with (inject_Z 0). rewrite <- Zlt_Qlt. exact Hd.
  - change (0 * inject_Z duration)%Q with (0 * inject_Z duration)%Q.
    rewrite Qmult_0_l. change 0%Q with (inject_Z 0). rewrite <- Zle_Qle. exact Ht.
Qed.

Lemma normalized_progress_1_iff timer duration :
  0 < duration ->
  (normalized_progress timer duration == 1)%Q <-> duration <= timer.
Proof.
  intros Hd. unfold normalized_progress.
  assert (Hpos : (0 < inject_Z duration)%Q)
    by (change 0%Q with (inject_Z 0); rewrite <- Zlt_Qlt; exact Hd).
  split.
  - intros H. destruct (Z.le_gt_cases duration timer) as [Hle|Hgt]; [exact Hle |].
    exfalso.
    assert (Hlt : (inject_Z timer / inject_Z duration < 1)%Q).
    { apply Qlt_shift_div_r; [exact Hpos |]. rewrite Qmult_1_l.
      rewrite <- Zlt_Qlt. exact Hgt. }
    rewrite Q.min_r in H by lra. lra.
  - intros H. apply Q.min_l. apply Qle_shift_div_l; [exact Hpos |].
    rewrite Qmult_1_l. rewrite <- Zle_Qle. exact H.
Qed.

(** The alpha that a tick of the black block leaves, written out. *)
Lemma black_block_tick_alpha dt s :
  0 <= prompt_pulse_animation_timer s + dt ->
  let progress :=
    normalized_progress (prompt_pulse_animation_timer s + dt)
                        prompt_pulse_animation_duration in
  black_block_alpha (black_block_tick dt s)
  = Qfloor (255 * ease_in_out progress) /\
  assets_hidden (black_block_tick dt s)
  = (255 <=? Qfloor (255 * ease_in_out progress)).
Proof.
  intros Ht. cbv zeta. unfold black_block_tick.
  set (progress := normalized_progress _ _).
  assert (H1 : (progress <= 1)%Q) by apply normalized_progress_le_1.
  assert (H0 : (0 <= progress)%Q)
    by (apply normalized_progress_ge_0; [exact Ht | reflexivity]).
  assert (Hb : Qle_bool progress 1 = true) by (apply Qle_bool_iff; exact H1).
  rewrite Hb. cbn [black_block_alpha assets_hidden].
  assert (Hp : (Qmin 1 (progress / 1) == progress)%Q).
  { assert (Hd : (progress / 1 == progress)%Q) by (field).
    rewrite Hd. apply Q.min_r. exact H1. }
  pose proof (ease_in_out_bounds progress (conj H0 H1)) as [He0 He1].
  assert (Hx : py_int (255 * ease_in_out (Qmin 1 (progress / 1)))
               = Qfloor (255 * ease_in_out progress)).
  { rewrite py_int_floor.
    - apply Qfloor_comp. rewrite (ease_in_out_eq _ _ Hp). reflexivity.
    - rewrite (ease_in_out_eq _ _ Hp). lra. }
  rewrite Hx. split; reflexivity.
Qed.

(** The black block of the attack fades in with the eased progress: its
    alpha stays within 0 to 255, a tick with a longer frame time does not
    give a smaller alpha, and the assets under the block are hidden
    exactly from the tick in which the timer reaches the duration of one
    second. *)
Theorem black_block_fades_in dt1 dt2 s :
  0 <= prompt_pulse_animation_timer s + dt1 ->
  dt1 <= dt2 ->
  let s1 := black_block_tick dt1 s in
  let s2 := black_block_tick dt2 s in
  0 <= black_block_alpha s1 /\
  black_block_alpha s1 <= black_block_alpha s2 /\
  black_block_alpha s2 <= 255 /\
  (assets_hidden s2 = true
   <-> prompt_pulse_animation_duration <= prompt_pulse_animation_timer s + dt2).
Proof.
  intros Ht Hdt. cbv zeta.
  destruct (black_block_tick_alpha dt1 s Ht) as [-> _].
  destruct (black_block_tick_alpha dt2 s ltac:(lia)) as [-> ->].
  set (t1 := prompt_pulse_animation_timer s + dt1) in *.
  set (t2 := prompt_pulse_animation_timer s + dt2).
  assert (Ht2 : 0 <= t2) by (unfold t2; lia).
  set (p1 := normalized_progress t1 prompt_pulse_animation_duration).
  set (p2 := normalized_progress t2 prompt_pulse_animation_duration).
  assert (H10 : (0 <= p1)%Q)
    by (apply normalized_progress_ge_0; [exact Ht | reflexivity]).
  assert (H21 : (p2 <= 1)%Q) by apply normalized_progress_le_1.
  assert (H12 : (p1 <= p2)%Q).
  { unfold p1, p2. replace t2 with (t1 + (dt2 - dt1)) by (unfold t1, t2; lia).
    apply normalized_progress_monotone; [lia | reflexivity]. }
  pose proof (ease_in_out_bounds p1 ltac:(split; lra)) as [E10 E11].
  pose proof (ease_in_out_bounds p2 ltac:(split; lra)) as [E20 E21].
  pose proof (ease_in_out_monotone p1 p2 H10 H12 H21) as Emono.
  split; [| split; [| split]].
  - apply (Qfloor_resp_le 0). lra.
  - apply Qfloor_resp_le. lra.
  - apply (Qfloor_resp_le _ 255). lra.
  - rewrite Z.leb_le.
    rewrite <- (normalized_progress_1_iff t2 prompt_pulse_animation_duration)
      by reflexivity.
    fold p2. split.
    + intros Hfloor.
      destruct (Qlt_le_dec p2 1) as [Hlt|Hge]; [| lra].
      exfalso. pose proof (ease_in_out_below_1 p2 ltac:(lra) Hlt) as Hbelow.
      assert (Hlt255 : (255 * ease_in_out p2 < 255)%Q) by lra.
      pose proof (Qfloor_le (255 * ease_in_out p2)) as Hfl.
      assert (Hc : (inject_Z 255 <= inject_Z (Qfloor (255 * ease_in_out p2)))%Q)
        by (rewrite <- Zle_Qle; exact Hfloor).
      change (inject_Z 255) with 255%Q in Hc. lra.
    + intros Hone. rewrite (ease_in_out_eq _ _ Hone).
      vm_compute. discriminate.
Qed.

Lemma black_block_fades_in_example :
  let s := {| prompt_pulse_animation_timer := 484;
              black_block_alpha := 0;
              assets_hidden := false |} in
  black_block_alpha (black_block_tick 16 s) = 127 /\
  black_block_alpha (black_block_tick 516 s) = 255 /\
  assets_hidden (black_block_tick 516 s) = true /\
  assets_hidden (black_block_tick 515 s) = false.
Proof.
  cbv zeta.
  pose proof (black_block_fades_in 16 516
                {| prompt_pulse_animation_timer := 484;
                   black_block_alpha := 0;
                   assets_hidden := false |}
                ltac:(cbn; lia) ltac:(lia)) as (_ & _ & _ & H).
  split; [vm_compute; reflexivity |]. split; [vm_compute; reflexivity |].
  split; [apply H; cbn; unfold prompt_pulse_animation_duration; lia |].
  vm_compute. reflexivity.
Defined.

(** ** The handler of the attack: the menus slide down, the dialog waits

    The first two branches of the handler at the end of [update]. The third
    branch, "fading_black", assigns none of the three fields kept here. *)

Module MoveUsed.

Record Handler := {
  move_used_state : MoveUsedState;
  move_used_ui_slide_y : Z;
  move_used_wait_timer : Z
}.

Definition move_used_ui_target_y : Z := Config.SCREEN_HEIGHT.
Definition move_used_wait_duration : Z := 1500.

Definition update (get_time : Z) (h : Handler) : Handler :=
  match move_used_state h with
  | Move_sliding_down =>
      let slide_speed := 8 in
      if move_used_ui_slide_y h <? move_used_ui_target_y then
        let slide_y := move_used_ui_slide_y h + slide_speed in
        if slide_y >=? move_used_ui_target_y then
          {| move_used_state := Move_dialog_showing;
             move_used_ui_slide_y := move_used_ui_target_y;
             move_used_wait_timer := 0 |}
        else
          {| move_used_state := move_used_state h;
             move_used_ui_slide_y := slide_y;
             move_used_wait_timer := move_used_wait_timer h |}
      else h
  | Move_dialog_showing =>
      let wait_timer := move_used_wait_timer h + get_time in
      {| move_used_state :=
           if wait_timer >=? move_used_wait_duration then Move_fading_black
           else move_used_state h;
         move_used_ui_slide_y := move_used_ui_slide_y h;
         move_used_wait_timer := wait_timer |}
  | Move_fading_black => h
  | Move_none => h
  end.

(** The state after a click on "Prompt Pulse" (lines 1630-1631); the wait
    timer keeps the value it had. *)
Definition start_slide (wait_timer : Z) : Handler :=
  {| move_used_state := Move_sliding_down;
     move_used_ui_slide_y := 0;
     move_used_wait_timer := wait_timer |}.

(** The handler over the frame times of successive ticks. *)
Definition run (frame_times : list Z) (h : Handler) : Handler :=
  fold_left (fun h get_time => update get_time h) frame_times h.

Definition elapsed (frame_times : list Z) : Z := fold_right Z.add 0 frame_times.

Lemma run_app l1 l2 h : run (l1 ++ l2) h = run l2 (run l1 h).
Proof. apply fold_left_app. Qed.

Lemma run_sliding frame_times y w :
  y + 8 * Z.of_nat (length frame_times) < move_used_ui_target_y ->
  run frame_times {| move_used_state := Move_sliding_down;
                     move_used_ui_slide_y := y;
                     move_used_wait_timer := w |}
  = {| move_used_state := Move_sliding_down;
       move_used_ui_slide_y := y + 8 * Z.of_nat (length frame_times);
       move_used_wait_timer := w |}.
Proof.
  revert y. induction frame_times as [|dt rest IH]; intros y Hy.
  - cbn. f_equal. lia.
  - cbn [length] in Hy. rewrite Nat2Z.inj_succ in Hy.
    cbn [run fold_left]. unfold update at 2.
    cbn [move_used_state move_used_ui_slide_y move_used_wait_timer].
    destruct (y <? move_used_ui_target_y) eqn:E1; [| lia].
    destruct (y + 8 >=? move_used_ui_target_y) eqn:E2; [lia |].
    fold (run rest). rewrite IH by lia.
    cbn [length]. rewrite Nat2Z.inj_succ. f_equal. lia.
Qed.

Lemma run_fading_black frame_times h :
  move_used_state h = Move_fading_black -> run frame_times h = h.
Proof.
  intros Hs. induction frame_times as [|dt rest IH]; [reflexivity |].
  cbn [run fold_left]. unfold update at 2. rewrite Hs. exact IH.
Qed.

Lemma elapsed_nonneg frame_times :
  Forall (fun dt => 0 <= dt) frame_times -> 0 <= elapsed frame_times.
Proof. induction 1; cbn [elapsed fold_right]; [lia | fold (elapsed l); lia]. Qed.

Lemma run_dialog_showing frame_times y w :
  Forall (fun dt => 0 <= dt) frame_times ->
  w < move_used_wait_duration ->
  let h := run frame_times {| move_used_state := Move_dialog_showing;
                              move_used_ui_slide_y := y;
                              move_used_wait_timer := w |} in
  move_used_ui_slide_y h = y /\
  move_used_state h
  = (if move_used_wait_duration <=? w + elapsed frame_times
     then Move_fading_black else Move_dialog_showing).
Proof.
  intros Hall. cbv zeta. revert w.
  induction Hall as [|dt rest Hdt Hrest IH]; intros w Hw.
  - cbn. rewrite Z.add_0_r.
    destruct (move_used_wait_duration <=? w) eqn:E; [lia |].
    split; reflexivity.
  - change (run (dt :: rest) ?h) with (run rest (update dt h)).
    change (elapsed (dt :: rest)) with (dt + elapsed rest).
    unfold update.
    cbn [move_used_state move_used_ui_slide_y move_used_wait_timer].
    pose proof (elapsed_nonneg rest Hrest) as Hnn.
    destruct (w + dt >=? move_used_wait_duration) eqn:E.
    + rewrite run_fading_black by reflexivity.
      cbn [move_used_state move_used_ui_slide_y].
      destruct (move_used_wait_duration <=? w + (dt + elapsed rest)) eqn:E2;
        [split; reflexivity | lia].
    + destruct (IH (w + dt) ltac:(lia)) as [Hy Hs].
      rewrite Hy, Hs. rewrite Z.add_assoc. split; reflexivity.
Qed.

(** After a click on "Prompt Pulse" the menus slide down by 8 pixels a
    tick whatever the frame time is: they are still on their way during
    the first 39 ticks and reach the bottom of the screen (320), not a
    pixel further, with the 40th, which starts the wait at 0. From there
    the dialog stays until the frame times add up to 1500 ms; the fade to
    black starts with the tick that reaches them and the state stays
    there. *)
Theorem menus_slide_down_then_dialog_waits (before after : list Z) (w : Z) :
  length before = 40%nat ->
  Forall (fun dt => 0 <= dt) after ->
  (forall k, (k < 40)%nat ->
     run (firstn k before) (start_slide w)
     = {| move_used_state := Move_sliding_down;
          move_used_ui_slide_y := 8 * Z.of_nat k;
          move_used_wait_timer := w |}) /\
  run before (start_slide w)
  = {| move_used_state := Move_dialog_showing;
       move_used_ui_slide_y := Config.SCREEN_HEIGHT;
       move_used_wait_timer := 0 |} /\
  move_used_ui_slide_y (run (before ++ after) (start_slide w))
  = Config.SCREEN_HEIGHT /\
  move_used_state (run (before ++ after) (start_slide w))
  = (if 1500 <=? elapsed after then Move_fading_black else Move_dialog_showing).
Proof.
  intros Hlen Hall.
  assert (Hslide : forall k, (k < 40)%nat ->
     run (firstn k before) (start_slide w)
     = {| move_used_state := Move_sliding_down;
          move_used_ui_slide_y := 8 * Z.of_nat k;
          move_used_wait_timer := w |}).
  { intros k Hk. unfold start_slide.
    assert (Hl : length (firstn k before) = k)
      by (rewrite length_firstn; lia).
    rewrite run_sliding; rewrite Hl;
      [reflexivity | unfold move_used_ui_target_y, Config.SCREEN_HEIGHT; lia]. }
  assert (Hbefore : run before (start_slide w)
     = {| move_used_state := Move_dialog_showing;
          move_used_ui_slide_y := Config.SCREEN_HEIGHT;
          move_used_wait_timer := 0 |}).
  { rewrite <- (firstn_skipn 39 before), run_app, (Hslide 39%nat) by lia.
    assert (Hl : length (skipn 39 before) = 1%nat)
      by (rewrite length_skipn; lia).
    destruct (skipn 39 before) as [|dt [|dt' rest]]; try discriminate.
    reflexivity. }
  split; [exact Hslide |]. split; [exact Hbefore |].
  rewrite run_app, Hbefore.
  destruct (run_dialog_showing after Config.SCREEN_HEIGHT 0 Hall
              ltac:(reflexivity)) as [Hy Hs].
  rewrite Hy, Hs. split; reflexivity.
Qed.

Lemma menus_slide_down_at_60_frames_per_second :
  run (repeat 16 40) (start_slide 0)
  = {| move_used_state := Move_dialog_showing;
       move_used_ui_slide_y := 320;
       move_used_wait_timer := 0 |} /\
  move_used_state (run (repeat 16 40 ++ repeat 16 93) (start_slide 0))
  = Move_dialog_showing /\
  move_used_state (run (repeat 16 40 ++ repeat 16 94) (start_slide 0))
  = Move_fading_black.
Proof.
  assert (Hall : forall n, Forall (fun dt => 0 <= dt) (repeat 16 n)).
  { intros n. apply Forall_forall. intros x Hx.
    apply repeat_spec in Hx. subst x. lia. }
  destruct (menus_slide_down_then_dialog_waits
              (repeat 16 40) (repeat 16 93) 0 eq_refl (Hall 93%nat))
    as (_ & H1 & _ & H2).
  destruct (menus_slide_down_then_dialog_waits
              (repeat 16 40) (repeat 16 94) 0 eq_refl (Hall 94%nat))
    as (_ & _ & _ & H3).
  split; [exact H1 |]. split; [exact H2 | exact H3].
Defined.

End MoveUsed.

(** ** The end scene: from the health bar to the black background

    The sequence that [update] runs while [end_scene_active] is set: the
    health bar of Bugia empties, a pause, Bugia falls, the text "Bugia
    fainted!", a delay, and then the black background of phase 4 (taken
    from above). The later phases, which start when the background is
    black, assign none of the fields kept here. *)

Module EndSceneSequence.

Record Assets := {
  sfx_cry_17 : bool;
  sfx_press_ab : bool;
  (** whether the music of the end scene loads *)
  end_scene_music : bool
}.

Inductive Sound := Cry17 | PressAB | OpeningMovie.

Record Sequence := {
  end_scene_active : bool;
  end_scene_health_bar_timer : Z;
  end_scene_health_bar_width : Z;
  end_scene_health_bar_cry_played : bool;
  end_scene_health_bar_pause_timer : Z;
  end_scene_lugia_fall_timer : Z;
  end_scene_lugia_fall_alpha : Z;
  end_scene_lugia_fall_start_y : Q;
  battle_lugia_y : Q;
  move_used_dialog_text : string;
  end_scene_fainted_text_active : bool;
  end_scene_fainted_text_timer : Z;
  end_scene_black_bg_delay_timer : Z;
  black_bg : EndScene;
  end_scene_music_played : bool;
  (** the sounds played so far, the latest first *)
  played : list Sound
}.

Definition end_scene_health_bar_duration : Z := 2000.
Definition end_scene_health_bar_initial_width : Z := 96.
Definition end_scene_health_bar_pause_duration : Z := 500.
Definition end_scene_lugia_fall_duration : Z := 1000.
Definition end_scene_lugia_fall_distance : Z := 40.
Definition end_scene_fainted_text_duration : Z := 1000.
Definition end_scene_black_bg_delay_duration : Z := 1000.

Definition set_health_bar (timer width : Z) (s : Sequence) : Sequence :=
  {| end_scene_active := end_scene_active s;
     end_scene_health_bar_timer := timer;
     end_scene_health_bar_width := width;
     end_scene_health_bar_cry_played := end_scene_health_bar_cry_played s;
     end_scene_health_bar_pause_timer := end_scene_health_bar_pause_timer s;
     end_scene_lugia_fall_timer := end_scene_lugia_fall_timer s;
     end_scene_lugia_fall_alpha := end_scene_lugia_fall_alpha s;
     end_scene_lugia_fall_start_y := end_scene_lugia_fall_start_y s;
     battle_lugia_y := battle_lugia_y s;
     move_used_dialog_text := move_used_dialog_text s;
     end_scene_fainted_text_active := end_scene_fainted_text_active s;
     end_scene_fainted_text_timer := end_scene_fainted_text_timer s;
     end_scene_black_bg_delay_timer := end_scene_black_bg_delay_timer s;
     black_bg := black_bg s;
     end_scene_music_played := end_scene_music_played s;
     played := played s |}.

(** [if self.sfx_cry_17: self.sfx_cry_17.play()] and the flag. *)
Definition play_cry (a : Assets) (s : Sequence) : Sequence :=
  {| end_scene_active := end_scene_active s;
     end_scene_health_bar_timer := end_scene_health_bar_timer s;
     end_scene_health_bar_width := end_scene_health_bar_width s;
     end_scene_health_bar_cry_played := true;
     end_scene_health_bar_pause_timer := end_scene_health_bar_pause_timer s;
     end_scene_lugia_fall_timer := end_scene_lugia_fall_timer s;
     end_scene_lugia_fall_alpha := end_scene_lugia_fall_alpha s;
     end_scene_lugia_fall_start_y := end_scene_lugia_fall_start_y s;
     battle_lugia_y := battle_lugia_y s;
     move_used_dialog_text := move_used_dialog_text s;
     end_scene_fainted_text_active := end_scene_fainted_text_active s;
     end_scene_fainted_text_timer := end_scene_fainted_text_timer s;
     end_scene_black_bg_delay_timer := end_scene_black_bg_delay_timer s;
     black_bg := black_bg s;
     end_scene_music_played := end_scene_music_played s;
     played := if sfx_cry_17 a then Cry17 :: played s else played s |}.

Definition set_pause_timer (timer : Z) (s : Sequence) : Sequence :=
  {| end_scene_active := end_scene_active s;
     end_scene_health_bar_timer := end_scene_health_bar_timer s;
     end_scene_health_bar_width := end_scene_health_bar_width s;
     end_scene_health_bar_cry_played := end_scene_health_bar_cry_played s;
     end_scene_health_bar_pause_timer := timer;
     end_scene_lugia_fall_timer := end_scene_lugia_fall_timer s;
     end_scene_lugia_fall_alpha := end_scene_lugia_fall_alpha s;
     end_scene_lugia_fall_start_y := end_scene_lugia_fall_start_y s;
     battle_lugia_y := battle_lugia_y s;
     move_used_dialog_text := move_used_dialog_text s;
     end_scene_fainted_text_active := end_scene_fainted_text_active s;
     end_scene_fainted_text_timer := end_scene_fainted_text_timer s;
     end_scene_black_bg_delay_timer := end_scene_black_bg_delay_timer s;
     black_bg := black_bg s;
     end_scene_music_played := end_scene_music_played s;
     played := played s |}.

Definition set_lugia_fall (timer alpha : Z) (y : Q) (s : Sequence) : Sequence :=
  {| end_scene_active := end_scene_active s;
     end_scene_health_bar_timer := end_scene_health_bar_timer s;
     end_scene_health_bar_width := end_scene_health_bar_width s;
     end_scene_health_bar_cry_played := end_scene_health_bar_cry_played s;
     end_scene_health_bar_pause_timer := end_scene_health_bar_pause_timer s;
     end_scene_lugia_fall_timer := timer;
     end_scene_lugia_fall_alpha := alpha;
     end_scene_lugia_fall_start_y := end_scene_lugia_fall_start_y s;
     battle_lugia_y := y;
     move_used_dialog_text := move_used_dialog_text s;
     end_scene_fainted_text_active := end_scene_fainted_text_active s;
     end_scene_fainted_text_timer := end_scene_fainted_text_timer s;
     end_scene_black_bg_delay_timer := end_scene_black_bg_delay_timer s;
     black_bg := black_bg s;
     end_scene_music_played := end_scene_music_played s;
     played := played s |}.

(** The text changes, its timer starts at 0 and the sound of a key press
    plays if it is loaded. *)
Definition show_fainted_text (a : Assets) (s : Sequence) : Sequence :=
  {| end_scene_active := end_scene_active s;
     end_scene_health_bar_timer := end_scene_health_bar_timer s;
     end_scene_health_bar_width := end_scene_health_bar_width s;
     end_scene_health_bar_cry_played := end_scene_health_bar_cry_played s;
     end_scene_health_bar_pause_timer := end_scene_health_bar_pause_timer s;
     end_scene_lugia_fall_timer := end_scene_lugia_fall_timer s;
     end_scene_lugia_fall_alpha := end_scene_lugia_fall_alpha s;
     end_scene_lugia_fall_start_y := end_scene_lugia_fall_start_y s;
     battle_lugia_y := battle_lugia_y s;
     move_used_dialog_text := "Bugia fainted!";
     end_scene_fainted_text_active := true;
     end_scene_fainted_text_timer := 0;
     end_scene_black_bg_delay_timer := end_scene_black_bg_delay_timer s;
     black_bg := black_bg s;
     end_scene_music_played := end_scene_music_played s;
     played := if sfx_press_ab a then PressAB :: played s else played s |}.

Definition set_fainted_text_timer (timer : Z) (s : Sequence) : Sequence :=
  {| end_scene_active := end_scene_active s;
     end_scene_health_bar_timer := end_scene_health_bar_timer s;
     end_scene_health_bar_width := end_scene_health_bar_width s;
     end_scene_health_bar_cry_played := end_scene_health_bar_cry_played s;
     end_scene_health_bar_pause_timer := end_scene_health_bar_pause_timer s;
     end_scene_lugia_fall_timer := end_scene_lugia_fall_timer s;
     end_scene_lugia_fall_alpha := end_scene_lugia_fall_alpha s;
     end_scene_lugia_fall_start_y := end_scene_lugia_fall_start_y s;
     battle_lugia_y := battle_lugia_y s;
     move_used_dialog_text := move_used_dialog_text s;
     end_scene_fainted_text_active := end_scene_fainted_text_active s;
     end_scene_fainted_text_timer := timer;
     end_scene_black_bg_delay_timer := end_scene_black_bg_delay_timer s;
     black_bg := black_bg s;
     end_scene_music_played := end_scene_music_played s;
     played := played s |}.

Definition set_black_bg_delay_timer (timer : Z) (s : Sequence) : Sequence :=
  {| end_scene_active := end_scene_active s;
     end_scene_health_bar_timer := end_scene_health_bar_timer s;
     end_scene_health_bar_width := end_scene_health_bar_width s;
     end_scene_health_bar_cry_played := end_scene_health_bar_cry_played s;
     end_scene_health_bar_pause_timer := end_scene_health_bar_pause_timer s;
     end_scene_lugia_fall_timer := end_scene_lugia_fall_timer s;
     end_scene_lugia_fall_alpha := end_scene_lugia_fall_alpha s;
     end_scene_lugia_fall_start_y := end_scene_lugia_fall_start_y s;
     battle_lugia_y := battle_lugia_y s;
     move_used_dialog_text := move_used_dialog_text s;
     end_scene_fainted_text_active := end_scene_fainted_text_active s;
     end_scene_fainted_text_timer := end_scene_fainted_text_timer s;
     end_scene_black_bg_delay_timer := timer;
     black_bg := black_bg s;
     end_scene_music_played := end_scene_music_played s;
     played := played s |}.

Definition set_black_bg (b : EndScene) (s : Sequence) : Sequence :=
  {| end_scene_active := end_scene_active s;
     end_scene_health_bar_timer := end_scene_health_bar_timer s;
     end_scene_health_bar_width := end_scene_health_bar_width s;
     end_scene_health_bar_cry_played := end_scene_health_bar_cry_played s;
     end_scene_health_bar_pause_timer := end_scene_health_bar_pause_timer s;
     end_scene_lugia_fall_timer := end_scene_lugia_fall_timer s;
     end_scene_lugia_fall_alpha := end_scene_lugia_fall_alpha s;
     end_scene_lugia_fall_start_y := end_scene_lugia_fall_start_y s;
     battle_lugia_y := battle_lugia_y s;
     move_used_dialog_text := move_used_dialog_text s;
     end_scene_fainted_text_active := end_scene_fainted_text_active s;
     end_scene_fainted_text_timer := end_scene_fainted_text_timer s;
     end_scene_black_bg_delay_timer := end_scene_black_bg_delay_timer s;
     black_bg := b;
     end_scene_music_played := end_scene_music_played s;
     played := played s |}.

(** The music is loaded in a [try]: when that fails nothing plays and the
    flag stays unset. *)
Definition play_end_scene_music (a : Assets) (s : Sequence) : Sequence :=
  if end_scene_music a then
    {| end_scene_active := end_scene_active s;
       end_scene_health_bar_timer := end_scene_health_bar_timer s;
       end_scene_health_bar_width := end_scene_health_bar_width s;
       end_scene_health_bar_cry_played := end_scene_health_bar_cry_played s;
       end_scene_health_bar_pause_timer := end_scene_health_bar_pause_timer s;
       end_scene_lugia_fall_timer := end_scene_lugia_fall_timer s;
       end_scene_lugia_fall_alpha := end_scene_lugia_fall_alpha s;
       end_scene_lugia_fall_start_y := end_scene_lugia_fall_start_y s;
       battle_lugia_y := battle_lugia_y s;
       move_used_dialog_text := move_used_dialog_text s;
       end_scene_fainted_text_active := end_scene_fainted_text_active s;
       end_scene_fainted_text_timer := end_scene_fainted_text_timer s;
       end_scene_black_bg_delay_timer := end_scene_black_bg_delay_timer s;
       black_bg := black_bg s;
       end_scene_music_played := true;
       played := OpeningMovie :: played s |}
  else s.

(** Phase 1: the health bar. *)
Definition health_bar_tick (a : Assets) (get_time : Z) (s : Sequence) : Sequence :=
  let timer := end_scene_health_bar_timer s + get_time in
  let health_bar_progress :=
    Qmin 1 (inject_Z timer / inject_Z end_scene_health_bar_duration) in
  let width :=
    py_int (inject_Z end_scene_health_bar_initial_width * (1 - health_bar_progress)) in
  let s := set_health_bar timer width s in
  if (end_scene_health_bar_width s <=? 0)
     && negb (end_scene_health_bar_cry_played s)
  then play_cry a s else s.

(** Phase 2: Bugia falls and fades. The alpha is the exact
    [255 * (1 - fall_progress)] truncated; in binary64 it can be one less
    (at 800 ms: 50, here 51), as for the alphas of phase 4. *)
Definition lugia_fall_tick (get_time : Z) (s : Sequence) : Sequence :=
  let timer := end_scene_lugia_fall_timer s + get_time in
  let fall_progress :=
    Qmin 1 (inject_Z timer / inject_Z end_scene_lugia_fall_duration) in
  set_lugia_fall timer
    (py_int (255 * (1 - fall_progress)))
    (end_scene_lugia_fall_start_y s
     + inject_Z end_scene_lugia_fall_distance * fall_progress)%Q
    s.

(** The text timer, the delay and the start of phase 4. *)
Definition after_fainted_text (a : Assets) (get_time : Z) (s : Sequence) : Sequence :=
  if end_scene_fainted_text_timer s <? end_scene_fainted_text_duration then
    set_fainted_text_timer (end_scene_fainted_text_timer s + get_time) s
  else if end_scene_black_bg_delay_timer s <? end_scene_black_bg_delay_duration then
    set_black_bg_delay_timer (end_scene_black_bg_delay_timer s + get_time) s
  else if negb (end_scene_black_bg_active (black_bg s)) then
    let s := set_black_bg (start_black_bg (black_bg s)) s in
    if negb (end_scene_music_played s) then play_end_scene_music a s else s
  else s.

Definition update (a : Assets) (get_time : Z) (s : Sequence) : Sequence :=
  if end_scene_active s then
    if end_scene_health_bar_timer s <? end_scene_health_bar_duration then
      health_bar_tick a get_time s
    else
      let s := if negb (end_scene_health_bar_cry_played s) then play_cry a s else s in
      if end_scene_health_bar_pause_timer s <? end_scene_health_bar_pause_duration then
        set_pause_timer (end_scene_health_bar_pause_timer s + get_time) s
      else if end_scene_lugia_fall_timer s <? end_scene_lugia_fall_duration then
        lugia_fall_tick get_time s
      else if negb (end_scene_fainted_text_active s) then
        show_fainted_text a s
      else
        let s := after_fainted_text a get_time s in
        set_black_bg (black_bg_tick get_time (black_bg s)) s
  else s.

(** The end scene as the attack leaves it (lines 2773-2789). Those lines
    do not assign the flag of the text "Bugia fainted!", its timer and
    the timer of the delay: the three keep what they had, [False], 0 and
    0 after [__init__] and after a restart, and what an earlier end scene
    left when the player attacks again without a restart. *)
Definition start (fainted_text_active : bool)
    (fainted_text_timer black_bg_delay_timer : Z)
    (lugia_y : Q) (text : string) : Sequence :=
  {| end_scene_active := true;
     end_scene_health_bar_timer := 0;
     end_scene_health_bar_width := 96;
     end_scene_health_bar_cry_played := false;
     end_scene_health_bar_pause_timer := 0;
     end_scene_lugia_fall_timer := 0;
     end_scene_lugia_fall_alpha := 255;
     end_scene_lugia_fall_start_y := lugia_y;
     battle_lugia_y := lugia_y;
     move_used_dialog_text := text;
     end_scene_fainted_text_active := fainted_text_active;
     end_scene_fainted_text_timer := fainted_text_timer;
     end_scene_black_bg_delay_timer := black_bg_delay_timer;
     black_bg := end_scene_init;
     end_scene_music_played := false;
     played := [] |}.

(** The first end scene after the scene is built or restarted. *)
Definition first_start : Q -> string -> Sequence := start false 0 0.

Definition run (a : Assets) (frame_times : list Z) (s : Sequence) : Sequence :=
  fold_left (fun s get_time => update a get_time s) frame_times s.

Definition elapsed (frame_times : list Z) : Z := fold_right Z.add 0 frame_times.

Definition sound_eqb (x y : Sound) : bool :=
  match x, y with
  | Cry17, Cry17 | PressAB, PressAB | OpeningMovie, OpeningMovie => true
  | _, _ => false
  end.

(** How often a sound has been played. *)
Definition times (x : Sound) (l : list Sound) : nat :=
  length (filter (sound_eqb x) l).

(** The width of the health bar as a function of its timer. *)
Definition width_at (timer : Z) : Z :=
  py_int (inject_Z end_scene_health_bar_initial_width
          * (1 - Qmin 1 (inject_Z timer / inject_Z end_scene_health_bar_duration))).

(** The frame time that the text "Bugia fainted!" has been given in this
    end scene: its timer counts from the stale value when the flag was
    left set, and from 0 once this end scene has set the flag. *)
Definition text_spent (active0 : bool) (t0 : Z) (s : Sequence) : Z :=
  if active0 then end_scene_fainted_text_timer s - t0
  else if end_scene_fainted_text_active s then end_scene_fainted_text_timer s
  else 0.

(** The least frame time between the attack and the black background:
    2000 ms for the health bar, 500 of pause, 1000 for the fall, and what
    the stale timers leave of the 1000 of the text and the 1000 of the
    delay. *)
Definition least_time_to_black_bg (active0 : bool) (t0 d0 : Z) : Z :=
  3500 + (if active0 then Z.max 0 (1000 - t0) else 1000) + Z.max 0 (1000 - d0).

Lemma progress_range timer duration :
  0 <= timer -> 0 < duration ->
  (0 <= Qmin 1 (inject_Z timer / inject_Z duration) <= 1)%Q.
Proof.
  intros Ht Hd. split.
  - apply (normalized_progress_ge_0 timer duration Ht Hd).
  - apply Q.le_min_l.
Qed.

Lemma width_at_range timer : 0 <= timer -> 0 <= width_at timer <= 96.
Proof.
  intros Ht. unfold width_at.
  destruct (progress_range timer end_scene_health_bar_duration Ht eq_refl)
    as [H0 H1].
  set (p := Qmin 1 _) in *.
  change (inject_Z end_scene_health_bar_initial_width) with 96%Q.
  rewrite py_int_floor by lra. split.
  - apply (Qfloor_resp_le 0). lra.
  - apply (Qfloor_resp_le _ 96). lra.
Qed.

Lemma width_at_monotone timer dt :
  0 <= timer -> 0 <= dt -> width_at (timer + dt) <= width_at timer.
Proof.
  intros Ht Hdt. unfold width_at.
  destruct (progress_range timer end_scene_health_bar_duration Ht eq_refl)
    as [H0 H1].
  destruct (progress_range (timer + dt) end_scene_health_bar_duration
              ltac:(lia) eq_refl) as [H0' H1'].
  pose proof (normalized_progress_monotone timer dt
                end_scene_health_bar_duration Hdt eq_refl) as Hm.
  unfold normalized_progress in Hm.
  set (p := Qmin 1 _) in *. set (q := Qmin 1 _) in *.
  change (inject_Z end_scene_health_bar_initial_width) with 96%Q.
  rewrite !py_int_floor by lra.
  apply Qfloor_resp_le. lra.
Qed.

Lemma width_at_end timer :
  end_scene_health_bar_duration <= timer -> width_at timer = 0.
Proof.
  intros Ht. unfold width_at.
  pose proof (proj2 (normalized_progress_1_iff timer
                       end_scene_health_bar_duration eq_refl) Ht) as H1.
  unfold normalized_progress in H1.
  set (p := Qmin 1 _) in *.
  change (inject_Z end_scene_health_bar_initial_width) with 96%Q.
  rewrite py_int_floor by lra.
  assert (H : (96 * (1 - p) == 0)%Q) by lra.
  rewrite (Qfloor_comp _ _ H). reflexivity.
Qed.

Lemma black_bg_tick_active dt b :
  end_scene_black_bg_active (black_bg_tick dt b) = end_scene_black_bg_active b.
Proof. unfold black_bg_tick. destruct (end_scene_black_bg_active b) eqn:E; [reflexivity | exact E]. Qed.

(** What holds of the sequence after frame times that add up to [total],
    when it started with the stale values [active0], [t0] and [d0]. *)
Record ordered (a : Assets) (active0 : bool) (t0 d0 total : Z) (s : Sequence)
  : Prop := {
  ord_active : end_scene_active s = true;
  ord_health : 0 <= end_scene_health_bar_timer s;
  ord_pause : 0 <= end_scene_health_bar_pause_timer s;
  ord_fall : 0 <= end_scene_lugia_fall_timer s;
  ord_text : 0 <= text_spent active0 t0 s;
  ord_delay : d0 <= end_scene_black_bg_delay_timer s;
  ord_total :
    end_scene_health_bar_timer s + end_scene_health_bar_pause_timer s
    + end_scene_lugia_fall_timer s + text_spent active0 t0 s
    + (end_scene_black_bg_delay_timer s - d0) <= total;
  ord_width : end_scene_health_bar_width s = width_at (end_scene_health_bar_timer s);
  ord_cry :
    end_scene_health_bar_cry_played s = (end_scene_health_bar_width s <=? 0);
  ord_cry_times :
    times Cry17 (played s)
    = if end_scene_health_bar_cry_played s && sfx_cry_17 a then 1%nat else 0%nat;
  ord_press_times :
    times PressAB (played s)
    = if end_scene_fainted_text_active s && negb active0 && sfx_press_ab a
      then 1%nat else 0%nat;
  ord_music_times :
    times OpeningMovie (played s)
    = if end_scene_music_played s then 1%nat else 0%nat;
  ord_music :
    end_scene_music_played s = true ->
    end_scene_black_bg_active (black_bg s) = true;
  ord_stale :
    active0 = true -> end_scene_fainted_text_active s = true;
  ord_after_health :
    end_scene_health_bar_pause_timer s <> 0 ->
    end_scene_health_bar_duration <= end_scene_health_bar_timer s;
  ord_after_pause :
    end_scene_lugia_fall_timer s <> 0 ->
    end_scene_health_bar_pause_duration <= end_scene_health_bar_pause_timer s /\
    end_scene_health_bar_duration <= end_scene_health_bar_timer s;
  ord_after_fall :
    active0 = false ->
    end_scene_fainted_text_active s = true ->
    end_scene_lugia_fall_duration <= end_scene_lugia_fall_timer s /\
    end_scene_health_bar_pause_duration <= end_scene_health_bar_pause_timer s /\
    end_scene_health_bar_duration <= end_scene_health_bar_timer s /\
    move_used_dialog_text s = "Bugia fainted!";
  ord_text_timer :
    text_spent active0 t0 s <> 0 ->
    end_scene_lugia_fall_duration <= end_scene_lugia_fall_timer s /\
    end_scene_health_bar_pause_duration <= end_scene_health_bar_pause_timer s /\
    end_scene_health_bar_duration <= end_scene_health_bar_timer s;
  ord_after_text :
    end_scene_black_bg_delay_timer s <> d0 ->
    end_scene_fainted_text_duration <= end_scene_fainted_text_timer s /\
    end_scene_fainted_text_active s = true /\
    end_scene_lugia_fall_duration <= end_scene_lugia_fall_timer s /\
    end_scene_health_bar_pause_duration <= end_scene_health_bar_pause_timer s /\
    end_scene_health_bar_duration <= end_scene_health_bar_timer s;
  ord_after_delay :
    end_scene_black_bg_active (black_bg s) = true ->
    end_scene_black_bg_delay_duration <= end_scene_black_bg_delay_timer s /\
    end_scene_fainted_text_duration <= end_scene_fainted_text_timer s /\
    end_scene_fainted_text_active s = true /\
    end_scene_lugia_fall_duration <= end_scene_lugia_fall_timer s /\
    end_scene_health_bar_pause_duration <= end_scene_health_bar_pause_timer s /\
    end_scene_health_bar_duration <= end_scene_health_bar_timer s
}.

Lemma start_ordered a active0 t0 d0 lugia_y text :
  ordered a active0 t0 d0 0 (start active0 t0 d0 lugia_y text).
Proof.
  destruct active0;
    constructor; unfold text_spent; cbn; try lia; try reflexivity;
    try discriminate; try (intros H; exfalso; apply H; reflexivity);
    try (intros H; exfalso; lia).
Qed.

Ltac unfold_setters :=
  unfold health_bar_tick, lugia_fall_tick, after_fainted_text,
    play_end_scene_music, set_health_bar, play_cry, set_pause_timer,
    set_lugia_fall, show_fainted_text, set_fainted_text_timer,
    set_black_bg_delay_timer, set_black_bg, start_black_bg, text_spent in *;
  cbn [end_scene_active end_scene_health_bar_timer end_scene_health_bar_width
       end_scene_health_bar_cry_played end_scene_health_bar_pause_timer
       end_scene_lugia_fall_timer end_scene_lugia_fall_alpha
       end_scene_lugia_fall_start_y battle_lugia_y move_used_dialog_text
       end_scene_fainted_text_active end_scene_fainted_text_timer
       end_scene_black_bg_delay_timer black_bg end_scene_music_played played
       end_scene_black_bg_active] in *.

Ltac unfold_durations :=
  unfold end_scene_health_bar_duration, end_scene_health_bar_pause_duration,
    end_scene_lugia_fall_duration, end_scene_fainted_text_duration,
    end_scene_black_bg_delay_duration in *.

Ltac use_order :=
  intros; unfold_durations;
  repeat match goal with
  | H : ?P -> _, HP : ?P |- _ => specialize (H HP)
  | H : true = true -> _ |- _ => specialize (H eq_refl)
  | H : false = false -> _ |- _ => specialize (H eq_refl)
  | H : _ /\ _ |- _ => destruct H
  | H : (_ <? _) = true |- _ => apply Z.ltb_lt in H
  | H : (_ <? _) = false |- _ => apply Z.ltb_ge in H
  | H : (_ <=? _) = true |- _ => apply Z.leb_le in H
  | H : (_ <=? _) = false |- _ => apply Z.leb_gt in H
  end;
  repeat split; try assumption; try reflexivity; try lia; try congruence;
  try (exfalso; lia);
  try solve
    [ unfold times in *; cbn [filter sound_eqb length andb negb] in *;
      repeat match goal with
      | H : ?b = _ |- context [?b] => rewrite H
      | H : ?b = _, H' : context [?b] |- _ => rewrite H in H'
      end;
      cbn [filter sound_eqb length andb negb] in *;
      repeat match goal with
      | |- context [if ?b then _ else _] => destruct b eqn:?
      | H : context [if ?b then _ else _] |- _ => destruct b eqn:?
      end;
      cbn [filter sound_eqb length andb negb] in *; congruence || lia ].

Lemma update_ordered a active0 t0 d0 dt total s :
  0 <= dt -> ordered a active0 t0 d0 total s ->
  ordered a active0 t0 d0 (total + dt) (update a dt s).
Proof.
  intros Hdt [Hact Hh Hp Hf Ht Hd Htot Hw Hcry Hct Hpt Hmt Hmus Hst
              Hah Hap Haf Htt Hat Had].
  unfold update. rewrite Hact. unfold_durations.
  destruct (end_scene_health_bar_timer s <? 2000) eqn:E1.
  - (* the health bar *)
    unfold health_bar_tick. cbv zeta.
    change (py_int _) with (width_at (end_scene_health_bar_timer s + dt)).
    pose proof (width_at_range _ (Z.add_nonneg_nonneg _ _ Hh Hdt)) as Hrange.
    pose proof (width_at_monotone _ _ Hh Hdt) as Hmono.
    rewrite <- Hw in Hmono.
    set (width := width_at (end_scene_health_bar_timer s + dt)) in *.
    unfold_setters.
    destruct active0;
    destruct (end_scene_fainted_text_active s) eqn:E4;
    destruct (width <=? 0) eqn:E2;
      destruct (end_scene_health_bar_cry_played s) eqn:E3; cbn [andb negb];
      symmetry in Hcry;
      unfold_setters; constructor; unfold_setters; use_order.
  - assert (Hw0 : end_scene_health_bar_width s = 0)
      by (rewrite Hw; apply width_at_end; unfold end_scene_health_bar_duration; lia).
    assert (Hc : end_scene_health_bar_cry_played s = true)
      by (rewrite Hcry, Hw0; reflexivity).
    rewrite Hc. cbn [negb].
    destruct active0;
      destruct (end_scene_fainted_text_active s) eqn:E4;
      (destruct (end_scene_health_bar_pause_timer s <? 500) eqn:E2;
       [| destruct (end_scene_lugia_fall_timer s <? 1000) eqn:E3 ]);
      cbn [negb];
      match goal with
      | |- context [after_fainted_text] =>
          unfold after_fainted_text; unfold_durations;
          destruct (end_scene_fainted_text_timer s <? 1000) eqn:E5;
          [| destruct (end_scene_black_bg_delay_timer s <? 1000) eqn:E6;
             [| destruct (end_scene_black_bg_active (black_bg s)) eqn:E7;
                cbn [negb];
                [| unfold_setters; rewrite ?E7; cbn [negb];
                   destruct (end_scene_music_played s) eqn:E8; cbn [negb];
                   [| destruct (end_scene_music a) eqn:E9 ] ] ] ]
      | |- _ => idtac
      end;
      unfold_setters; rewrite ?E4; constructor; unfold_setters;
      rewrite ?black_bg_tick_active; unfold_setters; rewrite ?E4; use_order.
Qed.

Lemma run_ordered a active0 t0 d0 frame_times total s :
  Forall (fun dt => 0 <= dt) frame_times ->
  ordered a active0 t0 d0 total s ->
  ordered a active0 t0 d0 (total + elapsed frame_times) (run a frame_times s).
Proof.
  intros Hall. revert total s.
  induction Hall as [|dt rest Hdt Hrest IH]; intros total s Hs.
  - cbn. rewrite Z.add_0_r. exact Hs.
  - change (run a (dt :: rest) s) with (run a rest (update a dt s)).
    change (elapsed (dt :: rest)) with (dt + elapsed rest).
    rewrite Z.add_assoc. apply IH. apply update_ordered; assumption.
Qed.

Definition demo : Assets :=
  {| sfx_cry_17 := true; sfx_press_ab := true; end_scene_music := true |}.


(** The phases of the end scene take their time one after the other,
    whatever the frame times are and whatever an earlier end scene left
    in the three fields that the attack does not reset. The black
    background does not start before the health bar is empty and
    [least_time_to_black_bg] of frame time has passed since the attack:
    2000 ms for the health bar, 500 of pause, 1000 for the fall, and what
    the stale timers leave of the 1000 for the text and the 1000 of
    delay. In the first end scene after the scene is built or restarted
    that is 5500 ms, and the text "Bugia fainted!" is not shown before
    3500 ms. When the flag of the text was left set, the timers of the
    text and of the delay go on from their stale values: after a
    complete end scene the black background follows the fall at once. *)
Theorem end_scene_phases_take_their_time
    a active0 t0 d0 lugia_y text (frame_times : list Z) :
  Forall (fun dt => 0 <= dt) frame_times ->
  let s := run a frame_times (start active0 t0 d0 lugia_y text) in
  (end_scene_black_bg_active (black_bg s) = true ->
   least_time_to_black_bg active0 t0 d0 <= elapsed frame_times /\
   end_scene_fainted_text_active s = true /\
   end_scene_health_bar_width s = 0) /\
  (active0 = false ->
   end_scene_fainted_text_active s = true ->
   3500 <= elapsed frame_times /\
   end_scene_health_bar_width s = 0 /\
   move_used_dialog_text s = "Bugia fainted!").
Proof.
  intros Hall. cbv zeta.
  pose proof (run_ordered a active0 t0 d0 frame_times 0 _ Hall
                (start_ordered a active0 t0 d0 lugia_y text))
    as [Hact Hh Hp Hf Ht Hd Htot Hw Hcry Hct Hpt Hmt Hmus Hst
        Hah Hap Haf Htt Hat Had].
  rewrite Z.add_0_l in Htot. unfold_durations.
  set (s := run a frame_times (start active0 t0 d0 lugia_y text)) in *.
  split.
  - intros Hb. destruct (Had Hb) as (H1 & H2 & H3 & H4 & H5 & H6).
    split; [| split; [exact H3 |]].
    + unfold least_time_to_black_bg. unfold text_spent in *.
      rewrite H3 in *. destruct active0; lia.
    + rewrite Hw. apply width_at_end. exact H6.
  - intros H0 Hx. destruct (Haf H0 Hx) as (H1 & H2 & H3 & H4).
    split; [| split; [| exact H4]].
    + unfold text_spent in *. rewrite H0, Hx in *. lia.
    + rewrite Hw. apply width_at_end. exact H3.
Qed.

Lemma end_scene_at_60_frames_per_second :
  let text := "Cursaur used Prompt Pulse!" in
  let first := run demo (repeat 16 348) (first_start 100 text) in
  let second := run demo (repeat 16 221) (start true 1008 1008 100 text) in
  (end_scene_black_bg_active (black_bg first) = true /\
   5500 <= elapsed (repeat 16 348) /\
   move_used_dialog_text first = "Bugia fainted!" /\
   end_scene_fainted_text_timer first = 1008 /\
   end_scene_black_bg_delay_timer first = 1008 /\
   end_scene_black_bg_active
     (black_bg (run demo (repeat 16 347) (first_start 100 text))) = false) /\
  (end_scene_black_bg_active (black_bg second) = true /\
   3500 <= elapsed (repeat 16 221) /\
   end_scene_health_bar_width second = 0 /\
   move_used_dialog_text second = text /\
   end_scene_black_bg_active
     (black_bg (run demo (repeat 16 220) (start true 1008 1008 100 text)))
   = false).
Proof.
  cbv zeta.
  assert (Hall : forall n, Forall (fun dt => 0 <= dt) (repeat 16 n)).
  { intros n. apply Forall_forall. intros x Hx.
    apply repeat_spec in Hx. subst x. lia. }
  destruct (end_scene_phases_take_their_time
              demo false 0 0 100 "Cursaur used Prompt Pulse!"
              (repeat 16 348) (Hall 348%nat))
    as [Hbg Htext].
  destruct (end_scene_phases_take_their_time
              demo true 1008 1008 100 "Cursaur used Prompt Pulse!"
              (repeat 16 221) (Hall 221%nat))
    as [Hbg' _].
  assert (Hactive : end_scene_black_bg_active
            (black_bg (run demo (repeat 16 348)
                         (first_start 100 "Cursaur used Prompt Pulse!"))) = true)
    by (vm_compute; reflexivity).
  assert (Hactive' : end_scene_black_bg_active
            (black_bg (run demo (repeat 16 221)
                         (start true 1008 1008 100 "Cursaur used Prompt Pulse!")))
          = true)
    by (vm_compute; reflexivity).
  destruct (Hbg Hactive) as (Htime & Hshown & _).
  destruct (Htext eq_refl Hshown) as (_ & _ & Hfainted).
  destruct (Hbg' Hactive') as (Htime' & _ & Hwidth').
  split.
  - split; [exact Hactive |]. split; [exact Htime |].
    split; [exact Hfainted |].
    split; [vm_compute; reflexivity |].
    split; vm_compute; reflexivity.
  - split; [exact Hactive' |]. split; [exact Htime' |].
    split; [exact Hwidth' |].
    split; vm_compute; reflexivity.
Defined.

(** Each sound of the end scene plays at most once in it, whatever the
    frame times are and whatever an earlier end scene left: the cry has
    played exactly when the health bar is empty and the sound is loaded;
    the sound of the key press exactly when this end scene has set the
    flag of the text "Bugia fainted!" and the sound is loaded, so never
    in an end scene that found the flag set; and the music of the end
    scene at most once and only with the black background. The width of
    the health bar stays within 0 and 96. *)
Theorem end_scene_sounds_play_once
    a active0 t0 d0 lugia_y text (frame_times : list Z) :
  Forall (fun dt => 0 <= dt) frame_times ->
  let s := run a frame_times (start active0 t0 d0 lugia_y text) in
  0 <= end_scene_health_bar_width s <= 96 /\
  times Cry17 (played s)
  = (if (end_scene_health_bar_width s <=? 0) && sfx_cry_17 a
     then 1%nat else 0%nat) /\
  times PressAB (played s)
  = (if end_scene_fainted_text_active s && negb active0 && sfx_press_ab a
     then 1%nat else 0%nat) /\
  (times OpeningMovie (played s) <= 1)%nat /\
  (times OpeningMovie (played s) = 1%nat ->
   end_scene_black_bg_active (black_bg s) = true).
Proof.
  intros Hall. cbv zeta.
  pose proof (run_ordered a active0 t0 d0 frame_times 0 _ Hall
                (start_ordered a active0 t0 d0 lugia_y text))
    as [Hact Hh Hp Hf Ht Hd Htot Hw Hcry Hct Hpt Hmt Hmus Hst
        Hah Hap Haf Htt Hat Had].
  split; [rewrite Hw; apply width_at_range; exact Hh |].
  split; [rewrite <- Hcry; exact Hct |].
  split; [exact Hpt |].
  rewrite Hmt.
  destruct (end_scene_music_played
              (run a frame_times (start active0 t0 d0 lugia_y text)));
    split; try lia; try discriminate.
  intros _. apply Hmus. reflexivity.
Qed.

Lemma end_scene_sounds_at_60_frames_per_second :
  let text := "Cursaur used Prompt Pulse!" in
  let first := run demo (repeat 16 400) (first_start 100 text) in
  let second := run demo (repeat 16 400) (start true 1008 1008 100 text) in
  (played first = [OpeningMovie; PressAB; Cry17] /\
   end_scene_health_bar_width first = 0 /\
   times Cry17 (played first) = 1%nat) /\
  (played second = [OpeningMovie; Cry17] /\
   times PressAB (played second) = 0%nat) /\
  played (run demo (repeat 16 123) (first_start 100 text)) = [] /\
  played (run demo (repeat 16 124) (first_start 100 text)) = [Cry17].
Proof.
  cbv zeta.
  assert (Hall : Forall (fun dt => 0 <= dt) (repeat 16 400)).
  { apply Forall_forall. intros x Hx. apply repeat_spec in Hx. subst x. lia. }
  destruct (end_scene_sounds_play_once
              demo false 0 0 100 "Cursaur used Prompt Pulse!" (repeat 16 400) Hall)
    as (_ & Hcry & _).
  destruct (end_scene_sounds_play_once
              demo true 1008 1008 100 "Cursaur used Prompt Pulse!"
              (repeat 16 400) Hall)
    as (_ & _ & Hpress & _).
  assert (Hwidth : end_scene_health_bar_width
            (run demo (repeat 16 400)
               (first_start 100 "Cursaur used Prompt Pulse!"))
          = 0) by (vm_compute; reflexivity).
  split; [| split].
  - split; [vm_compute; reflexivity |]. split; [exact Hwidth |].
    unfold first_start in *. rewrite Hcry, Hwidth. reflexivity.
  - split; [vm_compute; reflexivity |].
    rewrite Hpress. rewrite andb_false_r. reflexivity.
  - split; vm_compute; reflexivity.
Defined.

End EndSceneSequence.

(** * The trainer waits for the slide-in *)

(** The elements that [all_animations_complete] tests behind their
    visibility; the trainer itself is tested too and moves again when it
    slides out, the Lugia sprite is not tested. *)
Definition waited_for (e : Element) : bool :=
  match e with
  | Grass | Pokemonstat | Water => true
  | BattleLugia | TrainerSprite => false
  end.

Definition arrived (a : Assets) (sl : Slides) : Prop :=
  forall e, waited_for e = true -> sliding a sl e = true ->
            (position sl e == target a e)%Q.

Definition trainer_waited (a : Assets) (s : Scene) : Prop :=
  (fade_state (fade s) = Fade_faded ->
   battle_animations_started (fade s) = true) /\
  (battle_trainer_current_frame (trainer s) <> 0 ->
   battle_trainer_can_animate (trainer s) = true) /\
  (battle_trainer_can_animate (trainer s) = true ->
   (0 <? battle_trainer_sprites a)%nat = true /\
   battle_animations_started (fade s) = true /\
   arrived a (slides s)).

Lemma all_animations_complete_arrived a m sl :
  all_animations_complete a m sl = true -> arrived a sl.
Proof.
  unfold all_animations_complete. destruct (move_is_none m); [| discriminate].
  cbv zeta. intros H e He Hs.
  destruct (negb (Qeq_bool (battle_trainer_x sl) _)); [discriminate |].
  destruct (battle_water_visible sl && loaded (battle_water a)
            && negb (Qeq_bool (battle_water_x sl) _)) eqn:Ew; [discriminate |].
  destruct (battle_pokemonstat_visible sl && loaded (battle_pokemonstat a)
            && negb (Qeq_bool (battle_pokemonstat_x sl) _)) eqn:Ep;
    [discriminate |].
  destruct (battle_grass_visible sl && loaded (battle_grass a)
            && negb (Qeq_bool (battle_grass_left_x sl) _)) eqn:Eg;
    [discriminate |].
  destruct e; try discriminate He; cbn [sliding] in Hs;
    cbn [position target]; apply Qeq_bool_iff.
  - rewrite Hs in Eg. cbn [andb] in Eg. apply negb_false_iff in Eg. exact Eg.
  - rewrite Hs in Ep. cbn [andb] in Ep. apply negb_false_iff in Ep. exact Ep.
  - rewrite Hs in Ew. cbn [andb] in Ew. apply negb_false_iff in Ew. exact Ew.
Qed.

Lemma battle_slide_tick_arrived a sp m sl :
  arrived a sl -> arrived a (battle_slide_tick a sp m sl).
Proof.
  intros H e He Hs. rewrite battle_slide_tick_sliding in Hs.
  rewrite battle_slide_tick_position, Hs.
  specialize (H e He Hs).
  destruct (move_is_none m).
  - rewrite (slide_stays e _ _ _ H). exact H.
  - cbn [andb]. destruct (negb _); [reflexivity | exact H].
Qed.

Lemma set_trainer_x_arrived a x visible sl :
  arrived a sl -> arrived a (set_trainer_x x visible sl).
Proof.
  intros H e He Hs. destruct e; try discriminate He; apply (H _ He Hs).
Qed.

Lemma update_trainer_waits a sp m sl t v sl' t' v' toss :
  update_trainer a sp m sl t v = (sl', t', v', toss) ->
  (arrived a sl -> arrived a sl') /\
  (battle_trainer_can_animate t' = true ->
   battle_trainer_can_animate t = true \/
   (all_animations_complete a m sl = true /\
    (0 <? battle_trainer_sprites a)%nat = true)) /\
  (battle_trainer_current_frame t' <> 0 ->
   battle_trainer_current_frame t <> 0 \/
   battle_trainer_can_animate t' = true) /\
  (battle_trainer_can_animate t = true ->
   battle_trainer_can_animate t' = true).
Proof.
  unfold update_trainer.
  destruct (battle_trainer_visible sl && (0 <? battle_trainer_sprites a)%nat)
    eqn:E.
  - apply andb_prop in E as [_ Hsprites]. cbv zeta.
    match goal with
    | |- context [match ?moved with pair _ _ => _ end] =>
        destruct moved as [[x1 alpha1] visible1]
    end.
    intros H. injection H as <- <- <- <-.
    cbn [battle_trainer_can_animate battle_trainer_current_frame].
    split; [apply set_trainer_x_arrived |]. split.
    + destruct (all_animations_complete a m sl);
        destruct (battle_trainer_can_animate t); cbn [andb negb]; auto.
    + split.
      * destruct (all_animations_complete a m sl
                  && negb (battle_trainer_can_animate t)); [auto |].
        destruct (battle_trainer_can_animate t); [auto |].
        cbn [andb]. auto.
      * intros ->. destruct (_ && _); reflexivity.
  - intros H. injection H as <- <- <- <-. auto.
Qed.

Lemma update_battle_waits a sp sl t v b sl' t' v' b' sounds :
  update_battle a sp sl t v b = Some (sl', t', v', b', sounds) ->
  (arrived a sl -> arrived a sl') /\
  (battle_trainer_can_animate t' = true ->
   battle_trainer_can_animate t = true \/
   (arrived a sl' /\ (0 <? battle_trainer_sprites a)%nat = true)) /\
  (battle_trainer_current_frame t' <> 0 ->
   battle_trainer_current_frame t <> 0 \/
   battle_trainer_can_animate t' = true) /\
  (battle_trainer_can_animate t = true ->
   battle_trainer_can_animate t' = true).
Proof.
  unfold update_battle.
  set (sl1 := battle_slide_tick a sp (move_used_state b) sl).
  set (b1 := animate_battle_lugia a sl1 b).
  destruct (update_trainer a sp (move_used_state b1) sl1 t v)
    as [[[sl2 t2] v2] toss] eqn:Et.
  destruct (update_venusaur a sp b1 v2) as [[v3 poof]|]; [| discriminate].
  intros H. injection H as <- <- <- <- <-.
  destruct (update_trainer_waits _ _ _ _ _ _ _ _ _ _ Et)
    as (Hsl & Hcan & Hframe & Hstays).
  split; [intros Ha; apply Hsl, battle_slide_tick_arrived, Ha |].
  split; [| split; [exact Hframe | exact Hstays]].
  intros Hc. destruct (Hcan Hc) as [Hold | [Hall Hsprites]]; [left; exact Hold |].
  right. split; [| exact Hsprites].
  apply Hsl. apply (all_animations_complete_arrived _ _ _ Hall).
Qed.

Lemma fade_chain a now l d f0 d' f sl0 b0 f' sl b :
  update_dialog a now l d (restore_map_music a f0) = (d', f) ->
  update_fade a f sl0 b0 = (f', sl, b) ->
  (fade_state f0 = Fade_faded -> battle_animations_started f0 = true) ->
  (fade_state f' = Fade_faded -> battle_animations_started f' = true) /\
  (battle_animations_started f0 = true ->
   battle_animations_started f' = true /\ sl = sl0).
Proof.
  intros Hd Hf H0.
  assert (Hr : fade_state (restore_map_music a f0) = fade_state f0 /\
               battle_animations_started (restore_map_music a f0)
               = battle_animations_started f0).
  { unfold restore_map_music. destruct (_ && _ && _); split; reflexivity. }
  destruct Hr as [Hr1 Hr2].
  assert (Hf1 : battle_animations_started f = battle_animations_started f0 /\
                (fade_state f = Fade_faded -> fade_state f0 = Fade_faded)).
  { revert Hd. unfold update_dialog.
    destruct (dialog_visible d).
    - cbv zeta.
      match goal with
      | |- context [match (if ?c then ?u else ?v) with pair _ _ => _ end] =>
          destruct (if c then u else v) as [[y fully] pause]
      end.
      match goal with
      | |- context [if ?c then start_fading _ else _] => destruct c
      end; intros H; injection H as _ <-.
      + split; [exact Hr2 | discriminate].
      + split; [exact Hr2 | rewrite Hr1; auto].
    - intros H; injection H as _ <-.
      split; [exact Hr2 | rewrite Hr1; auto]. }
  destruct Hf1 as [Hs1 Hs2].
  revert Hf. unfold update_fade.
  destruct (fade_state f) eqn:Ef.
  - intros H; injection H as <- <- <-.
    rewrite Hs1. split; [rewrite Ef; discriminate | auto].
  - destruct (255 <=? fade_alpha f + fade_speed).
    + destruct (if 0 <? frame_count (battle_lugia a) then _ else _)
        as [frame time].
      intros H; injection H as <- <- <-.
      cbn [battle_animations_started fade_state].
      split; [reflexivity |].
      intros Hst. rewrite Hs1, Hst. cbn [negb]. split; reflexivity.
    + intros H; injection H as <- <- <-.
      cbn [battle_animations_started fade_state].
      split; [discriminate |]. rewrite Hs1. auto.
  - intros H; injection H as <- <- <-.
    rewrite Hs1. split; [| auto].
    intros _. apply H0, Hs2. reflexivity.
Qed.

Lemma update_trainer_waited a i s s' :
  trainer_waited a s -> update a i s = Some s' -> trainer_waited a s'.
Proof.
  intros (Hfaded & Hframe & Hcan) H.
  destruct (update_parts a i s s' H)
    as (p & bumps & l & e & d & cries & d' & f & f' & sl & b & sl' & t & v & b'
        & throws & _ & _ & Ed & Ef & Eb & _ & _ & ->).
  destruct (fade_chain _ _ _ _ _ _ _ _ _ _ _ _ Ed Ef Hfaded) as [Hfaded' Hkeep].
  unfold trainer_waited. cbn [fade trainer slides].
  split; [exact Hfaded' |].
  destruct (fade_state f') eqn:Est.
  - injection Eb as <- <- <- <- <-.
    split; [exact Hframe |].
    intros Hc. destruct (Hcan Hc) as (H1 & H2 & H3).
    destruct (Hkeep H2) as [H4 ->]. auto.
  - injection Eb as <- <- <- <- <-.
    split; [exact Hframe |].
    intros Hc. destruct (Hcan Hc) as (H1 & H2 & H3).
    destruct (Hkeep H2) as [H4 ->]. auto.
  - destruct (update_battle_waits _ _ _ _ _ _ _ _ _ _ _ Eb)
      as (Hsl & Hcan' & Hframe' & Hstays).
    split.
    + intros Hne. destruct (Hframe' Hne) as [Hold | Hnew]; [| exact Hnew].
      apply Hstays, Hframe, Hold.
    + intros Hc. destruct (Hcan' Hc) as [Hold | [Harr Hsp]].
      * destruct (Hcan Hold) as (H1 & H2 & H3).
        destruct (Hkeep H2) as [H4 ->]. auto.
      * split; [exact Hsp |]. split; [apply Hfaded'; reflexivity | exact Harr].
Qed.

Lemma on_enter_trainer_waited a s :
  trainer_waited a s -> trainer_waited a (on_enter a s).
Proof.
  unfold trainer_waited, on_enter. cbn.
  destruct (map_music a); cbn; exact (fun H => H).
Qed.

Lemma restart_trainer_waited a s :
  trainer_waited a s -> trainer_waited a (restart a s).
Proof.
  intros H. apply (on_enter_trainer_waited a) in H.
  destruct H as (_ & Hframe & Hcan).
  unfold trainer_waited, restart.
  cbn [fade trainer slides fade_state battle_animations_started
       battle_trainer_current_frame battle_trainer_can_animate].
  split; [discriminate |].
  destruct (0 <? battle_trainer_sprites a)%nat eqn:Esprites.
  - split; [intros Hne; exfalso; apply Hne; reflexivity | discriminate].
  - split; [exact Hframe |].
    intros Hc. destruct (Hcan Hc) as [Hs _]. discriminate Hs.
Qed.

Lemma handle_event_trainer_waited a event s :
  trainer_waited a s -> trainer_waited a (handle_event a event s).
Proof.
  intros H. unfold handle_event.
  assert (Hkeys : forall s0,
            trainer_waited a s0 ->
            trainer_waited a
              (if movement_locked s0 then s0
               else match event with
                    | KEYDOWN key => set_player (press key (player s0)) s0
                    | KEYUP key => set_player (release key (player s0)) s0
                    end)).
  { intros s0 H0. destruct (movement_locked s0); [exact H0 |].
    destruct event; exact H0. }
  destruct event as [key|key].
  - destruct key; try (apply Hkeys; exact H).
    apply restart_trainer_waited, H.
  - apply Hkeys, H.
Qed.

Lemma fresh_trainer_waited a : trainer_waited a (fresh a).
Proof.
  apply on_enter_trainer_waited. unfold trainer_waited. cbn.
  split; [discriminate |].
  split; [intros H; exfalso; apply H; reflexivity | discriminate].
Qed.

(** The trainer waits for the slide-in of the grass, the stat panel and
    the water. In every state that key events and ticks reach from the
    fresh scene, restarts included: if the trainer has left its first
    throw frame, or is allowed to animate, then each of the three that is
    loaded and visible is at its target. (The Lugia sprite is not waited
    for.) *)
Theorem trainer_waits_for_grass_stat_panel_and_water a steps s e :
  run a steps (fresh a) = Some s ->
  battle_trainer_current_frame (trainer s) <> 0
  \/ battle_trainer_can_animate (trainer s) = true ->
  waited_for e = true ->
  sliding a (slides s) e = true ->
  (position (slides s) e == target a e)%Q.
Proof.
  intros Hrun Hthrows He Hsliding.
  assert (Hinv : trainer_waited a s).
  { apply (run_invariant a (trainer_waited a)) with (steps := steps).
    - apply fresh_trainer_waited.
    - intros event s0. apply handle_event_trainer_waited.
    - intros i s0 s1 H0 Hu. apply (update_trainer_waited a i s0 s1 H0 Hu).
    - exact Hrun. }
  destruct Hinv as (_ & Hframe & Hcan).
  assert (Hc : battle_trainer_can_animate (trainer s) = true)
    by (destruct Hthrows as [Hne | Hc]; [apply Hframe, Hne | exact Hc]).
  destruct (Hcan Hc) as (_ & _ & Harrived).
  apply (Harrived e He Hsliding).
Qed.

Lemma trainer_waits_in_frame_430 :
  exists s,
    run demo_assets (walk_up 430) (fresh demo_assets) = Some s /\
    battle_trainer_current_frame (trainer s) = 1 /\
    (battle_grass_left_x (slides s) == 0)%Q /\
    (battle_pokemonstat_x (slides s) == 0)%Q /\
    (battle_water_x (slides s) == inject_Z (battle_water_target_x demo_assets))%Q.
Proof.
  destruct (run demo_assets (walk_up 430) (fresh demo_assets)) as [s|] eqn:Hrun;
    [| vm_compute in Hrun; discriminate Hrun].
  assert (Hs : Some s = run demo_assets (walk_up 430) (fresh demo_assets))
    by (symmetry; exact Hrun).
  assert (Hframe : battle_trainer_current_frame (trainer s) = 1).
  { apply (f_equal (option_map (fun s => battle_trainer_current_frame (trainer s))))
      in Hs.
    vm_compute in Hs. injection Hs as Hs. exact Hs. }
  assert (Hvisible : forall e, waited_for e = true ->
                               sliding demo_assets (slides s) e = true).
  { intros e He.
    apply (f_equal (option_map (fun s => sliding demo_assets (slides s) e))) in Hs.
    destruct e; try discriminate He; vm_compute in Hs; injection Hs as Hs;
      exact Hs. }
  assert (Hthrows : battle_trainer_current_frame (trainer s) <> 0
                    \/ battle_trainer_can_animate (trainer s) = true)
    by (left; rewrite Hframe; discriminate).
  exists s. split; [reflexivity |]. split; [exact Hframe |].
  split; [| split].
  - exact (trainer_waits_for_grass_stat_panel_and_water
             demo_assets (walk_up 430) s Grass Hrun Hthrows eq_refl
             (Hvisible Grass eq_refl)).
  - exact (trainer_waits_for_grass_stat_panel_and_water
             demo_assets (walk_up 430) s Pokemonstat Hrun Hthrows eq_refl
             (Hvisible Pokemonstat eq_refl)).
  - exact (trainer_waits_for_grass_stat_panel_and_water
             demo_assets (walk_up 430) s Water Hrun Hthrows eq_refl
             (Hvisible Water eq_refl)).
Defined.
